(** * PanteraAWS backend: UDP location ingestion and query service

    A shallow embedding of [src/backend/main.py].  The Python module keeps
    one global ([db_pool]), prints to standard output, talks to a
    PostgreSQL server through an [asyncpg] pool and schedules one
    [insert_location_data] coroutine per received datagram.  The embedding
    threads all of that through an explicit [world] with a state and
    exception monad, so that every function below can be read next to the
    function of the same name in the source. *)

From Stdlib Require Import ZArith List Bool Lia.
From Stdlib Require Import Strings.String Strings.Ascii Strings.Byte.
From Stdlib Require Import SpecFloat Sorting.Sorted Sorting.Permutation.
Import ListNotations.

Set Warnings "-register-all".

Local Open Scope Z_scope.

(** ** Python values *)

Module Py.

(** A Python [str] is a sequence of Unicode code points. *)
Definition str := list Z.

Definition ord (a : ascii) : Z := Z.of_nat (nat_of_ascii a).

(** Code points of an ASCII literal of the source, e.g. the key ["lat"]. *)
Definition lit (s : string) : str := map ord (list_ascii_of_string s).

Fixpoint str_eqb (a b : str) : bool :=
  match a, b with
  | [], [] => true
  | x :: a', y :: b' => (x =? y) && str_eqb a' b'
  | _, _ => false
  end.

(** The values [json.loads] can produce.  A [float] is an IEEE binary64
    number, a [dict] keeps its items in insertion order. *)
Inductive value : Type :=
| PNone
| PBool (b : bool)
| PInt (z : Z)
| PFloat (f : spec_float)
| PStr (s : str)
| PList (l : list value)
| PDict (items : list (str * value)).

(** Exceptions the program can meet.  All of them are subclasses of
    [Exception], so a bare [except Exception] catches each one. *)
Inductive exn : Type :=
| UnicodeDecodeError
| JSONDecodeError
| RecursionError
| AttributeError
| TypeError
| KeyError
| DataError                   (* asyncpg: argument cannot be encoded *)
| NotNullViolationError (column : string)
| NumericValueOutOfRangeError
| InvalidRowCountInLimitClauseError
| UndefinedTableError
| UniqueViolationError
| ConnectionFailure           (* OSError and friends from the driver *)
| HTTPException (status_code : Z).

(** [d.get(key)] on a dict: the value bound to [key], or [None]. *)
Fixpoint dict_get (items : list (str * value)) (key : str) : value :=
  match items with
  | [] => PNone
  | (k, v) :: rest => if str_eqb k key then v else dict_get rest key
  end.

(** [d[key] = v] on a dict: rebinding keeps the position of the key. *)
Fixpoint dict_set (items : list (str * value)) (key : str) (v : value)
  : list (str * value) :=
  match items with
  | [] => [(key, v)]
  | (k, v0) :: rest =>
      if str_eqb k key then (k, v) :: rest
      else (k, v0) :: dict_set rest key v
  end.

End Py.

(** ** [bytes.decode()]: strict UTF-8 *)

Module Utf8.

Definition byte_val (b : byte) : Z := Z.of_N (Byte.to_N b).

Definition is_cont (b : Z) : bool := (128 <=? b) && (b <=? 191).

Definition in_range (lo hi b : Z) : bool := (lo <=? b) && (b <=? hi).

(** Decoding of a list of byte values.  Overlong forms, surrogates and
    code points above U+10FFFF are rejected, as CPython does. *)
Fixpoint decode_vals (bs : list Z) : option Py.str :=
  match bs with
  | [] => Some []
  | b0 :: r0 =>
      if b0 <? 128 then option_map (cons b0) (decode_vals r0)
      else if in_range 194 223 b0 then
        match r0 with
        | b1 :: r1 =>
            if is_cont b1
            then option_map (cons ((b0 - 192) * 64 + (b1 - 128)))
                            (decode_vals r1)
            else None
        | _ => None
        end
      else if in_range 224 239 b0 then
        match r0 with
        | b1 :: b2 :: r2 =>
            let lo := if b0 =? 224 then 160 else 128 in
            let hi := if b0 =? 237 then 159 else 191 in
            if in_range lo hi b1 && is_cont b2
            then option_map
                   (cons ((b0 - 224) * 4096 + (b1 - 128) * 64 + (b2 - 128)))
                   (decode_vals r2)
            else None
        | _ => None
        end
      else if in_range 240 244 b0 then
        match r0 with
        | b1 :: b2 :: b3 :: r3 =>
            let lo := if b0 =? 240 then 144 else 128 in
            let hi := if b0 =? 244 then 143 else 191 in
            if in_range lo hi b1 && is_cont b2 && is_cont b3
            then option_map
                   (cons ((b0 - 240) * 262144 + (b1 - 128) * 4096
                          + (b2 - 128) * 64 + (b3 - 128)))
                   (decode_vals r3)
            else None
        | _ => None
        end
      else None
  end.

Definition decode (data : list byte) : Py.exn + Py.str :=
  match decode_vals (map byte_val data) with
  | Some s => inr s
  | None => inl Py.UnicodeDecodeError
  end.

(** The UTF-8 encoding of an ASCII literal, for writing datagrams down. *)
Definition encode_ascii (s : string) : list byte :=
  map byte_of_ascii (list_ascii_of_string s).

End Utf8.

(** ** The PostgreSQL server behind the pool

    Only what the statements of the source use: one relation, created by
    the DDL of [create_location_table], one [INSERT] and two [SELECT]s. *)

Module Pg.

(** A [numeric] value: [unscaled / 10^scale], or the special value NaN. *)
Inductive numeric : Type :=
| Num (unscaled : Z) (scale : Z)
| NumNaN.

Inductive sqlval : Type :=
| SNull
| SInt (z : Z)
| SNumeric (n : numeric)
| SText (s : Py.str)
| STimestamp (t : Z).

Inductive sqltype : Type :=
| TSerial
| TDecimal (precision scale : Z)
| TBigint
| TVarchar (n : Z)
| TTimestamp.

Inductive default_expr : Type :=
| DNone
| DNextval              (* SERIAL: nextval of the owned sequence *)
| DCurrentTimestamp.

Record column_def : Type := mk_column {
  col_name : string;
  col_type : sqltype;
  col_primary_key : bool;
  col_not_null : bool;
  col_default : default_expr
}.

(** The column list of [CREATE TABLE IF NOT EXISTS location_data (...)]. *)
Definition location_data_columns : list column_def :=
  [ mk_column "id" TSerial true true DNextval;
    mk_column "latitude" (TDecimal 10 8) false true DNone;
    mk_column "longitude" (TDecimal 11 8) false true DNone;
    mk_column "timestamp_value" TBigint false true DNone;
    mk_column "accuracy" (TDecimal 8 2) false false DNone;
    mk_column "altitude" (TDecimal 8 2) false false DNone;
    mk_column "speed" (TDecimal 8 2) false false DNone;
    mk_column "provider" (TVarchar 50) false false DNone;
    mk_column "created_at" TTimestamp false false DCurrentTimestamp ].

(** A stored row, and an [asyncpg.Record]: column names with values. *)
Definition row := list (string * sqlval).

Fixpoint field (r : row) (name : string) : option sqlval :=
  match r with
  | [] => None
  | (k, v) :: rest => if String.eqb k name then Some v else field rest name
  end.

Definition row_id (r : row) : Z :=
  match field r "id" with
  | Some (SInt z) => z
  | _ => 0
  end.

Record table : Type := mk_table {
  tbl_columns : list column_def;
  tbl_rows : list row;            (* in insertion order *)
  tbl_seq : Z                     (* last value handed out by the sequence *)
}.

(** The server: the relation [location_data] if it exists, and the clock
    that [CURRENT_TIMESTAMP] reads. *)
Record server : Type := mk_server {
  location_data : option table;
  clock : Z
}.

Definition set_table (s : server) (t : table) : server :=
  mk_server (Some t) (clock s).

(** [CREATE TABLE IF NOT EXISTS location_data (...)]. *)
Definition create_table_if_not_exists (cols : list column_def) (s : server)
  : server :=
  match location_data s with
  | Some _ => s
  | None => set_table s (mk_table cols [] 0)
  end.

(** *** Coercion to a column type *)

(** Division rounding half away from zero, as [numeric] rounding does. *)
Definition div_round_half_away (a b : Z) : Z :=
  let q := Z.abs a / b in
  let r := Z.abs a mod b in
  let q' := if 2 * r >=? b then q + 1 else q in
  if a <? 0 then - q' else q'.

Definition rescale (unscaled from_scale to_scale : Z) : Z :=
  if from_scale <=? to_scale
  then unscaled * 10 ^ (to_scale - from_scale)
  else div_round_half_away unscaled (10 ^ (from_scale - to_scale)).

Definition coerce (ty : sqltype) (v : sqlval) : Py.exn + sqlval :=
  match ty, v with
  | _, SNull => inr SNull
  | TDecimal p s, SNumeric NumNaN => inr (SNumeric NumNaN)
  | TDecimal p s, SNumeric (Num u sc) =>
      let u' := rescale u sc s in
      if Z.abs u' <? 10 ^ p then inr (SNumeric (Num u' s))
      else inl Py.NumericValueOutOfRangeError
  | TDecimal p s, SInt z =>
      if Z.abs (z * 10 ^ s) <? 10 ^ p then inr (SNumeric (Num (z * 10 ^ s) s))
      else inl Py.NumericValueOutOfRangeError
  | _, _ => inr v
  end.

(** *** INSERT *)

Inductive expr : Type :=
| EParam (n : nat)      (* $1 is [EParam 0] *)
| ENull.

Definition eval_expr (params : list sqlval) (e : expr) : sqlval :=
  match e with
  | EParam n => nth n params SNull
  | ENull => SNull
  end.

Fixpoint assigned (targets : list (string * expr)) (name : string)
  : option expr :=
  match targets with
  | [] => None
  | (k, e) :: rest => if String.eqb k name then Some e else assigned rest name
  end.

(** The new tuple is computed column by column; a default that calls
    [nextval] advances the sequence whether or not the statement later
    fails. *)
Fixpoint project (cols : list column_def) (targets : list (string * expr))
    (params : list sqlval) (seq now : Z) : Z * (Py.exn + row) :=
  match cols with
  | [] => (seq, inr [])
  | c :: cols' =>
      let '(seq1, v) :=
        match assigned targets (col_name c) with
        | Some e => (seq, coerce (col_type c) (eval_expr params e))
        | None =>
            match col_default c with
            | DNone => (seq, inr SNull)
            | DNextval => (seq + 1, inr (SInt (seq + 1)))
            | DCurrentTimestamp => (seq, inr (STimestamp now))
            end
        end in
      match v with
      | inl e => (seq1, inl e)
      | inr v =>
          match project cols' targets params seq1 now with
          | (seq2, inr r) => (seq2, inr ((col_name c, v) :: r))
          | (seq2, inl e) => (seq2, inl e)
          end
      end
  end.

Definition is_null (v : option sqlval) : bool :=
  match v with
  | Some SNull | None => true
  | _ => false
  end.

(** The first NOT NULL (or PRIMARY KEY) column holding a null. *)
Fixpoint null_violation (cols : list column_def) (r : row) : option string :=
  match cols with
  | [] => None
  | c :: cols' =>
      if (col_not_null c || col_primary_key c) && is_null (field r (col_name c))
      then Some (col_name c)
      else null_violation cols' r
  end.

Definition sqlval_eqb_int (a b : option sqlval) : bool :=
  match a, b with
  | Some (SInt x), Some (SInt y) => x =? y
  | _, _ => false
  end.

(** A PRIMARY KEY column whose value is already taken by a stored row. *)
Definition unique_violation (cols : list column_def) (rows : list row)
    (r : row) : bool :=
  existsb (fun c =>
    col_primary_key c &&
    existsb (fun r0 => sqlval_eqb_int (field r0 (col_name c))
                                      (field r (col_name c))) rows) cols.

(** [INSERT INTO location_data (targets) VALUES (...) RETURNING id]:
    the server after the statement, and the returned record or the error. *)
Definition insert_returning_id (targets : list (string * expr))
    (params : list sqlval) (s : server) : server * (Py.exn + row) :=
  match location_data s with
  | None => (s, inl Py.UndefinedTableError)
  | Some t =>
      match project (tbl_columns t) targets params (tbl_seq t) (clock s) with
      | (seq, inl e) =>
          (set_table s (mk_table (tbl_columns t) (tbl_rows t) seq), inl e)
      | (seq, inr r) =>
          let failed e :=
            (set_table s (mk_table (tbl_columns t) (tbl_rows t) seq), inl e) in
          match null_violation (tbl_columns t) r with
          | Some c => failed (Py.NotNullViolationError c)
          | None =>
              if unique_violation (tbl_columns t) (tbl_rows t) r
              then failed Py.UniqueViolationError
              else (set_table s (mk_table (tbl_columns t)
                                          (tbl_rows t ++ [r]) seq),
                    inr [("id"%string, SInt (row_id r))])
          end
      end
  end.

(** *** SELECT ... ORDER BY id DESC LIMIT n *)

Fixpoint insert_desc (r : row) (sorted : list row) : list row :=
  match sorted with
  | [] => [r]
  | r0 :: rest =>
      if row_id r0 <? row_id r then r :: sorted
      else r0 :: insert_desc r rest
  end.

Fixpoint order_by_id_desc (rows : list row) : list row :=
  match rows with
  | [] => []
  | r :: rest => insert_desc r (order_by_id_desc rest)
  end.

(** The select list: [None] is [*]. *)
Definition select_list (cols : option (list string)) (r : row) : row :=
  match cols with
  | None => r
  | Some names =>
      flat_map (fun n => match field r n with
                         | Some v => [(n, v)]
                         | None => []
                         end) names
  end.

Definition select_order_by_id_desc_limit (cols : option (list string))
    (limit : sqlval) (s : server) : Py.exn + list row :=
  match location_data s with
  | None => inl Py.UndefinedTableError
  | Some t =>
      let sorted := order_by_id_desc (tbl_rows t) in
      match limit with
      | SNull => inr (map (select_list cols) sorted)
      | SInt n =>
          if n <? 0 then inl Py.InvalidRowCountInLimitClauseError
          else inr (map (select_list cols) (firstn (Z.to_nat n) sorted))
      | _ => inl Py.DataError
      end
  end.

End Pg.

(** ** [json.loads] on a [str]

    The decoder of the standard library with its default settings: the
    JSON grammar plus the constants [NaN], [Infinity] and [-Infinity],
    integers as [int], numbers with a fraction or an exponent as [float],
    objects as [dict] (a repeated key keeps its last value). *)

Module Json.

Definition is_ws (c : Z) : bool :=
  (c =? 32) || (c =? 9) || (c =? 10) || (c =? 13).

Fixpoint skip_ws (s : Py.str) : Py.str :=
  match s with
  | c :: rest => if is_ws c then skip_ws rest else s
  | [] => []
  end.

Fixpoint strip_prefix (p s : Py.str) : option Py.str :=
  match p, s with
  | [], _ => Some s
  | x :: p', y :: s' => if x =? y then strip_prefix p' s' else None
  | _ :: _, [] => None
  end.

Definition is_digit (c : Z) : bool := (48 <=? c) && (c <=? 57).

Definition hex_digit (c : Z) : option Z :=
  if is_digit c then Some (c - 48)
  else if (97 <=? c) && (c <=? 102) then Some (c - 87)
  else if (65 <=? c) && (c <=? 70) then Some (c - 55)
  else None.

Definition hex4 (a b c d : Z) : option Z :=
  match hex_digit a, hex_digit b, hex_digit c, hex_digit d with
  | Some a, Some b, Some c, Some d => Some (((a * 16 + b) * 16 + c) * 16 + d)
  | _, _, _, _ => None
  end.

(** The one-letter escapes: quote, backslash, slash, b, f, n, r, t. *)
Definition simple_escape (c : Z) : option Z :=
  if c =? 34 then Some 34
  else if c =? 92 then Some 92
  else if c =? 47 then Some 47
  else if c =? 98 then Some 8
  else if c =? 102 then Some 12
  else if c =? 110 then Some 10
  else if c =? 114 then Some 13
  else if c =? 116 then Some 9
  else None.

(** [s] without its first character, when that is [c]. *)
Definition starts (c : Z) (s : Py.str) : option Py.str :=
  match s with
  | x :: rest => if x =? c then Some rest else None
  | [] => None
  end.

Definition is_high_surrogate (u : Z) : bool := (55296 <=? u) && (u <=? 56319).

Definition is_low_surrogate (u : Z) : bool := (56320 <=? u) && (u <=? 57343).

Definition join_surrogates (hi lo : Z) : Z :=
  65536 + (hi - 55296) * 1024 + (lo - 56320).

(** The body of a string, after the opening quote (strict mode: a raw
    control character is an error).  [acc] holds the decoded characters in
    reverse.  A backslash (92) starts an escape; after [u] (117) come four
    hexadecimal digits, and a high surrogate directly followed by the
    escape of a low one makes one character with it. *)
Fixpoint scanstring (s : Py.str) (acc : Py.str) : option (Py.str * Py.str) :=
  match s with
  | [] => None
  | c :: rest =>
      if c =? 34 then Some (rev acc, rest)
      else if c =? 92 then
        match rest with
        | [] => None
        | e :: rest1 =>
            if e =? 117 then
              match rest1 with
              | a :: b :: c' :: d :: rest2 =>
                  match hex4 a b c' d with
                  | None => None
                  | Some u =>
                      match rest2 with
                      | b2 :: u2 :: a2 :: b2' :: c2 :: d2 :: rest3 =>
                          match hex4 a2 b2' c2 d2 with
                          | Some lo =>
                              if is_high_surrogate u && (b2 =? 92)
                                 && (u2 =? 117) && is_low_surrogate lo
                              then scanstring rest3
                                     (join_surrogates u lo :: acc)
                              else scanstring rest2 (u :: acc)
                          | None => scanstring rest2 (u :: acc)
                          end
                      | _ => scanstring rest2 (u :: acc)
                      end
                  end
              | _ => None
              end
            else
              match simple_escape e with
              | Some x => scanstring rest1 (x :: acc)
              | None => None
              end
        end
      else if c <=? 31 then None
      else scanstring rest (c :: acc)
  end.

(** *** Numbers *)

Fixpoint span_digits (s : Py.str) : list Z * Py.str :=
  match s with
  | c :: rest =>
      if is_digit c
      then let '(ds, r) := span_digits rest in (c - 48 :: ds, r)
      else ([], s)
  | [] => ([], [])
  end.

Definition digits_value (ds : list Z) : Z :=
  fold_left (fun acc d => acc * 10 + d) ds 0.

Definition binary64_prec : Z := 53.
Definition binary64_emax : Z := 1024.

(** [float(literal)]: the binary64 number nearest to [m * 10^e], ties to
    even, infinite when out of range. *)
Definition float_of_decimal (negative : bool) (m e : Z) : spec_float :=
  match m with
  | Zpos p =>
      let '(n, d) := if 0 <=? e then (Zpos p * 10 ^ e, 1)
                     else (Zpos p, 10 ^ (- e)) in
      match n, d with
      | Zpos n, Zpos d =>
          SFdiv binary64_prec binary64_emax
                (S754_finite negative n 0) (S754_finite false d 0)
      | _, _ => S754_nan
      end
  | _ => S754_zero negative
  end.

(** The integer part: [0] or a non-zero digit followed by digits. *)
Definition match_integer (s : Py.str) : option (list Z * Py.str) :=
  match s with
  | c :: rest =>
      if c =? 48 then Some ([0], rest)
      else if is_digit c then Some (span_digits s)
      else None
  | [] => None
  end.

(** The fraction: a point (46) and at least one digit, or nothing. *)
Definition match_frac (s : Py.str) : list Z * Py.str :=
  match starts 46 s with
  | Some rest =>
      match span_digits rest with
      | ([], _) => ([], s)
      | (ds, r) => (ds, r)
      end
  | None => ([], s)
  end.

(** The sign of an exponent: minus (45), plus (43) or none. *)
Definition match_sign (s : Py.str) : bool * Py.str :=
  match starts 45 s with
  | Some r => (true, r)
  | None =>
      match starts 43 s with
      | Some r => (false, r)
      | None => (false, s)
      end
  end.

(** The exponent part, if complete: [e] (101) or [E] (69), a sign,
    digits. *)
Definition match_exp (s : Py.str) : option (Z * Py.str) :=
  match s with
  | c :: rest =>
      if (c =? 101) || (c =? 69) then
        let '(neg, rest1) := match_sign rest in
        match span_digits rest1 with
        | ([], _) => None
        | (ds, r) => Some (if neg then - digits_value ds else digits_value ds, r)
        end
      else None
  | [] => None
  end.

Definition match_number (s : Py.str) : option (Py.value * Py.str) :=
  let '(negative, s1) :=
    match starts 45 s with
    | Some r => (true, r)
    | None => (false, s)
    end in
  match match_integer s1 with
  | None => None
  | Some (int_ds, s2) =>
      let '(frac_ds, s3) := match_frac s2 in
      let exp := match_exp s3 in
      match frac_ds, exp with
      | [], None =>
          let v := digits_value int_ds in
          Some (Py.PInt (if negative then - v else v), s3)
      | _, _ =>
          let '(e, s4) := match exp with
                          | Some (e, r) => (e, r)
                          | None => (0, s3)
                          end in
          Some (Py.PFloat
                  (float_of_decimal negative
                     (digits_value (int_ds ++ frac_ds))
                     (e - Z.of_nat (List.length frac_ds))),
                s4)
      end
  end.

(** The constants, tried when no number matches. *)
Definition match_constant (s : Py.str) : option (Py.value * Py.str) :=
  match strip_prefix (Py.lit "NaN") s with
  | Some r => Some (Py.PFloat S754_nan, r)
  | None =>
  match strip_prefix (Py.lit "Infinity") s with
  | Some r => Some (Py.PFloat (S754_infinity false), r)
  | None =>
  match strip_prefix (Py.lit "-Infinity") s with
  | Some r => Some (Py.PFloat (S754_infinity true), r)
  | None => None
  end end end.

(** *** Values *)

Definition parsed (A : Type) : Type := Py.exn + (A * Py.str).

(** A value that is neither a string, an object nor an array. *)
Definition scan_literal (s : Py.str) : parsed Py.value :=
  match strip_prefix (Py.lit "null") s with
  | Some r => inr (Py.PNone, r)
  | None =>
  match strip_prefix (Py.lit "true") s with
  | Some r => inr (Py.PBool true, r)
  | None =>
  match strip_prefix (Py.lit "false") s with
  | Some r => inr (Py.PBool false, r)
  | None =>
  match match_number s with
  | Some (v, r) => inr (v, r)
  | None =>
  match match_constant s with
  | Some (v, r) => inr (v, r)
  | None => inl Py.JSONDecodeError
  end end end end end.

(** [scan_once] with its two loops, [parse_array] and [parse_object]
    (after the opening bracket, at the next element).  The characters
    tested are the quote (34), the braces (123, 125), the brackets (91,
    93), the comma (44) and the colon (58).  [fuel] bounds the number of
    nested calls; [loads] gives as much as any input needs (lemma
    [loads_has_fuel]), so the recursion limit of the interpreter is the
    one thing of the decoder that is not modelled. *)
Fixpoint scan_once (fuel : nat) (s : Py.str) : parsed Py.value :=
  match fuel with
  | O => inl Py.RecursionError
  | S fuel' =>
      match s with
      | [] => inl Py.JSONDecodeError
      | c :: rest =>
          if c =? 34 then
            match scanstring rest [] with
            | Some (str, r) => inr (Py.PStr str, r)
            | None => inl Py.JSONDecodeError
            end
          else if c =? 123 then
            match starts 125 (skip_ws rest) with
            | Some r => inr (Py.PDict [], r)
            | None =>
                match parse_members fuel' (skip_ws rest) [] with
                | inr (items, r') => inr (Py.PDict items, r')
                | inl e => inl e
                end
            end
          else if c =? 91 then
            match starts 93 (skip_ws rest) with
            | Some r => inr (Py.PList [], r)
            | None =>
                match parse_elements fuel' (skip_ws rest) [] with
                | inr (l, r') => inr (Py.PList l, r')
                | inl e => inl e
                end
            end
          else scan_literal s
      end
  end

with parse_elements (fuel : nat) (s : Py.str) (acc : list Py.value)
  : parsed (list Py.value) :=
  match fuel with
  | O => inl Py.RecursionError
  | S fuel' =>
      match scan_once fuel' s with
      | inl e => inl e
      | inr (v, r) =>
          match skip_ws r with
          | [] => inl Py.JSONDecodeError
          | c :: r' =>
              if c =? 93 then inr (rev (v :: acc), r')
              else if c =? 44
              then parse_elements fuel' (skip_ws r') (v :: acc)
              else inl Py.JSONDecodeError
          end
      end
  end

with parse_members (fuel : nat) (s : Py.str) (acc : list (Py.str * Py.value))
  : parsed (list (Py.str * Py.value)) :=
  match fuel with
  | O => inl Py.RecursionError
  | S fuel' =>
      match starts 34 s with
      | None => inl Py.JSONDecodeError
      | Some rest =>
          match scanstring rest [] with
          | None => inl Py.JSONDecodeError
          | Some (key, r) =>
              match starts 58 (skip_ws r) with
              | None => inl Py.JSONDecodeError
              | Some r1 =>
                  match scan_once fuel' (skip_ws r1) with
                  | inl e => inl e
                  | inr (v, r2) =>
                      let acc' := Py.dict_set acc key v in
                      match skip_ws r2 with
                      | [] => inl Py.JSONDecodeError
                      | c :: r3 =>
                          if c =? 125 then inr (acc', r3)
                          else if c =? 44
                          then parse_members fuel' (skip_ws r3) acc'
                          else inl Py.JSONDecodeError
                      end
                  end
              end
          end
      end
  end.

(** [json.loads(s)]: one value, surrounded by optional whitespace; a
    leading byte order mark (U+FEFF) is refused. *)
Definition loads (s : Py.str) : Py.exn + Py.value :=
  match starts 65279 s with
  | Some _ => inl Py.JSONDecodeError
  | None =>
      match scan_once (S (2 * List.length s)) (skip_ws s) with
      | inl e => inl e
      | inr (v, r) =>
          match skip_ws r with
          | [] => inr v
          | _ => inl Py.JSONDecodeError
          end
      end
  end.

End Json.

(** ** The [asyncpg] driver

    The driver encodes every argument for the parameter type the server
    inferred, before anything is sent; an argument it cannot encode raises
    [DataError] and leaves the server untouched. *)

Module Asyncpg.

(** A pool object.  What its codecs make of an argument that is neither
    [None] nor a number ([Decimal(obj)] for a [numeric] parameter,
    [int(obj)] for a [bigint] one) differs between driver versions and is
    kept as part of the object. *)
Record pool : Type := mk_pool {
  max_size : nat;
  decimal_of_other : Py.value -> option Pg.numeric;
  int_of_other : Py.value -> option Z
}.

(** [Decimal(f)] of a finite float is exact: [m * 2^e] written with a
    power of ten as denominator. *)
Definition decimal_of_float (f : spec_float) : option Pg.numeric :=
  match f with
  | S754_zero _ => Some (Pg.Num 0 0)
  | S754_finite s m e =>
      let m := if s then Z.neg m else Z.pos m in
      Some (if 0 <=? e then Pg.Num (m * 2 ^ e) 0
            else Pg.Num (m * 5 ^ (- e)) (- e))
  | S754_nan => Some Pg.NumNaN
  | S754_infinity _ => None
  end.

(** The codec of [numeric]: [None] is NULL, anything else goes through
    [Decimal(obj)]; an infinite value cannot be sent. *)
Definition numeric_encode (p : pool) (v : Py.value) : Py.exn + Pg.sqlval :=
  match v with
  | Py.PNone => inr Pg.SNull
  | Py.PInt z => inr (Pg.SNumeric (Pg.Num z 0))
  | Py.PBool b => inr (Pg.SNumeric (Pg.Num (if b then 1 else 0) 0))
  | Py.PFloat f =>
      match decimal_of_float f with
      | Some n => inr (Pg.SNumeric n)
      | None => inl Py.DataError
      end
  | _ =>
      match decimal_of_other p v with
      | Some n => inr (Pg.SNumeric n)
      | None => inl Py.DataError
      end
  end.

Definition int64_min : Z := - 2 ^ 63.
Definition int64_max : Z := 2 ^ 63 - 1.

Definition in_int64 (z : Z) : bool := (int64_min <=? z) && (z <=? int64_max).

(** The codec of [bigint]: the argument has to fit a signed 64-bit
    integer, or the driver raises before anything is sent. *)
Definition int8_of (z : Z) : Py.exn + Pg.sqlval :=
  if in_int64 z then inr (Pg.SInt z) else inl Py.DataError.

Definition int8_encode (p : pool) (v : Py.value) : Py.exn + Pg.sqlval :=
  match v with
  | Py.PNone => inr Pg.SNull
  | Py.PInt z => int8_of z
  | Py.PBool b => inr (Pg.SInt (if b then 1 else 0))
  | _ =>
      match int_of_other p v with
      | Some z => int8_of z
      | None => inl Py.DataError
      end
  end.

Definition encode (p : pool) (ty : Pg.sqltype) (v : Py.value)
  : Py.exn + Pg.sqlval :=
  match ty with
  | Pg.TDecimal _ _ => numeric_encode p v
  | Pg.TBigint | Pg.TSerial => int8_encode p v
  | _ => match v with
         | Py.PNone => inr Pg.SNull
         | Py.PStr s => inr (Pg.SText s)
         | _ => inl Py.DataError
         end
  end.

(** The statements of the source. *)
Inductive statement : Type :=
| InsertReturningId (targets : list (string * Pg.expr))
| SelectLatest (cols : option (list string)) (limit : Z)
    (* SELECT cols FROM location_data ORDER BY id DESC LIMIT <literal> *)
| SelectRecent (cols : option (list string)).
    (* SELECT cols FROM location_data ORDER BY id DESC LIMIT $1 *)

Fixpoint column_type (cols : list Pg.column_def) (name : string)
  : option Pg.sqltype :=
  match cols with
  | [] => None
  | c :: rest =>
      if String.eqb (Pg.col_name c) name then Some (Pg.col_type c)
      else column_type rest name
  end.

(** The parameter types the server infers when the statement is prepared:
    a parameter of an [INSERT] takes the type of its target column, the
    parameter of [LIMIT] is a [bigint]. *)
Fixpoint insert_param_types (cols : list Pg.column_def)
    (targets : list (string * Pg.expr)) : list Pg.sqltype :=
  match targets with
  | [] => []
  | (name, Pg.EParam _) :: rest =>
      match column_type cols name with
      | Some ty => ty :: insert_param_types cols rest
      | None => insert_param_types cols rest
      end
  | (_, Pg.ENull) :: rest => insert_param_types cols rest
  end.

Definition param_types (st : statement) (s : Pg.server)
  : Py.exn + list Pg.sqltype :=
  match Pg.location_data s with
  | None => inl Py.UndefinedTableError
  | Some t =>
      match st with
      | InsertReturningId targets =>
          inr (insert_param_types (Pg.tbl_columns t) targets)
      | SelectLatest _ _ => inr []
      | SelectRecent _ => inr [Pg.TBigint]
      end
  end.

Fixpoint encode_args (p : pool) (tys : list Pg.sqltype) (args : list Py.value)
  : Py.exn + list Pg.sqlval :=
  match tys, args with
  | [], [] => inr []
  | ty :: tys', a :: args' =>
      match encode p ty a with
      | inl e => inl e
      | inr v =>
          match encode_args p tys' args' with
          | inl e => inl e
          | inr vs => inr (v :: vs)
          end
      end
  | _, _ => inl Py.DataError
  end.

(** [connection.fetch(query, *args)]: prepare, encode, execute. *)
Definition fetch (p : pool) (st : statement) (args : list Py.value)
    (s : Pg.server) : Pg.server * (Py.exn + list Pg.row) :=
  match param_types st s with
  | inl e => (s, inl e)
  | inr tys =>
      match encode_args p tys args with
      | inl e => (s, inl e)
      | inr params =>
          match st with
          | InsertReturningId targets =>
              match Pg.insert_returning_id targets params s with
              | (s', inr r) => (s', inr [r])
              | (s', inl e) => (s', inl e)
              end
          | SelectLatest cols n =>
              (s, Pg.select_order_by_id_desc_limit cols (Pg.SInt n) s)
          | SelectRecent cols =>
              (s, Pg.select_order_by_id_desc_limit cols
                    (nth 0 params Pg.SNull) s)
          end
      end
  end.

(** [connection.fetchrow(query, *args)]: the first record, or [None]. *)
Definition fetchrow (p : pool) (st : statement) (args : list Py.value)
    (s : Pg.server) : Pg.server * (Py.exn + option Pg.row) :=
  match fetch p st args s with
  | (s', inr rows) => (s', inr (hd_error rows))
  | (s', inl e) => (s', inl e)
  end.

End Asyncpg.

(** ** The world of the process *)

(** One line per [print] call of the source; the text is not modelled,
    only which message it is and the values formatted into it. *)
Inductive line : Type :=
| PoolCreated
| PoolConnectError (e : Py.exn)
| TableVerified
| UdpReceived (addr : string * Z) (message : Py.str)
| PoolUnavailable
| Inserted (id : Pg.sqlval)
| NotValidJson (message : Py.str)
| ProcessingError (e : Py.exn)
| UdpStarting
| UdpListening
| CallbackException (e : Py.exn).   (* the event loop's report *)

(** A coroutine handed to the event loop with [create_task]. *)
Inductive task : Type :=
| RunUdpServer
| InsertLocationData (message : Py.str).

Record world : Type := mk_world {
  db_pool : option Asyncpg.pool;     (* the module global *)
  pg : Pg.server;                    (* the database behind the pool *)
  connect : Py.exn + Asyncpg.pool;   (* what [asyncpg.create_pool] meets *)
  stdout : list line;
  tasks : list task                  (* created and not yet run *)
}.

(** Computations that read and write the world and may raise. *)
Definition M (A : Type) : Type := world -> (Py.exn + A) * world.

Definition ret {A} (a : A) : M A := fun w => (inr a, w).

Definition raise {A} (e : Py.exn) : M A := fun w => (inl e, w).

Definition bind {A B} (m : M A) (k : A -> M B) : M B :=
  fun w =>
    match m w with
    | (inr a, w') => k a w'
    | (inl e, w') => (inl e, w')
    end.

Notation "x <- m ;; k" := (bind m (fun x => k))
  (at level 61, m at next level, right associativity).
Notation "m ;;; k" := (bind m (fun _ => k))
  (at level 61, right associativity).

(** [try: body except ...: handler]; every exception modelled here is an
    [Exception], so the last clause of a handler always applies. *)
Definition try_except {A} (body : M A) (handler : Py.exn -> M A) : M A :=
  fun w =>
    match body w with
    | (inr a, w') => (inr a, w')
    | (inl e, w') => handler e w'
    end.

Definition print (l : line) : M unit :=
  fun w => (inr tt,
            mk_world (db_pool w) (pg w) (connect w) (stdout w ++ [l]) (tasks w)).

Definition get_db_pool : M (option Asyncpg.pool) :=
  fun w => (inr (db_pool w), w).

Definition set_db_pool (p : option Asyncpg.pool) : M unit :=
  fun w => (inr tt, mk_world p (pg w) (connect w) (stdout w) (tasks w)).

Definition create_task (t : task) : M unit :=
  fun w => (inr tt,
            mk_world (db_pool w) (pg w) (connect w) (stdout w) (tasks w ++ [t])).

(** [await asyncpg.create_pool(...)] with the settings of the environment. *)
Definition asyncpg_create_pool : M Asyncpg.pool :=
  fun w => (connect w, w).

(** A statement run on a connection of [p]: [async with p.acquire() as
    connection: await connection.fetch(...)].  The connection goes back
    to the pool on every exit. *)
Definition with_connection {A}
    (run : Pg.server -> Pg.server * (Py.exn + A)) : M A :=
  fun w =>
    let '(s', r) := run (pg w) in
    (r, mk_world (db_pool w) s' (connect w) (stdout w) (tasks w)).

(** ** The program *)

(** The [INSERT] of [insert_location_data]. *)
Definition insert_query : Asyncpg.statement :=
  Asyncpg.InsertReturningId
    [ ("latitude"%string, Pg.EParam 0);
      ("longitude"%string, Pg.EParam 1);
      ("timestamp_value"%string, Pg.EParam 2);
      ("accuracy"%string, Pg.ENull);
      ("altitude"%string, Pg.ENull);
      ("speed"%string, Pg.ENull);
      ("provider"%string, Pg.ENull) ].

(** The [SELECT] of [get_latest_location]. *)
Definition latest_query : Asyncpg.statement :=
  Asyncpg.SelectLatest
    (Some ["latitude"; "longitude"; "timestamp_value"; "created_at"]%string) 1.

(** The [SELECT] of [get_all_locations]. *)
Definition all_query : Asyncpg.statement := Asyncpg.SelectRecent None.

Definition create_db_pool : M (option Asyncpg.pool) :=
  try_except
    (pool <- asyncpg_create_pool ;;
     print PoolCreated ;;;
     ret (Some pool))
    (fun e =>
       print (PoolConnectError e) ;;;
       ret None).

Definition create_location_table (pool : Asyncpg.pool) : M unit :=
  with_connection
    (fun s => (Pg.create_table_if_not_exists Pg.location_data_columns s,
               inr tt)) ;;;
  print TableVerified.

(** [lifespan] up to its [yield]: what runs before the application
    serves. *)
Definition lifespan_startup : M unit :=
  pool <- create_db_pool ;;
  set_db_pool pool ;;;
  match pool with
  | Some p => create_location_table p
  | None => ret tt
  end ;;;
  create_task RunUdpServer.

(** [data.get(key)]: only a [dict] has the method here. *)
Definition py_get (data : Py.value) (key : string) : M Py.value :=
  match data with
  | Py.PDict items => ret (Py.dict_get items (Py.lit key))
  | _ => raise Py.AttributeError
  end.

Definition json_loads (message : Py.str) : M Py.value :=
  fun w => (Json.loads message, w).

Definition insert_location_data (message : Py.str) : M unit :=
  pool <- get_db_pool ;;
  match pool with
  | None => print PoolUnavailable ;;; ret tt
  | Some db_pool =>
      try_except
        (data <- json_loads message ;;
         lat <- py_get data "lat" ;;
         lon <- py_get data "lon" ;;
         time <- py_get data "time" ;;
         result <- with_connection
                     (Asyncpg.fetchrow db_pool insert_query [lat; lon; time]) ;;
         match result with
         | Some r =>
             match Pg.field r "id" with
             | Some id => print (Inserted id)
             | None => raise Py.KeyError
             end
         | None => raise Py.TypeError
         end)
        (fun e =>
           match e with
           | Py.JSONDecodeError => print (NotValidJson message)
           | _ => print (ProcessingError e)
           end)
  end.

Definition bytes_decode (data : list byte) : M Py.str :=
  fun w => (Utf8.decode data, w).

Definition datagram_received (data : list byte) (addr : string * Z) : M unit :=
  message <- bytes_decode data ;;
  print (UdpReceived addr message) ;;;
  create_task (InsertLocationData message).

(** The body of a response: one record, or a list of records. *)
Inductive body : Type :=
| Record_ (r : Pg.row)
| Records (rs : list Pg.row).

Definition get_latest_location : M body :=
  pool <- get_db_pool ;;
  match pool with
  | None => raise (Py.HTTPException 503)
  | Some db_pool =>
      result <- with_connection (Asyncpg.fetchrow db_pool latest_query []) ;;
      match result with
      | None => raise (Py.HTTPException 404)
      | Some r => ret (Record_ r)
      end
  end.

(** [limit: int = 100]: [None] is a call without the argument. *)
Definition get_all_locations (limit : option Z) : M body :=
  let limit := match limit with Some l => l | None => 100 end in
  pool <- get_db_pool ;;
  match pool with
  | None => raise (Py.HTTPException 503)
  | Some db_pool =>
      results <- with_connection
                   (Asyncpg.fetch db_pool all_query [Py.PInt limit]) ;;
      ret (Records results)
  end.

(** The status line the framework answers with: 200 for a returned body,
    the code of an [HTTPException], 500 for any other exception. *)
Definition status_code {A} (r : Py.exn + A) : Z :=
  match r with
  | inr _ => 200
  | inl (Py.HTTPException c) => c
  | inl _ => 500
  end.

(** ** The event loop

    The selector transport calls [datagram_received] for every datagram it
    reads; an exception of the callback is reported by the loop, which goes
    on reading.  A task created with [create_task] runs later; here each
    task runs to its end before the next one starts (the interleaved
    schedule is modelled below). *)

Definition datagram : Type := list byte * (string * Z).

Definition deliver (d : datagram) : M unit :=
  try_except (datagram_received (fst d) (snd d))
             (fun e => print (CallbackException e)).

(** [run_udp_server] up to the wait that keeps the endpoint open. *)
Definition run_udp_server : M unit :=
  print UdpStarting ;;;
  print UdpListening.

Definition run_task (t : task) : M unit :=
  match t with
  | InsertLocationData message => insert_location_data message
  | RunUdpServer => run_udp_server
  end.

Fixpoint run_tasks (ts : list task) : M unit :=
  match ts with
  | [] => ret tt
  | t :: rest => run_task t ;;; run_tasks rest
  end.

(** Take the created tasks off the loop and run them. *)
Definition run_pending : M unit :=
  fun w =>
    run_tasks (tasks w)
      (mk_world (db_pool w) (pg w) (connect w) (stdout w) []).

Fixpoint receive (ds : list datagram) : M unit :=
  match ds with
  | [] => ret tt
  | d :: rest => deliver d ;;; run_pending ;;; receive rest
  end.

(** ** Interleaved schedules

    [insert_location_data] suspends at its two awaits: acquiring a
    connection, and the round trip of [fetchrow].  Between them other
    coroutines, datagrams and requests run.  A coroutine is therefore cut
    in two phases; a schedule says which coroutine moves next. *)

Inductive coroutine : Type :=
| Created (message : Py.str)
| Holding (message : Py.str) (p : Asyncpg.pool) (lat lon time : Py.value)
| Done.

(** The [except] clauses of [insert_location_data]. *)
Definition insert_handler (message : Py.str) (e : Py.exn) : M unit :=
  match e with
  | Py.JSONDecodeError => print (NotValidJson message)
  | _ => print (ProcessingError e)
  end.

(** Up to [db_pool.acquire()]: the pool and the values to insert, or
    [None] when the coroutine is over already. *)
Definition insert_enter (message : Py.str)
  : M (option (Asyncpg.pool * (Py.value * Py.value * Py.value))) :=
  pool <- get_db_pool ;;
  match pool with
  | None => print PoolUnavailable ;;; ret None
  | Some db_pool =>
      try_except
        (data <- json_loads message ;;
         lat <- py_get data "lat" ;;
         lon <- py_get data "lon" ;;
         time <- py_get data "time" ;;
         ret (Some (db_pool, (lat, lon, time))))
        (fun e => insert_handler message e ;;; ret None)
  end.

(** From the acquired connection to the end. *)
Definition insert_resume (message : Py.str) (db_pool : Asyncpg.pool)
    (lat lon time : Py.value) : M unit :=
  try_except
    (result <- with_connection
                 (Asyncpg.fetchrow db_pool insert_query [lat; lon; time]) ;;
     match result with
     | Some r =>
         match Pg.field r "id" with
         | Some id => print (Inserted id)
         | None => raise Py.KeyError
         end
     | None => raise Py.TypeError
     end)
    (insert_handler message).

Record system : Type := mk_system {
  sys_world : world;
  in_use : nat;                      (* connections out of the pool *)
  coroutines : list coroutine
}.

Fixpoint set_nth {A} (i : nat) (x : A) (l : list A) : list A :=
  match i, l with
  | _, [] => []
  | O, _ :: rest => x :: rest
  | S i', y :: rest => y :: set_nth i' x rest
  end.

Definition set_clock (w : world) (t : Z) : world :=
  mk_world (db_pool w) (Pg.mk_server (Pg.location_data (pg w)) t)
           (connect w) (stdout w) (tasks w).

Definition clear_tasks (w : world) : world :=
  mk_world (db_pool w) (pg w) (connect w) (stdout w) [].

Definition coroutine_of (t : task) : list coroutine :=
  match t with
  | InsertLocationData message => [Created message]
  | RunUdpServer => []
  end.

Inductive event : Type :=
| Arrive (d : datagram)             (* the transport reads a datagram *)
| Run (i : nat)                     (* coroutine [i] moves to its next await *)
| Tick (dt : Z)                     (* time passes on the server *)
| CreateTable                       (* [create_location_table], at a start *)
| GetLatest                         (* GET /api/location/latest *)
| GetAll (limit : option Z).        (* GET /api/location/all *)

(** One event.  A coroutine that waits for a connection while all are
    out, or that is over, does not move. *)
Definition exec (ev : event) (s : system) : system :=
  match ev with
  | Arrive d =>
      let w := snd (deliver d (sys_world s)) in
      mk_system (clear_tasks w) (in_use s)
                (coroutines s ++ flat_map coroutine_of (tasks w))
  | Run i =>
      match nth_error (coroutines s) i with
      | Some (Created message) =>
          match insert_enter message (sys_world s) with
          | (inr (Some (p, (lat, lon, time))), w) =>
              if (in_use s <? Asyncpg.max_size p)%nat
              then mk_system w (S (in_use s))
                     (set_nth i (Holding message p lat lon time) (coroutines s))
              else s
          | (_, w) => mk_system w (in_use s) (set_nth i Done (coroutines s))
          end
      | Some (Holding message p lat lon time) =>
          let w := snd (insert_resume message p lat lon time (sys_world s)) in
          mk_system w (pred (in_use s)) (set_nth i Done (coroutines s))
      | _ => s
      end
  | Tick dt =>
      mk_system (set_clock (sys_world s)
                   (Pg.clock (pg (sys_world s)) + Z.abs dt))
                (in_use s) (coroutines s)
  | CreateTable =>
      match db_pool (sys_world s) with
      | Some p =>
          mk_system (snd (create_location_table p (sys_world s)))
                    (in_use s) (coroutines s)
      | None => s
      end
  | GetLatest =>
      mk_system (snd (get_latest_location (sys_world s)))
                (in_use s) (coroutines s)
  | GetAll limit =>
      mk_system (snd (get_all_locations limit (sys_world s)))
                (in_use s) (coroutines s)
  end.

Definition run_schedule (sch : list event) (s : system) : system :=
  fold_left (fun s ev => exec ev s) sch s.

Definition is_done (c : coroutine) : bool :=
  match c with Done => true | _ => false end.

Definition all_done (s : system) : bool := forallb is_done (coroutines s).

(** ** Well-formed reports and tables *)

(** A number of absolute value at most [bound]: an [int], or a finite
    [float] compared exactly. *)
Definition number_within (bound : Z) (v : Py.value) : bool :=
  match v with
  | Py.PInt z => Z.abs z <=? bound
  | Py.PFloat (S754_zero _) => true
  | Py.PFloat (S754_finite _ m e) =>
      if 0 <=? e then Z.pos m * 2 ^ e <=? bound
      else Z.pos m <=? bound * 2 ^ (- e)
  | _ => false
  end.

Definition is_int64 (v : Py.value) : bool :=
  match v with
  | Py.PInt z => Asyncpg.in_int64 z
  | _ => false
  end.

(** The report of the data model: a latitude in [-90, 90], a longitude
    in [-180, 180], an integer time that fits 64 bits. *)
Definition well_formed_report (items : list (Py.str * Py.value)) : bool :=
  number_within 90 (Py.dict_get items (Py.lit "lat")) &&
  number_within 180 (Py.dict_get items (Py.lit "lon")) &&
  is_int64 (Py.dict_get items (Py.lit "time")).

Definition well_formed_message (message : Py.str) : bool :=
  match Json.loads message with
  | inr (Py.PDict items) => well_formed_report items
  | _ => false
  end.

Definition well_formed_datagram (d : datagram) : bool :=
  match Utf8.decode (fst d) with
  | inr message => well_formed_message message
  | inl _ => false
  end.

Definition is_arrival (ev : event) : bool :=
  match ev with Arrive _ => true | _ => false end.

Definition arrival_ok (ev : event) : bool :=
  match ev with Arrive d => well_formed_datagram d | _ => true end.

Fixpoint increasing (l : list Z) : bool :=
  match l with
  | x :: ((y :: _) as rest) => (x <? y) && increasing rest
  | _ => true
  end.

Definition has_id_upto (seq : Z) (r : Pg.row) : bool :=
  match Pg.field r "id" with
  | Some (Pg.SInt z) => z <=? seq
  | _ => false
  end.

(** The relation as [create_location_table] makes it and the inserts of
    the program keep it: the columns of the DDL, identifiers handed out by
    the sequence in insertion order. *)
Definition table_ok (t : Pg.table) : Prop :=
  Pg.tbl_columns t = Pg.location_data_columns /\
  forallb (has_id_upto (Pg.tbl_seq t)) (Pg.tbl_rows t) = true /\
  increasing (map Pg.row_id (Pg.tbl_rows t)) = true.

Definition rows_of (w : world) : list Pg.row :=
  match Pg.location_data (pg w) with
  | Some t => Pg.tbl_rows t
  | None => []
  end.

(** A running service: the pool is there and so is the relation. *)
Definition running (w : world) : Prop :=
  (exists p, db_pool w = Some p /\ (0 < Asyncpg.max_size p)%nat) /\
  exists t, Pg.location_data (pg w) = Some t /\ table_ok t.

(** ** Notions used in the statements *)

(** The tuple the [INSERT] of the program stores for three coerced
    values. *)
Definition location_row (id : Z) (lat lon time : Pg.sqlval) (now : Z)
  : Pg.row :=
  [ ("id", Pg.SInt id); ("latitude", lat); ("longitude", lon);
    ("timestamp_value", time); ("accuracy", Pg.SNull);
    ("altitude", Pg.SNull); ("speed", Pg.SNull); ("provider", Pg.SNull);
    ("created_at", Pg.STimestamp now) ]%string.

Definition targets_of (st : Asyncpg.statement) : list (string * Pg.expr) :=
  match st with
  | Asyncpg.InsertReturningId targets => targets
  | _ => []
  end.

Definition bump (s : Pg.server) (t : Pg.table) : Pg.server :=
  Pg.set_table s (Pg.mk_table (Pg.tbl_columns t) (Pg.tbl_rows t)
                              (Pg.tbl_seq t + 1)).

Definition store (s : Pg.server) (t : Pg.table) (r : Pg.row) : Pg.server :=
  Pg.set_table s (Pg.mk_table (Pg.tbl_columns t) (Pg.tbl_rows t ++ [r])
                              (Pg.tbl_seq t + 1)).

Definition sql_is_null (v : Pg.sqlval) : bool :=
  match v with Pg.SNull => true | _ => false end.

(** The three column values of a report, when the driver can encode them
    and the relation accepts them. *)
Definition stored_values (p : Asyncpg.pool) (lat lon time : Py.value)
  : option (Pg.sqlval * Pg.sqlval * Pg.sqlval) :=
  match Asyncpg.numeric_encode p lat, Asyncpg.numeric_encode p lon,
        Asyncpg.int8_encode p time with
  | inr v1, inr v2, inr v3 =>
      match Pg.coerce (Pg.TDecimal 10 8) v1, Pg.coerce (Pg.TDecimal 11 8) v2
      with
      | inr la, inr lo =>
          if sql_is_null la || sql_is_null lo || sql_is_null v3 then None
          else Some (la, lo, v3)
      | _, _ => None
      end
  | _, _, _ => None
  end.

Definition error_line (l : line) : bool :=
  match l with
  | NotValidJson _ | ProcessingError _ | PoolUnavailable => true
  | _ => false
  end.

Definition latest_columns : list string :=
  ["latitude"; "longitude"; "timestamp_value"; "created_at"]%string.

(** What C5 says of a limit [L]: the rows returned are [min L total] many
    and strictly descending in [id]. *)
Definition recent_as_claimed (w : world) (L : Z) : Prop :=
  exists rs,
    fst (get_all_locations (Some L) w) = inr (Records rs) /\
    Z.of_nat (List.length rs) = Z.min L (Z.of_nat (List.length (rows_of w))) /\
    StronglySorted Z.gt (map Pg.row_id rs).

Definition report_of (items : list (Py.str * Py.value))
  : Py.value * Py.value * Py.value :=
  (Py.dict_get items (Py.lit "lat"),
   Py.dict_get items (Py.lit "lon"),
   Py.dict_get items (Py.lit "time")).

Definition stored_report (p : Asyncpg.pool)
    (items : list (Py.str * Py.value)) :=
  let '(lat, lon, time) := report_of items in stored_values p lat lon time.

Definition example_pool : Asyncpg.pool :=
  Asyncpg.mk_pool 10 (fun _ => None) (fun _ => None).

(** A process about to start: no pool yet, a reachable server without the
    relation. *)
Definition fresh_world : world :=
  mk_world None (Pg.mk_server None 0) (inr example_pool) [] [].

(** The same process with an unreachable server. *)
Definition unreachable_world : world :=
  mk_world None (Pg.mk_server None 0) (inl Py.ConnectionFailure) [] [].

Definition example_world : world := snd (lifespan_startup fresh_world).

Definition example_addr : string * Z := ("10.0.0.7"%string, 40000).

Definition has_key (items : list (Py.str * Py.value)) (key : string) : bool :=
  existsb (fun kv => Py.str_eqb (fst kv) (Py.lit key)) items.

(** What C2 says of a report: a row is stored, with a null in the column
    of every absent key. *)
Definition stored_with_nulls (w : world) (message : Py.str)
    (items : list (Py.str * Py.value)) : Prop :=
  exists r,
    rows_of (snd (insert_location_data message w)) = rows_of w ++ [r] /\
    (has_key items "lat" = false -> Pg.field r "latitude" = Some Pg.SNull) /\
    (has_key items "lon" = false -> Pg.field r "longitude" = Some Pg.SNull) /\
    (has_key items "time" = false ->
     Pg.field r "timestamp_value" = Some Pg.SNull).

(** The exact decimal value of a JSON number. *)
Definition exact_decimal (v : Py.value) : option (Z * Z) :=
  match v with
  | Py.PInt z => Some (z, 0)
  | Py.PFloat (S754_zero _) => Some (0, 0)
  | Py.PFloat (S754_finite s m e) =>
      let m := if s then Z.neg m else Z.pos m in
      Some (if 0 <=? e then (m * 2 ^ e, 0) else (m * 5 ^ (- e), - e))
  | _ => None
  end.

(** [u / 10^sc] and a stored value are the same number. *)
Definition same_number (n : Z * Z) (v : Pg.sqlval) : Prop :=
  match v with
  | Pg.SNumeric (Pg.Num u' sc') => fst n * 10 ^ sc' = u' * 10 ^ snd n
  | Pg.SInt z => fst n = z * 10 ^ snd n
  | _ => False
  end.

(** What C3 says of a report that was inserted: the latest query returns
    its three values exactly, and nulls for the four reserved columns. *)
Definition latest_as_claimed (w : world) (message : Py.str)
    (items : list (Py.str * Py.value)) : Prop :=
  exists r nlat nlon z la lo,
    fst (get_latest_location (snd (insert_location_data message w)))
      = inr (Record_ r) /\
    exact_decimal (Py.dict_get items (Py.lit "lat")) = Some nlat /\
    exact_decimal (Py.dict_get items (Py.lit "lon")) = Some nlon /\
    Py.dict_get items (Py.lit "time") = Py.PInt z /\
    Pg.field r "latitude" = Some la /\ same_number nlat la /\
    Pg.field r "longitude" = Some lo /\ same_number nlon lo /\
    Pg.field r "timestamp_value" = Some (Pg.SInt z) /\
    Pg.field r "accuracy" = Some Pg.SNull /\
    Pg.field r "altitude" = Some Pg.SNull /\
    Pg.field r "speed" = Some Pg.SNull /\
    Pg.field r "provider" = Some Pg.SNull.

Definition count_done (cs : list coroutine) : nat :=
  List.length (filter is_done cs).

Definition is_holding (c : coroutine) : bool :=
  match c with Holding _ _ _ _ _ => true | _ => false end.

Definition count_holding (cs : list coroutine) : nat :=
  List.length (filter is_holding cs).

Definition count_arrivals (sch : list event) : nat :=
  List.length (filter is_arrival sch).

(** A coroutine of a well-formed report, wherever it stands. *)
Definition coroutine_ok (p : Asyncpg.pool) (c : coroutine) : Prop :=
  match c with
  | Created m => well_formed_message m = true
  | Holding m p' lat lon time =>
      p' = p /\ exists vals, stored_values p lat lon time = Some vals
  | Done => True
  end.

(** The invariant of a schedule of well-formed datagrams over the rows
    [rows0] it started from: one new row per finished coroutine. *)
Definition schedule_inv (p : Asyncpg.pool) (rows0 : list Pg.row)
    (s : system) : Prop :=
  db_pool (sys_world s) = Some p /\
  tasks (sys_world s) = [] /\
  (exists t new,
     Pg.location_data (pg (sys_world s)) = Some t /\ table_ok t /\
     Pg.tbl_rows t = rows0 ++ new /\
     List.length new = count_done (coroutines s)) /\
  Forall (coroutine_ok p) (coroutines s) /\
  in_use s = count_holding (coroutines s).

Definition is_created (c : coroutine) : bool :=
  match c with Created _ => true | _ => false end.

(** JSON text written with apostrophes for its double quotes. *)
Fixpoint quoted (s : string) : string :=
  match s with
  | EmptyString => EmptyString
  | String c rest =>
      String (if Ascii.eqb c "'" then ascii_of_nat 34 else c) (quoted rest)
  end.

Definition json_datagram (s : string) : datagram :=
  (Utf8.encode_ascii (quoted s), example_addr).

Definition json_message (s : string) : Py.str := Py.lit (quoted s).

(** The service after one report. *)
Definition example_world_1 : world :=
  snd (receive [json_datagram "{'lat': 1, 'lon': 2, 'time': 3}"]
               example_world).

(** An interleaving of two reports around a tick and a query. *)
Definition example_schedule : list event :=
  [ Arrive (json_datagram "{'lat': 1, 'lon': 2, 'time': 3}");
    Arrive (json_datagram "{'lat': -45.5, 'lon': 170.25, 'time': 4}");
    Run 0; Run 1; Tick 5; Run 1; GetLatest; Run 0 ].

(** ** Notions used in the further properties *)

Definition column_is_null (r : Pg.row) (name : string) : bool :=
  match Pg.field r name with
  | Some Pg.SNull => true
  | _ => false
  end.

Definition column_has_value (r : Pg.row) (name : string) : bool :=
  match Pg.field r name with
  | Some Pg.SNull | None => false
  | Some _ => true
  end.

(** A row as the [INSERT] of the program writes it: values in the three
    ingested columns, nulls in the four reserved ones, an identifier and
    a creation time. *)
Definition report_row (r : Pg.row) : bool :=
  column_has_value r "id" &&
  column_has_value r "latitude" &&
  column_has_value r "longitude" &&
  column_has_value r "timestamp_value" &&
  column_is_null r "accuracy" &&
  column_is_null r "altitude" &&
  column_is_null r "speed" &&
  column_is_null r "provider" &&
  column_has_value r "created_at".

(** A number of absolute value at least [bound], compared exactly. *)
Definition number_at_least (bound : Z) (v : Py.value) : bool :=
  match v with
  | Py.PInt z => bound <=? Z.abs z
  | Py.PFloat (S754_finite _ m e) =>
      if 0 <=? e then bound <=? Z.pos m * 2 ^ e
      else bound * 2 ^ (- e) <=? Z.pos m
  | _ => false
  end.

Definition beyond_int64 (v : Py.value) : bool :=
  match v with
  | Py.PInt z => negb (Asyncpg.in_int64 z)
  | _ => false
  end.

(** The three ingested columns of a stored row. *)
Definition ingested (r : Pg.row)
  : option Pg.sqlval * option Pg.sqlval * option Pg.sqlval :=
  (Pg.field r "latitude", Pg.field r "longitude",
   Pg.field r "timestamp_value").

(** What the relation is to hold for a well-formed datagram. *)
Definition expected (p : Asyncpg.pool) (d : datagram)
  : option Pg.sqlval * option Pg.sqlval * option Pg.sqlval :=
  match Utf8.decode (fst d) with
  | inr message =>
      match Json.loads message with
      | inr (Py.PDict items) =>
          match stored_report p items with
          | Some (la, lo, ts) => (Some la, Some lo, Some ts)
          | None => (None, None, None)
          end
      | _ => (None, None, None)
      end
  | inl _ => (None, None, None)
  end.

(** Two worlds that differ in what was printed only. *)
Definition same_but_stdout (w1 w2 : world) : Prop :=
  db_pool w1 = db_pool w2 /\ pg w1 = pg w2 /\ connect w1 = connect w2 /\
  tasks w1 = tasks w2.

(** A relation whose rows are not in the order of their identifiers, as
    an earlier owner of the table may have left it. *)
Definition shuffled_table : Pg.table :=
  Pg.mk_table Pg.location_data_columns
    [ location_row 5 (Pg.SNumeric (Pg.Num 100000000 8))
        (Pg.SNumeric (Pg.Num 200000000 8)) (Pg.SInt 30) 7;
      location_row 2 (Pg.SNumeric (Pg.Num 300000000 8))
        (Pg.SNumeric (Pg.Num 400000000 8)) (Pg.SInt 10) 3;
      location_row 9 (Pg.SNumeric (Pg.Num 500000000 8))
        (Pg.SNumeric (Pg.Num 600000000 8)) (Pg.SInt 20) 5 ]
    9.

Definition shuffled_world : world :=
  mk_world (Some example_pool) (Pg.mk_server (Some shuffled_table) 10)
           (inr example_pool) [] [].

(** * Properties *)

(** ** Equality of strings *)

Lemma str_eqb_eq (a b : Py.str) : Py.str_eqb a b = true <-> a = b.
Proof.
  revert b; induction a as [|x a IH]; intros [|y b]; simpl;
    try (split; [discriminate | congruence]).
  - split; reflexivity.
  - rewrite andb_true_iff, Z.eqb_eq, IH. split.
    + intros [-> ->]; reflexivity.
    + intros E; inversion E; auto.
Qed.

Lemma str_eqb_refl (a : Py.str) : Py.str_eqb a a = true.
Proof. apply str_eqb_eq; reflexivity. Qed.

(** ** The JSON decoder always has fuel enough *)

Lemma skip_ws_length s :
  (List.length (Json.skip_ws s) <= List.length s)%nat.
Proof.
  induction s as [|c s IH]; simpl; [lia|].
  destruct (Json.is_ws c); simpl; lia.
Qed.

Lemma starts_length c s r :
  Json.starts c s = Some r -> List.length s = S (List.length r).
Proof.
  destruct s as [|x s]; simpl; [discriminate|].
  destruct (x =? c); intros E; inversion E; reflexivity.
Qed.

Lemma strip_prefix_length p s r :
  Json.strip_prefix p s = Some r ->
  List.length s = (List.length p + List.length r)%nat.
Proof.
  revert s; induction p as [|x p IH]; intros s; simpl.
  - intros E; inversion E; reflexivity.
  - destruct s as [|y s]; [discriminate|].
    destruct (x =? y); [|discriminate].
    intros E. simpl. rewrite (IH _ E). reflexivity.
Qed.

Lemma scanstring_unfold s acc :
  Json.scanstring s acc =
  match s with
  | [] => None
  | c :: rest =>
      if c =? 34 then Some (rev acc, rest)
      else if c =? 92 then
        match rest with
        | [] => None
        | e :: rest1 =>
            if e =? 117 then
              match rest1 with
              | a :: b :: c' :: d :: rest2 =>
                  match Json.hex4 a b c' d with
                  | None => None
                  | Some u =>
                      match rest2 with
                      | b2 :: u2 :: a2 :: b2' :: c2 :: d2 :: rest3 =>
                          match Json.hex4 a2 b2' c2 d2 with
                          | Some lo =>
                              if Json.is_high_surrogate u && (b2 =? 92)
                                 && (u2 =? 117) && Json.is_low_surrogate lo
                              then Json.scanstring rest3
                                     (Json.join_surrogates u lo :: acc)
                              else Json.scanstring rest2 (u :: acc)
                          | None => Json.scanstring rest2 (u :: acc)
                          end
                      | _ => Json.scanstring rest2 (u :: acc)
                      end
                  end
              | _ => None
              end
            else
              match Json.simple_escape e with
              | Some x => Json.scanstring rest1 (x :: acc)
              | None => None
              end
        end
      else if c <=? 31 then None
      else Json.scanstring rest (c :: acc)
  end.
Proof. destruct s; reflexivity. Qed.

(** Case analysis on the scrutinees of a hypothesis, without unfolding
    the calls in its branches. *)
Ltac cases_in H :=
  repeat (cbv beta iota in H;
          match type of H with
          | context [match ?x with _ => _ end] =>
              lazymatch x with
              | context [match _ with _ => _ end] => fail
              | _ => destruct x eqn:?
              end
          end);
  cbv beta iota in H.

Lemma scanstring_length n :
  forall s acc str r,
    (List.length s <= n)%nat ->
    Json.scanstring s acc = Some (str, r) ->
    (List.length r < List.length s)%nat.
Proof.
  induction n as [|n IH]; intros s acc str r Hn H;
    rewrite scanstring_unfold in H.
  - destruct s; [discriminate|]. simpl in Hn. lia.
  - cases_in H; try discriminate;
      try (inversion H; subst; cbn [List.length]; lia);
      (apply IH in H; cbn [List.length] in *; lia).
Qed.

Lemma span_digits_length s ds r :
  Json.span_digits s = (ds, r) -> (List.length r <= List.length s)%nat.
Proof.
  revert ds r; induction s as [|c s IH]; intros ds r; simpl.
  - intros E; inversion E; simpl; lia.
  - destruct (Json.is_digit c).
    + destruct (Json.span_digits s) as [ds' r'].
      intros E; inversion E; subst. specialize (IH _ _ eq_refl). lia.
    + intros E; inversion E; subst. simpl. lia.
Qed.

Lemma match_integer_length s ds r :
  Json.match_integer s = Some (ds, r) ->
  (List.length r < List.length s)%nat.
Proof.
  unfold Json.match_integer. destruct s as [|c s]; [discriminate|].
  destruct (c =? 48); [intros E; inversion E; subst; simpl; lia|].
  destruct (Json.is_digit c) eqn:Hd; [|discriminate].
  cbn [Json.span_digits]. rewrite Hd.
  destruct (Json.span_digits s) as [ds' r'] eqn:Hs.
  intros E; inversion E; subst.
  apply span_digits_length in Hs. simpl. lia.
Qed.

Lemma match_frac_length s ds r :
  Json.match_frac s = (ds, r) -> (List.length r <= List.length s)%nat.
Proof.
  unfold Json.match_frac.
  destruct (Json.starts 46 s) as [rest|] eqn:Hst.
  - apply starts_length in Hst.
    destruct (Json.span_digits rest) as [ds' r'] eqn:Hs.
    apply span_digits_length in Hs.
    destruct ds'; intros E; inversion E; subst; lia.
  - intros E; inversion E; subst; lia.
Qed.

Lemma match_sign_length s b r :
  Json.match_sign s = (b, r) -> (List.length r <= List.length s)%nat.
Proof.
  unfold Json.match_sign.
  destruct (Json.starts 45 s) eqn:H1;
    [apply starts_length in H1; intros E; inversion E; subst; lia|].
  destruct (Json.starts 43 s) eqn:H2;
    [apply starts_length in H2; intros E; inversion E; subst; lia|].
  intros E; inversion E; subst; lia.
Qed.

Lemma match_exp_length s e r :
  Json.match_exp s = Some (e, r) -> (List.length r <= List.length s)%nat.
Proof.
  unfold Json.match_exp. destruct s as [|c s]; [discriminate|].
  destruct ((c =? 101) || (c =? 69)); [|discriminate].
  destruct (Json.match_sign s) as [neg rest1] eqn:Hsg.
  apply match_sign_length in Hsg.
  destruct (Json.span_digits rest1) as [ds r'] eqn:Hs.
  apply span_digits_length in Hs.
  destruct ds; [discriminate|]. intros E; inversion E; subst. simpl. lia.
Qed.

Lemma match_number_length s v r :
  Json.match_number s = Some (v, r) ->
  (List.length r < List.length s)%nat.
Proof.
  unfold Json.match_number.
  assert (H1 : forall b s1,
             match Json.starts 45 s with
             | Some r0 => (true, r0)
             | None => (false, s)
             end = (b, s1) -> (List.length s1 <= List.length s)%nat).
  { intros b s1. destruct (Json.starts 45 s) eqn:Hst; intros E; inversion E;
      subst; [apply starts_length in Hst|]; lia. }
  destruct (match Json.starts 45 s with
            | Some r0 => (true, r0)
            | None => (false, s)
            end) as [negative s1] eqn:Hneg.
  specialize (H1 _ _ eq_refl).
  destruct (Json.match_integer s1) as [[int_ds s2]|] eqn:Hint; [|discriminate].
  apply match_integer_length in Hint.
  destruct (Json.match_frac s2) as [frac_ds s3] eqn:Hfrac.
  apply match_frac_length in Hfrac.
  destruct (Json.match_exp s3) as [[e s4]|] eqn:Hexp.
  - apply match_exp_length in Hexp.
    destruct frac_ds; intros E; inversion E; subst; lia.
  - destruct frac_ds; intros E; inversion E; subst; lia.
Qed.

Lemma match_constant_length s v r :
  Json.match_constant s = Some (v, r) ->
  (List.length r < List.length s)%nat.
Proof.
  unfold Json.match_constant.
  destruct (Json.strip_prefix (Py.lit "NaN") s) eqn:H1;
    [apply strip_prefix_length in H1; intros E; inversion E; subst;
     simpl in H1; lia|].
  destruct (Json.strip_prefix (Py.lit "Infinity") s) eqn:H2;
    [apply strip_prefix_length in H2; intros E; inversion E; subst;
     simpl in H2; lia|].
  destruct (Json.strip_prefix (Py.lit "-Infinity") s) eqn:H3;
    [apply strip_prefix_length in H3; intros E; inversion E; subst;
     simpl in H3; lia|].
  discriminate.
Qed.

Lemma scan_literal_length s v r :
  Json.scan_literal s = inr (v, r) -> (List.length r < List.length s)%nat.
Proof.
  unfold Json.scan_literal.
  destruct (Json.strip_prefix (Py.lit "null") s) eqn:H1;
    [apply strip_prefix_length in H1; intros E; inversion E; subst;
     simpl in H1; lia|].
  destruct (Json.strip_prefix (Py.lit "true") s) eqn:H2;
    [apply strip_prefix_length in H2; intros E; inversion E; subst;
     simpl in H2; lia|].
  destruct (Json.strip_prefix (Py.lit "false") s) eqn:H3;
    [apply strip_prefix_length in H3; intros E; inversion E; subst;
     simpl in H3; lia|].
  destruct (Json.match_number s) as [[v' r']|] eqn:H4;
    [apply match_number_length in H4; intros E; inversion E; subst; lia|].
  destruct (Json.match_constant s) as [[v' r']|] eqn:H5;
    [apply match_constant_length in H5; intros E; inversion E; subst; lia|].
  discriminate.
Qed.

Lemma scan_literal_no_recursion s :
  Json.scan_literal s <> inl Py.RecursionError.
Proof.
  unfold Json.scan_literal.
  repeat match goal with
         | |- context [match ?x with _ => _ end] => destruct x as [[? ?]|]
         | |- context [match ?x with _ => _ end] => destruct x
         end; discriminate.
Qed.

(** The three functions, unfolded once. *)
Lemma scan_once_unfold fuel s :
  Json.scan_once (S fuel) s =
  match s with
  | [] => inl Py.JSONDecodeError
  | c :: rest =>
      if c =? 34 then
        match Json.scanstring rest [] with
        | Some (str, r) => inr (Py.PStr str, r)
        | None => inl Py.JSONDecodeError
        end
      else if c =? 123 then
        match Json.starts 125 (Json.skip_ws rest) with
        | Some r => inr (Py.PDict [], r)
        | None =>
            match Json.parse_members fuel (Json.skip_ws rest) [] with
            | inr (items, r') => inr (Py.PDict items, r')
            | inl e => inl e
            end
        end
      else if c =? 91 then
        match Json.starts 93 (Json.skip_ws rest) with
        | Some r => inr (Py.PList [], r)
        | None =>
            match Json.parse_elements fuel (Json.skip_ws rest) [] with
            | inr (l, r') => inr (Py.PList l, r')
            | inl e => inl e
            end
        end
      else Json.scan_literal s
  end.
Proof. reflexivity. Qed.

Lemma parse_elements_unfold fuel s acc :
  Json.parse_elements (S fuel) s acc =
  match Json.scan_once fuel s with
  | inl e => inl e
  | inr (v, r) =>
      match Json.skip_ws r with
      | [] => inl Py.JSONDecodeError
      | c :: r' =>
          if c =? 93 then inr (rev (v :: acc), r')
          else if c =? 44
          then Json.parse_elements fuel (Json.skip_ws r') (v :: acc)
          else inl Py.JSONDecodeError
      end
  end.
Proof. reflexivity. Qed.

Lemma parse_members_unfold fuel s acc :
  Json.parse_members (S fuel) s acc =
  match Json.starts 34 s with
  | None => inl Py.JSONDecodeError
  | Some rest =>
      match Json.scanstring rest [] with
      | None => inl Py.JSONDecodeError
      | Some (key, r) =>
          match Json.starts 58 (Json.skip_ws r) with
          | None => inl Py.JSONDecodeError
          | Some r1 =>
              match Json.scan_once fuel (Json.skip_ws r1) with
              | inl e => inl e
              | inr (v, r2) =>
                  match Json.skip_ws r2 with
                  | [] => inl Py.JSONDecodeError
                  | c :: r3 =>
                      if c =? 125 then inr (Py.dict_set acc key v, r3)
                      else if c =? 44
                      then Json.parse_members fuel (Json.skip_ws r3)
                             (Py.dict_set acc key v)
                      else inl Py.JSONDecodeError
                  end
              end
          end
      end
  end.
Proof. reflexivity. Qed.

(** Every value read takes at least one character. *)
Lemma scan_consumes fuel :
  (forall s v r, Json.scan_once fuel s = inr (v, r) ->
                 (List.length r < List.length s)%nat) /\
  (forall s acc l r, Json.parse_elements fuel s acc = inr (l, r) ->
                     (List.length r < List.length s)%nat) /\
  (forall s acc l r, Json.parse_members fuel s acc = inr (l, r) ->
                     (List.length r < List.length s)%nat).
Proof.
  induction fuel as [|fuel (IHs & IHe & IHm)];
    [repeat split; intros; discriminate|].
  repeat split.
  - intros s v r H. rewrite scan_once_unfold in H.
    destruct s as [|c rest]; [discriminate|].
    destruct (c =? 34).
    { destruct (Json.scanstring rest []) as [[str r0]|] eqn:Hs; [|discriminate].
      inversion H; subst.
      apply (scanstring_length _ _ _ _ _ (le_n _)) in Hs. simpl. lia. }
    pose proof (skip_ws_length rest) as Hws.
    destruct (c =? 123).
    { destruct (Json.starts 125 (Json.skip_ws rest)) eqn:Hst.
      - apply starts_length in Hst. inversion H; subst. simpl. lia.
      - destruct (Json.parse_members fuel (Json.skip_ws rest) [])
          as [e|[items r']] eqn:Hm; [discriminate|].
        apply IHm in Hm. inversion H; subst. simpl. lia. }
    destruct (c =? 91).
    { destruct (Json.starts 93 (Json.skip_ws rest)) eqn:Hst.
      - apply starts_length in Hst. inversion H; subst. simpl. lia.
      - destruct (Json.parse_elements fuel (Json.skip_ws rest) [])
          as [e|[l r']] eqn:He; [discriminate|].
        apply IHe in He. inversion H; subst. simpl. lia. }
    apply scan_literal_length in H. exact H.
  - intros s acc l r H. rewrite parse_elements_unfold in H.
    destruct (Json.scan_once fuel s) as [e|[v r0]] eqn:Hv; [discriminate|].
    apply IHs in Hv. pose proof (skip_ws_length r0) as Hws.
    destruct (Json.skip_ws r0) as [|c r'] eqn:Hr0; [discriminate|].
    simpl in Hws.
    destruct (c =? 93); [inversion H; subst; lia|].
    destruct (c =? 44); [|discriminate].
    apply IHe in H. pose proof (skip_ws_length r'). lia.
  - intros s acc l r H. rewrite parse_members_unfold in H.
    destruct (Json.starts 34 s) as [rest|] eqn:Hst; [|discriminate].
    apply starts_length in Hst.
    destruct (Json.scanstring rest []) as [[key r0]|] eqn:Hs; [|discriminate].
    apply (scanstring_length _ _ _ _ _ (le_n _)) in Hs.
    pose proof (skip_ws_length r0) as Hws0.
    destruct (Json.starts 58 (Json.skip_ws r0)) as [r1|] eqn:Hc; [|discriminate].
    apply starts_length in Hc. pose proof (skip_ws_length r1) as Hws1.
    destruct (Json.scan_once fuel (Json.skip_ws r1)) as [e|[v r2]] eqn:Hv;
      [discriminate|].
    apply IHs in Hv. pose proof (skip_ws_length r2) as Hws2.
    destruct (Json.skip_ws r2) as [|c r3] eqn:Hr2; [discriminate|].
    simpl in Hws2.
    destruct (c =? 125); [inversion H; subst; lia|].
    destruct (c =? 44); [|discriminate].
    apply IHm in H. pose proof (skip_ws_length r3). lia.
Qed.

(** With twice the length of the input as fuel, no call runs out. *)
Lemma scan_has_fuel fuel :
  (forall s, (2 * List.length s < fuel)%nat ->
             Json.scan_once fuel s <> inl Py.RecursionError) /\
  (forall s acc, (2 * List.length s + 1 < fuel)%nat ->
                 Json.parse_elements fuel s acc <> inl Py.RecursionError) /\
  (forall s acc, (2 * List.length s < fuel)%nat ->
                 Json.parse_members fuel s acc <> inl Py.RecursionError).
Proof.
  induction fuel as [|fuel (IHs & IHe & IHm)];
    [repeat split; intros; lia|].
  destruct (scan_consumes fuel) as (Cs & Ce & Cm).
  repeat split.
  - intros s Hf. rewrite scan_once_unfold.
    destruct s as [|c rest]; [discriminate|]. simpl in Hf.
    destruct (c =? 34).
    { destruct (Json.scanstring rest []) as [[str r0]|]; discriminate. }
    pose proof (skip_ws_length rest) as Hws.
    destruct (c =? 123).
    { destruct (Json.starts 125 (Json.skip_ws rest)); [discriminate|].
      specialize (IHm (Json.skip_ws rest) [] ltac:(lia)).
      destruct (Json.parse_members fuel (Json.skip_ws rest) [])
        as [e|[items r']]; [|discriminate].
      intros E; inversion E; subst; congruence. }
    destruct (c =? 91).
    { destruct (Json.starts 93 (Json.skip_ws rest)); [discriminate|].
      specialize (IHe (Json.skip_ws rest) [] ltac:(lia)).
      destruct (Json.parse_elements fuel (Json.skip_ws rest) [])
        as [e|[l r']]; [|discriminate].
      intros E; inversion E; subst; congruence. }
    apply scan_literal_no_recursion.
  - intros s acc Hf. rewrite parse_elements_unfold.
    specialize (IHs s ltac:(lia)).
    destruct (Json.scan_once fuel s) as [e|[v r0]] eqn:Hv;
      [intros E; inversion E; subst; congruence|].
    apply Cs in Hv. pose proof (skip_ws_length r0) as Hws.
    destruct (Json.skip_ws r0) as [|c r'] eqn:Hr0; [discriminate|].
    simpl in Hws.
    destruct (c =? 93); [discriminate|].
    destruct (c =? 44); [|discriminate].
    pose proof (skip_ws_length r'). apply IHe. lia.
  - intros s acc Hf. rewrite parse_members_unfold.
    destruct (Json.starts 34 s) as [rest|] eqn:Hst; [|discriminate].
    apply starts_length in Hst.
    destruct (Json.scanstring rest []) as [[key r0]|] eqn:Hs; [|discriminate].
    apply (scanstring_length _ _ _ _ _ (le_n _)) in Hs.
    pose proof (skip_ws_length r0) as Hws0.
    destruct (Json.starts 58 (Json.skip_ws r0)) as [r1|] eqn:Hc; [|discriminate].
    apply starts_length in Hc. pose proof (skip_ws_length r1) as Hws1.
    specialize (IHs (Json.skip_ws r1) ltac:(lia)).
    destruct (Json.scan_once fuel (Json.skip_ws r1)) as [e|[v r2]] eqn:Hv;
      [intros E; inversion E; subst; congruence|].
    apply Cs in Hv. pose proof (skip_ws_length r2) as Hws2.
    destruct (Json.skip_ws r2) as [|c r3] eqn:Hr2; [discriminate|].
    simpl in Hws2.
    destruct (c =? 125); [discriminate|].
    destruct (c =? 44); [|discriminate].
    pose proof (skip_ws_length r3). apply IHm. lia.
Qed.

(** [json.loads] never fails for want of fuel: its errors are those of
    the input. *)
Lemma loads_has_fuel s : Json.loads s <> inl Py.RecursionError.
Proof.
  unfold Json.loads.
  destruct (Json.starts 65279 s); [discriminate|].
  pose proof (skip_ws_length s) as Hws.
  destruct (scan_has_fuel (S (2 * List.length s))) as (Hs & _ & _).
  specialize (Hs (Json.skip_ws s) ltac:(lia)).
  destruct (Json.scan_once (S (2 * List.length s)) (Json.skip_ws s))
    as [e|[v r]]; [intros E; inversion E; subst; congruence|].
  destruct (Json.skip_ws r); discriminate.
Qed.

(** ** Tactics for running the monad *)

Ltac unfold_m :=
  repeat progress unfold create_location_table, create_db_pool, lifespan_startup,
    insert_location_data, insert_enter, insert_resume, insert_handler,
    datagram_received, deliver, get_latest_location, get_all_locations,
    py_get, json_loads, bytes_decode, asyncpg_create_pool, with_connection,
    create_task, set_db_pool, get_db_pool, print, try_except, bind, raise,
    ret in *.

(** Case analysis on a scrutinee that holds no other [match]. *)
Ltac case_match :=
  match goal with
  | |- context [match ?x with _ => _ end] =>
      lazymatch x with
      | context [match _ with _ => _ end] => fail
      | _ => destruct x eqn:?
      end
  | H : context [match ?x with _ => _ end] |- _ =>
      lazymatch x with
      | context [match _ with _ => _ end] => fail
      | _ => destruct x eqn:?
      end
  end.

Ltac run_m :=
  unfold_m; simpl in *;
  repeat (case_match; simpl in *; try congruence);
  try congruence.

(** ** The global [db_pool] is written by [lifespan] only *)

Lemma insert_enter_db_pool message w :
  db_pool (snd (insert_enter message w)) = db_pool w.
Proof. run_m. Qed.

Lemma insert_resume_db_pool message p lat lon time w :
  db_pool (snd (insert_resume message p lat lon time w)) = db_pool w.
Proof. run_m. Qed.

Lemma deliver_db_pool d w : db_pool (snd (deliver d w)) = db_pool w.
Proof. run_m. Qed.

Lemma get_latest_location_db_pool w :
  db_pool (snd (get_latest_location w)) = db_pool w.
Proof. run_m. Qed.

Lemma get_all_locations_db_pool limit w :
  db_pool (snd (get_all_locations limit w)) = db_pool w.
Proof. run_m. Qed.

Lemma create_location_table_db_pool p w :
  db_pool (snd (create_location_table p w)) = db_pool w.
Proof. run_m. Qed.

Lemma exec_db_pool ev s :
  db_pool (sys_world (exec ev s)) = db_pool (sys_world s).
Proof.
  destruct ev as [d|i|dt| | |limit]; simpl.
  - apply deliver_db_pool.
  - destruct (nth_error (coroutines s) i) as [c|]; [|reflexivity].
    destruct c as [m|m p lat lon time|]; simpl;
      [ | apply insert_resume_db_pool | reflexivity ].
    pose proof (insert_enter_db_pool m (sys_world s)) as E.
    destruct (insert_enter m (sys_world s)) as [r w]. simpl in E.
    destruct r as [e|[[p [[lat lon] time]]|]]; simpl; auto.
    destruct (in_use s <? Asyncpg.max_size p)%nat; simpl; auto.
  - reflexivity.
  - destruct (db_pool (sys_world s)) eqn:E; simpl; auto.
  - apply get_latest_location_db_pool.
  - apply get_all_locations_db_pool.
Qed.

Lemma run_schedule_db_pool sch s :
  db_pool (sys_world (run_schedule sch s)) = db_pool (sys_world s).
Proof.
  revert s; induction sch as [|ev sch IH]; intros s; simpl.
  - reflexivity.
  - unfold run_schedule in IH. rewrite IH. apply exec_db_pool.
Qed.

(** ** Start-up *)

(** C8: schema initialisation creates the relation [location_data] with
    the columns of the DDL when it is absent, leaves the server as it is
    when the relation exists, and running it a second time changes nothing:
    it is idempotent and always returns. *)
Theorem create_location_table_idempotent (p : Asyncpg.pool) (w : world) :
  let w1 := snd (create_location_table p w) in
  fst (create_location_table p w) = inr tt /\
  pg w1 = match Pg.location_data (pg w) with
          | Some _ => pg w
          | None => Pg.mk_server
                      (Some (Pg.mk_table Pg.location_data_columns [] 0))
                      (Pg.clock (pg w))
          end /\
  pg (snd (create_location_table p w1)) = pg w1.
Proof.
  unfold_m. unfold Pg.create_table_if_not_exists, Pg.set_table. simpl.
  destruct (Pg.location_data (pg w)) eqn:E; simpl; rewrite ?E; auto.
Qed.

(** C7: when the construction of the pool fails at start-up, [lifespan]
    still reaches its [yield] with [db_pool] left at [None], and from then
    on, whatever datagrams, coroutine steps and requests happen, both
    query endpoints answer 503. *)
Theorem degraded_start_answers_503 (w : world) (e : Py.exn)
    (sch : list event) (limit : option Z) :
  connect w = inl e ->
  let w1 := snd (lifespan_startup w) in
  let w2 := sys_world (run_schedule sch (mk_system w1 0 [])) in
  fst (lifespan_startup w) = inr tt /\
  db_pool w1 = None /\
  pg w1 = pg w /\
  fst (get_latest_location w2) = inl (Py.HTTPException 503) /\
  fst (get_all_locations limit w2) = inl (Py.HTTPException 503) /\
  status_code (fst (get_latest_location w2)) = 503 /\
  status_code (fst (get_all_locations limit w2)) = 503.
Proof.
  intros H w1 w2.
  assert (S1 : fst (lifespan_startup w) = inr tt /\ db_pool w1 = None
               /\ pg w1 = pg w).
  { subst w1. unfold_m. rewrite H. simpl. auto. }
  destruct S1 as (S1 & S2 & S3).
  assert (P2 : db_pool w2 = None).
  { subst w2. rewrite run_schedule_db_pool. simpl. exact S2. }
  assert (L : fst (get_latest_location w2) = inl (Py.HTTPException 503)).
  { unfold_m. rewrite P2. reflexivity. }
  assert (A : fst (get_all_locations limit w2) = inl (Py.HTTPException 503)).
  { unfold_m. rewrite P2. reflexivity. }
  rewrite L, A. simpl. auto 10.
Qed.

(** ** The [INSERT] of the program, evaluated on the relation of the DDL *)

Lemma no_unique_violation rows seq :
  forallb (has_id_upto seq) rows = true ->
  existsb (fun r0 => Pg.sqlval_eqb_int (Pg.field r0 "id")
                       (Some (Pg.SInt (seq + 1)))) rows = false.
Proof.
  induction rows as [|r rows IH]; simpl; intros H; [reflexivity|].
  apply andb_true_iff in H. destruct H as [H1 H2].
  rewrite (IH H2), orb_false_r.
  unfold has_id_upto in H1.
  destruct (Pg.field r "id") as [[ |z| | | ]|]; simpl; try discriminate.
  apply Z.leb_le in H1. apply Z.eqb_neq. lia.
Qed.

Lemma insert_on_location_data s t v1 v2 v3 :
  Pg.location_data s = Some t ->
  table_ok t ->
  Pg.insert_returning_id (targets_of insert_query) [v1; v2; v3] s =
  match Pg.coerce (Pg.TDecimal 10 8) v1 with
  | inl e => (bump s t, inl e)
  | inr lat =>
  match Pg.coerce (Pg.TDecimal 11 8) v2 with
  | inl e => (bump s t, inl e)
  | inr lon =>
  match Pg.coerce Pg.TBigint v3 with
  | inl e => (bump s t, inl e)
  | inr time =>
      if sql_is_null lat
      then (bump s t, inl (Py.NotNullViolationError "latitude"))
      else if sql_is_null lon
      then (bump s t, inl (Py.NotNullViolationError "longitude"))
      else if sql_is_null time
      then (bump s t, inl (Py.NotNullViolationError "timestamp_value"))
      else (store s t (location_row (Pg.tbl_seq t + 1) lat lon time
                                    (Pg.clock s)),
            inr [("id"%string, Pg.SInt (Pg.tbl_seq t + 1))])
  end end end.
Proof.
  intros Ht (Hc & Hid & _).
  unfold Pg.insert_returning_id, bump, store. rewrite Ht, Hc.
  unfold Pg.location_data_columns, targets_of, insert_query.
  cbn [Pg.project Pg.assigned Pg.col_name Pg.col_type Pg.col_default
       String.eqb Ascii.eqb Bool.eqb Pg.eval_expr nth].
  destruct (Pg.coerce (Pg.TDecimal 10 8) v1) as [e|lat]; [reflexivity|].
  destruct (Pg.coerce (Pg.TDecimal 11 8) v2) as [e|lon]; [reflexivity|].
  destruct (Pg.coerce Pg.TBigint v3) as [e|time]; [reflexivity|].
  cbn [Pg.coerce Pg.null_violation Pg.field Pg.col_name Pg.col_not_null
       Pg.col_primary_key String.eqb Ascii.eqb Bool.eqb Pg.is_null orb andb].
  destruct lat; destruct lon; destruct time;
    cbn [sql_is_null Pg.is_null andb orb]; try reflexivity;
    unfold Pg.unique_violation;
    cbn [existsb Pg.col_primary_key Pg.col_name andb orb Pg.field
         String.eqb Ascii.eqb Bool.eqb];
    rewrite (no_unique_violation _ _ Hid); reflexivity.
Qed.

Lemma coerce_bigint v : Pg.coerce Pg.TBigint v = inr v.
Proof. destruct v; reflexivity. Qed.

Lemma fetchrow_insert p lat lon time s t :
  Pg.location_data s = Some t ->
  table_ok t ->
  exists s' r,
    Asyncpg.fetchrow p insert_query [lat; lon; time] s = (s', r) /\
    Pg.clock s' = Pg.clock s /\
    match stored_values p lat lon time with
    | Some (la, lo, ts) =>
        s' = store s t (location_row (Pg.tbl_seq t + 1) la lo ts (Pg.clock s))
        /\ r = inr (Some [("id"%string, Pg.SInt (Pg.tbl_seq t + 1))])
    | None =>
        (s' = s \/ s' = bump s t) /\ exists e, r = inl e
    end.
Proof.
  intros Ht Hok.
  pose proof (insert_on_location_data s t) as Hins.
  unfold Asyncpg.fetchrow, Asyncpg.fetch, Asyncpg.param_types, stored_values.
  rewrite Ht. destruct Hok as (Hc & Hok'). rewrite Hc.
  assert (Hok : table_ok t) by (split; assumption).
  unfold insert_query at 1.
  cbn [Asyncpg.insert_param_types Pg.location_data_columns
       Asyncpg.column_type Pg.col_name Pg.col_type String.eqb Ascii.eqb
       Bool.eqb Asyncpg.encode_args Asyncpg.encode].
  destruct (Asyncpg.numeric_encode p lat) as [e|v1];
    [exists s, (inl e); repeat split; eauto|].
  destruct (Asyncpg.numeric_encode p lon) as [e|v2];
    [exists s, (inl e); repeat split; eauto|].
  destruct (Asyncpg.int8_encode p time) as [e|v3];
    [exists s, (inl e); repeat split; eauto|].
  unfold insert_query.
  change (Pg.insert_returning_id _ [v1; v2; v3] s)
    with (Pg.insert_returning_id (targets_of insert_query) [v1; v2; v3] s).
  rewrite (Hins v1 v2 v3 Ht Hok), coerce_bigint.
  destruct (Pg.coerce (Pg.TDecimal 10 8) v1) as [e|la];
    [eexists _, _; repeat split; eauto|].
  destruct (Pg.coerce (Pg.TDecimal 11 8) v2) as [e|lo];
    [eexists _, _; repeat split; eauto|].
  destruct (sql_is_null la); [eexists _, _; repeat split; eauto|].
  destruct (sql_is_null lo); [eexists _, _; repeat split; eauto|].
  destruct (sql_is_null v3); [eexists _, _; repeat split; eauto|].
  cbn [orb hd_error]. eexists _, _; repeat split; eauto.
Qed.

Opaque Asyncpg.fetchrow.

(** [insert_location_data] is its two phases run back to back. *)
Lemma insert_location_data_phases message w :
  insert_location_data message w =
  match insert_enter message w with
  | (inr (Some (p, (lat, lon, time))), w1) =>
      insert_resume message p lat lon time w1
  | (inr None, w1) => (inr tt, w1)
  | (inl e, w1) => (inl e, w1)
  end.
Proof. run_m. Qed.

Ltac solve_spec :=
  repeat (first [split | eexists]); simpl; eauto; try reflexivity.

(** What the first phase does: nothing but decide, and report a message
    that is not a JSON object. *)
Lemma insert_enter_spec message w :
  exists r w',
    insert_enter message w = (inr r, w') /\
    db_pool w' = db_pool w /\ pg w' = pg w /\ connect w' = connect w /\
    tasks w' = tasks w /\
    match db_pool w, Json.loads message with
    | Some p, inr (Py.PDict items) =>
        r = Some (p, (Py.dict_get items (Py.lit "lat"),
                      Py.dict_get items (Py.lit "lon"),
                      Py.dict_get items (Py.lit "time"))) /\ w' = w
    | Some p, inr _ =>
        r = None /\ stdout w' = stdout w ++ [ProcessingError Py.AttributeError]
    | Some p, inl e =>
        r = None /\ exists l, stdout w' = stdout w ++ [l] /\ error_line l = true
    | None, _ => r = None /\ stdout w' = stdout w ++ [PoolUnavailable]
    end.
Proof.
  unfold_m. destruct (db_pool w) as [p|] eqn:Hp; simpl.
  - destruct (Json.loads message) as [e|v]; simpl.
    + destruct e; simpl; solve_spec.
    + destruct v; simpl; solve_spec.
  - solve_spec.
Qed.

(** What the second phase does on the relation of the DDL. *)
Lemma insert_resume_spec message p lat lon time w t :
  Pg.location_data (pg w) = Some t ->
  table_ok t ->
  exists w',
    insert_resume message p lat lon time w = (inr tt, w') /\
    db_pool w' = db_pool w /\ connect w' = connect w /\ tasks w' = tasks w /\
    Pg.clock (pg w') = Pg.clock (pg w) /\
    match stored_values p lat lon time with
    | Some (la, lo, ts) =>
        pg w' = store (pg w) t
                  (location_row (Pg.tbl_seq t + 1) la lo ts (Pg.clock (pg w)))
        /\ stdout w' = stdout w ++ [Inserted (Pg.SInt (Pg.tbl_seq t + 1))]
    | None =>
        (pg w' = pg w \/ pg w' = bump (pg w) t) /\
        exists l, stdout w' = stdout w ++ [l] /\ error_line l = true
    end.
Proof.
  intros Ht Hok.
  destruct (fetchrow_insert p lat lon time (pg w) t Ht Hok)
    as (s' & r & Hf & Hclock & Hcase).
  unfold_m. rewrite Hf. simpl.
  destruct (stored_values p lat lon time) as [[[la lo] ts]|].
  - destruct Hcase as [-> ->]. simpl.
    solve_spec.
  - destruct Hcase as [Hs [e ->]]. simpl.
    destruct e; simpl; solve_spec.
Qed.

(** ** Identifiers: increasing in insertion order *)

Lemma increasing_cons x l :
  increasing (x :: l) = true <->
  match l with [] => True | y :: _ => x < y end /\ increasing l = true.
Proof.
  destruct l as [|y l]; simpl.
  - tauto.
  - rewrite andb_true_iff, Z.ltb_lt. tauto.
Qed.

Lemma increasing_sorted l :
  increasing l = true <-> StronglySorted Z.lt l.
Proof.
  induction l as [|x l IH].
  - split; [constructor | reflexivity].
  - rewrite increasing_cons, IH. split.
    + intros [Hx Hl]. constructor; [assumption|].
      destruct l as [|y l]; [constructor|].
      inversion Hl as [|? ? Hl' Hy]; subst.
      constructor; [assumption|].
      eapply Forall_impl; [|exact Hy]. simpl; intros; lia.
    + intros H. inversion H as [|? ? Hl Hx]; subst. split; [|assumption].
      destruct l; [trivial|]. inversion Hx; assumption.
Qed.

Lemma increasing_snoc l x :
  increasing l = true -> Forall (fun y => y < x) l ->
  increasing (l ++ [x]) = true.
Proof.
  induction l as [|a l IH]; intros Hl Hx; [reflexivity|].
  apply increasing_cons in Hl. destruct Hl as [Ha Hl].
  inversion Hx as [|? ? Hax Hx']; subst.
  simpl app. apply increasing_cons. split; [|auto].
  destruct l as [|b l]; simpl; auto.
Qed.

Lemma increasing_app_inv l1 l2 :
  increasing (l1 ++ l2) = true -> increasing l1 = true.
Proof.
  rewrite !increasing_sorted. induction l1 as [|a l1 IH]; simpl; intros H.
  - constructor.
  - inversion H as [|? ? Hl Ha]; subst. constructor; [auto|].
    apply Forall_app in Ha. tauto.
Qed.

Lemma has_id_upto_row_id seq r :
  has_id_upto seq r = true ->
  Pg.field r "id" = Some (Pg.SInt (Pg.row_id r)) /\ Pg.row_id r <= seq.
Proof.
  unfold has_id_upto, Pg.row_id.
  destruct (Pg.field r "id") as [[ |z| | | ]|]; try discriminate.
  intros H; apply Z.leb_le in H. auto.
Qed.

Lemma has_id_upto_mono seq seq' rows :
  seq <= seq' ->
  forallb (has_id_upto seq) rows = true ->
  forallb (has_id_upto seq') rows = true.
Proof.
  intros Hle. rewrite !forallb_forall. intros H r Hr.
  specialize (H r Hr). unfold has_id_upto in *.
  destruct (Pg.field r "id") as [[ |z| | | ]|]; try discriminate.
  apply Z.leb_le in H. apply Z.leb_le. lia.
Qed.

Lemma ids_below seq rows :
  forallb (has_id_upto seq) rows = true ->
  Forall (fun y => y < seq + 1) (map Pg.row_id rows).
Proof.
  rewrite forallb_forall, Forall_forall. intros H y Hy.
  apply in_map_iff in Hy. destruct Hy as (r & <- & Hr).
  destruct (has_id_upto_row_id _ _ (H r Hr)). lia.
Qed.

Lemma table_ok_bump s t :
  table_ok t ->
  exists t', Pg.location_data (bump s t) = Some t' /\ table_ok t' /\
             Pg.tbl_rows t' = Pg.tbl_rows t.
Proof.
  intros (Hc & Hid & Hinc). eexists; split; [reflexivity|].
  repeat split; simpl; auto.
  eapply has_id_upto_mono; [|exact Hid]. lia.
Qed.

Lemma table_ok_store s t la lo ts now :
  table_ok t ->
  exists t',
    Pg.location_data
      (store s t (location_row (Pg.tbl_seq t + 1) la lo ts now)) = Some t' /\
    table_ok t' /\
    Pg.tbl_rows t' =
      Pg.tbl_rows t ++ [location_row (Pg.tbl_seq t + 1) la lo ts now].
Proof.
  intros (Hc & Hid & Hinc). eexists; split; [reflexivity|].
  repeat split; simpl; auto.
  - rewrite forallb_app. apply andb_true_iff; split.
    + eapply has_id_upto_mono; [|exact Hid]. lia.
    + simpl. unfold has_id_upto. simpl. rewrite Z.leb_refl. reflexivity.
  - rewrite map_app. simpl map.
    apply increasing_snoc; [assumption|].
    change (Pg.row_id (location_row (Pg.tbl_seq t + 1) la lo ts now))
      with (Pg.tbl_seq t + 1).
    apply ids_below; assumption.
Qed.

(** ** ORDER BY id DESC *)

Lemma insert_desc_smallest r l :
  Forall (fun r0 => Pg.row_id r < Pg.row_id r0) l ->
  Pg.insert_desc r l = l ++ [r].
Proof.
  induction 1 as [|r0 l H0 Hl IH]; simpl; [reflexivity|].
  destruct (Z.ltb_spec (Pg.row_id r0) (Pg.row_id r)); [lia|].
  rewrite IH; reflexivity.
Qed.

Lemma order_by_id_desc_rev rows :
  increasing (map Pg.row_id rows) = true ->
  Pg.order_by_id_desc rows = rev rows.
Proof.
  induction rows as [|r rows IH]; intros H; [reflexivity|].
  change (map Pg.row_id (r :: rows))
    with (Pg.row_id r :: map Pg.row_id rows) in H.
  apply increasing_sorted in H. inversion H as [|? ? Hl Hr]; subst.
  simpl Pg.order_by_id_desc. simpl rev.
  rewrite IH by (apply increasing_sorted; assumption).
  apply insert_desc_smallest.
  rewrite Forall_forall in *. intros r0 Hr0. apply Hr.
  apply in_map. apply in_rev. assumption.
Qed.

Lemma sorted_rev_gt l :
  StronglySorted Z.lt l -> StronglySorted Z.gt (rev l).
Proof.
  induction 1 as [|x l Hl IH Hx]; simpl; [constructor|].
  clear Hl. revert IH. 
  assert (Hx' : Forall (fun y => y > x) (rev l)).
  { rewrite Forall_forall in *. intros y Hy. apply in_rev in Hy.
    specialize (Hx y Hy). lia. }
  induction (rev l) as [|y l' IHl]; intros Hs; simpl.
  - constructor; constructor.
  - inversion Hs; subst. inversion Hx'; subst.
    constructor; [auto|]. apply Forall_app; split; [assumption|].
    constructor; [assumption|constructor].
Qed.

Lemma in_firstn {A} n (l : list A) x : In x (firstn n l) -> In x l.
Proof.
  revert n; induction l as [|y l IH]; intros [|n]; simpl; try tauto.
  intros [H|H]; [auto|right; eauto].
Qed.

Lemma sorted_firstn {A} (R : A -> A -> Prop) n l :
  StronglySorted R l -> StronglySorted R (firstn n l).
Proof.
  intros H; revert n; induction H as [|x l Hl IH Hx]; intros [|n]; simpl;
    try constructor; auto.
  rewrite Forall_forall in *. intros y Hy. apply Hx.
  eapply in_firstn; eassumption.
Qed.

Lemma select_all rows : map (Pg.select_list None) rows = rows.
Proof. apply map_id. Qed.

(** ** The query endpoints *)

Transparent Asyncpg.fetchrow.

Lemma fetch_all p limit s t :
  Pg.location_data s = Some t ->
  Asyncpg.fetch p all_query [Py.PInt limit] s =
  (s, if Asyncpg.in_int64 limit
      then if limit <? 0 then inl Py.InvalidRowCountInLimitClauseError
           else inr (firstn (Z.to_nat limit)
                            (Pg.order_by_id_desc (Pg.tbl_rows t)))
      else inl Py.DataError).
Proof.
  intros Ht.
  unfold Asyncpg.fetch, all_query, Asyncpg.param_types. rewrite Ht.
  cbn [Asyncpg.encode_args Asyncpg.encode Asyncpg.int8_encode].
  unfold Asyncpg.int8_of.
  destruct (Asyncpg.in_int64 limit); [|reflexivity].
  cbn [nth]. unfold Pg.select_order_by_id_desc_limit. rewrite Ht.
  destruct (limit <? 0); [reflexivity|]. rewrite select_all. reflexivity.
Qed.

Lemma fetchrow_latest p s t :
  Pg.location_data s = Some t ->
  Asyncpg.fetchrow p latest_query [] s =
  (s, inr (option_map (Pg.select_list (Some latest_columns))
             (hd_error (Pg.order_by_id_desc (Pg.tbl_rows t))))).
Proof.
  intros Ht.
  unfold Asyncpg.fetchrow, Asyncpg.fetch, latest_query, Asyncpg.param_types.
  rewrite Ht. cbn [Asyncpg.encode_args].
  unfold Pg.select_order_by_id_desc_limit. rewrite Ht. simpl Z.ltb. cbv iota.
  change (Z.to_nat 1) with 1%nat.
  destruct (Pg.order_by_id_desc (Pg.tbl_rows t)); reflexivity.
Qed.

Opaque Asyncpg.fetchrow.

Lemma get_all_locations_running w p t limit :
  db_pool w = Some p ->
  Pg.location_data (pg w) = Some t ->
  get_all_locations (Some limit) w =
  (match snd (Asyncpg.fetch p all_query [Py.PInt limit] (pg w)) with
   | inr rs => inr (Records rs)
   | inl e => inl e
   end, w).
Proof.
  intros Hp Ht. unfold_m. rewrite Hp. rewrite (fetch_all p limit _ t Ht).
  destruct w; simpl.
  destruct (Asyncpg.in_int64 limit); [destruct (limit <? 0)|]; reflexivity.
Qed.

(** C5, amended: for every limit [L] with [0 < L <= 2^63 - 1] (the range
    of the [bigint] parameter of [LIMIT]) the "recent" query of a running
    service returns [min L total] rows, all of them stored rows, strictly
    descending in [id], and leaves the store as it is; a call without a
    limit is a call with limit 100. *)
Theorem get_all_locations_recent (w : world) (L : Z) :
  running w ->
  0 < L <= Asyncpg.int64_max ->
  recent_as_claimed w L /\
  (forall rs r, fst (get_all_locations (Some L) w) = inr (Records rs) ->
                In r rs -> In r (rows_of w)) /\
  snd (get_all_locations (Some L) w) = w /\
  get_all_locations None w = get_all_locations (Some 100) w.
Proof.
  intros ((p & Hp & _) & t & Ht & Hc & Hid & Hinc) HL.
  rewrite (get_all_locations_running w p t L Hp Ht), (fetch_all p L _ t Ht).
  assert (Hin : Asyncpg.in_int64 L = true).
  { unfold Asyncpg.in_int64, Asyncpg.int64_min, Asyncpg.int64_max in *.
    apply andb_true_iff; split; apply Z.leb_le; lia. }
  unfold recent_as_claimed.
  rewrite (get_all_locations_running w p t L Hp Ht), (fetch_all p L _ t Ht).
  rewrite Hin. destruct (Z.ltb_spec L 0) as [|_]; [lia|]. simpl fst. simpl snd.
  rewrite (order_by_id_desc_rev _ Hinc).
  unfold rows_of. rewrite Ht.
  repeat split.
  - eexists; split; [reflexivity|]. split.
    + rewrite length_firstn, length_rev. lia.
    + rewrite <- firstn_map, map_rev. apply sorted_firstn, sorted_rev_gt.
      apply increasing_sorted. assumption.
  - intros rs r E Hr. inversion E; subst.
    apply in_firstn in Hr. apply in_rev in Hr. assumption.
Qed.

(** C10: the "recent" endpoint hands the caller's limit to the statement
    as it is: the answer is that of the store for this very limit, never a
    client error; a limit of zero answers 200 with no rows, a negative one
    reaches the server and is refused there, and a limit that covers the
    whole relation returns all of it. *)
Theorem get_all_locations_forwards_limit (w : world) (p : Asyncpg.pool)
    (t : Pg.table) (limit : Z) :
  db_pool w = Some p ->
  Pg.location_data (pg w) = Some t ->
  fst (get_all_locations (Some limit) w) =
    match snd (Asyncpg.fetch p all_query [Py.PInt limit] (pg w)) with
    | inr rs => inr (Records rs)
    | inl e => inl e
    end /\
  (status_code (fst (get_all_locations (Some limit) w)) = 200 \/
   status_code (fst (get_all_locations (Some limit) w)) = 500) /\
  fst (get_all_locations (Some 0) w) = inr (Records []) /\
  (limit < 0 -> Asyncpg.int64_min <= limit ->
   fst (get_all_locations (Some limit) w) =
     inl Py.InvalidRowCountInLimitClauseError) /\
  (Z.of_nat (List.length (Pg.tbl_rows t)) <= limit <= Asyncpg.int64_max ->
   fst (get_all_locations (Some limit) w) =
     inr (Records (Pg.order_by_id_desc (Pg.tbl_rows t)))).
Proof.
  intros Hp Ht.
  rewrite (get_all_locations_running w p t 0 Hp Ht), (fetch_all p 0 _ t Ht).
  rewrite (get_all_locations_running w p t limit Hp Ht),
          (fetch_all p limit _ t Ht).
  simpl fst; simpl snd.
  split; [reflexivity|]. split; [|split; [reflexivity|split]].
  - destruct (Asyncpg.in_int64 limit); [destruct (limit <? 0)|]; simpl; auto.
  - intros Hneg Hmin.
    assert (Hin : Asyncpg.in_int64 limit = true).
    { unfold Asyncpg.in_int64, Asyncpg.int64_min, Asyncpg.int64_max in *.
      apply andb_true_iff; split; apply Z.leb_le; lia. }
    rewrite Hin. destruct (Z.ltb_spec limit 0); [reflexivity|lia].
  - intros [Hlen Hmax].
    assert (Hin : Asyncpg.in_int64 limit = true).
    { unfold Asyncpg.in_int64, Asyncpg.int64_min, Asyncpg.int64_max in *.
      apply andb_true_iff; split; apply Z.leb_le; lia. }
    rewrite Hin. destruct (Z.ltb_spec limit 0); [lia|].
    rewrite firstn_all2; [reflexivity|].
    assert (E : List.length (Pg.order_by_id_desc (Pg.tbl_rows t))
                = List.length (Pg.tbl_rows t)).
    { clear. induction (Pg.tbl_rows t) as [|r l IH]; [reflexivity|].
      simpl. rewrite <- IH. clear IH.
      induction (Pg.order_by_id_desc l) as [|r0 l0 IH0]; [reflexivity|].
      simpl. destruct (Pg.row_id r0 <? Pg.row_id r); simpl; auto. }
    rewrite E. lia.
Qed.

(** ** One report, from the message to the relation *)

Lemma insert_location_data_spec message w p t :
  db_pool w = Some p ->
  Pg.location_data (pg w) = Some t ->
  table_ok t ->
  exists w',
    insert_location_data message w = (inr tt, w') /\
    db_pool w' = db_pool w /\ connect w' = connect w /\ tasks w' = tasks w /\
    Pg.clock (pg w') = Pg.clock (pg w) /\
    match Json.loads message with
    | inr (Py.PDict items) =>
        match stored_report p items with
        | Some (la, lo, ts) =>
            pg w' = store (pg w) t
                      (location_row (Pg.tbl_seq t + 1) la lo ts
                                    (Pg.clock (pg w)))
            /\ stdout w' = stdout w ++ [Inserted (Pg.SInt (Pg.tbl_seq t + 1))]
        | None =>
            (pg w' = pg w \/ pg w' = bump (pg w) t) /\
            exists l, stdout w' = stdout w ++ [l] /\ error_line l = true
        end
    | _ =>
        pg w' = pg w /\
        exists l, stdout w' = stdout w ++ [l] /\ error_line l = true
    end.
Proof.
  intros Hp Ht Hok.
  rewrite insert_location_data_phases.
  destruct (insert_enter_spec message w)
    as (r & w1 & He & Hp1 & Hpg1 & Hc1 & Ht1 & Hcase).
  rewrite He. rewrite Hp in Hcase.
  destruct (Json.loads message) as [e|v].
  - destruct Hcase as [-> (l & Hl & Hel)].
    exists w1. rewrite Hp1, Hpg1, Hc1, Ht1. solve_spec.
  - destruct v; try (destruct Hcase as [-> Hl];
                     exists w1; rewrite Hp1, Hpg1, Hc1, Ht1; solve_spec; fail).
    destruct Hcase as [-> ->].
    destruct (insert_resume_spec message p
                (Py.dict_get items (Py.lit "lat"))
                (Py.dict_get items (Py.lit "lon"))
                (Py.dict_get items (Py.lit "time")) w t Ht Hok)
      as (w' & Hr & Hp' & Hc' & Ht' & Hclk & Hcase).
    exists w'. unfold stored_report, report_of. solve_spec.
Qed.

(** After a report the service is still running, and the rows stored
    before are still there, in place. *)
Lemma insert_location_data_running message w :
  running w ->
  running (snd (insert_location_data message w)) /\
  exists new, rows_of (snd (insert_location_data message w))
              = rows_of w ++ new.
Proof.
  intros ((p & Hp & Hsz) & t & Ht & Hok).
  destruct (insert_location_data_spec message w p t Hp Ht Hok)
    as (w' & Hrun & Hp' & _ & _ & _ & Hcase).
  rewrite Hrun. simpl snd. unfold running, rows_of. rewrite Hp', Hp, Ht.
  assert (Same : pg w' = pg w ->
          (exists t0, Pg.location_data (pg w') = Some t0 /\ table_ok t0) /\
          exists new, match Pg.location_data (pg w') with
                      | Some t0 => Pg.tbl_rows t0 | None => [] end
                      = Pg.tbl_rows t ++ new).
  { intros ->. rewrite Ht. split; [eauto|]. exists []. symmetry; apply app_nil_r. }
  assert (Bump : pg w' = bump (pg w) t ->
          (exists t0, Pg.location_data (pg w') = Some t0 /\ table_ok t0) /\
          exists new, match Pg.location_data (pg w') with
                      | Some t0 => Pg.tbl_rows t0 | None => [] end
                      = Pg.tbl_rows t ++ new).
  { intros ->. destruct (table_ok_bump (pg w) t Hok) as (t' & E1 & E2 & E3).
    rewrite E1. split; [eauto|]. exists []. rewrite app_nil_r. auto. }
  assert (G : (exists t0, Pg.location_data (pg w') = Some t0 /\ table_ok t0) /\
          exists new, match Pg.location_data (pg w') with
                      | Some t0 => Pg.tbl_rows t0 | None => [] end
                      = Pg.tbl_rows t ++ new).
  { destruct (Json.loads message) as [e|v];
      [destruct Hcase as [E _]; auto|].
    destruct v; try (destruct Hcase as [E _]; auto; fail).
    destruct (stored_report p items) as [[[la lo] ts]|].
    - destruct Hcase as [E _]. rewrite E.
      destruct (table_ok_store (pg w) t la lo ts (Pg.clock (pg w)) Hok)
        as (t' & E1 & E2 & E3).
      rewrite E1. split; [eauto|]. eexists; eassumption.
    - destruct Hcase as [[E|E] _]; auto. }
  destruct G as [G1 G2]. split; [split; eauto|assumption].
Qed.

(** ** Examples to run the program on *)

Lemma example_world_running : running example_world.
Proof.
  split.
  - exists example_pool. split; [reflexivity|]. simpl. lia.
  - eexists. split; [reflexivity|]. repeat split.
Qed.

(** ** Malformed datagrams *)

Lemma dict_get_absent items key :
  has_key items key = false -> Py.dict_get items (Py.lit key) = Py.PNone.
Proof.
  unfold has_key. induction items as [|[k v] items IH]; simpl; [reflexivity|].
  intros H. apply orb_false_iff in H. destruct H as [H1 H2].
  rewrite H1. auto.
Qed.

(** C1 at the datagram [b"\xff"]: [data.decode()] raises inside
    [datagram_received], outside any [try]; the exception leaves the
    callback, nothing is printed and no task is created. *)
Theorem datagram_received_invalid_utf8_raises (w : world)
    (addr : string * Z) :
  datagram_received [xff] addr w = (inl Py.UnicodeDecodeError, w).
Proof. reflexivity. Qed.

(** The same for every datagram that is not UTF-8. *)
Lemma datagram_received_not_utf8 data addr w e :
  Utf8.decode data = inl e ->
  datagram_received data addr w = (inl e, w).
Proof. intros H. unfold_m. rewrite H. reflexivity. Qed.

(** A datagram that is UTF-8 is always handed on: the callback returns,
    prints the message and creates one task. *)
Lemma datagram_received_dispatches data addr w message :
  Utf8.decode data = inr message ->
  datagram_received data addr w =
  (inr tt, mk_world (db_pool w) (pg w) (connect w)
             (stdout w ++ [UdpReceived addr message])
             (tasks w ++ [InsertLocationData message])).
Proof. intros H. unfold_m. rewrite H. reflexivity. Qed.

(** The part of C1 the code does keep: a message that is not JSON, or is
    JSON but not an object, stores no row, prints one error line and
    raises nothing. *)
Lemma malformed_message_is_dropped message w :
  running w ->
  match Json.loads message with inr (Py.PDict _) => False | _ => True end ->
  exists w',
    insert_location_data message w = (inr tt, w') /\
    pg w' = pg w /\ db_pool w' = db_pool w /\
    exists l, stdout w' = stdout w ++ [l] /\ error_line l = true.
Proof.
  intros ((p & Hp & _) & t & Ht & Hok) Hbad.
  destruct (insert_location_data_spec message w p t Hp Ht Hok)
    as (w' & Hrun & Hp' & _ & _ & _ & Hcase).
  exists w'. split; [assumption|].
  destruct (Json.loads message) as [e|v].
  - destruct Hcase; auto.
  - destruct v; try contradiction; destruct Hcase; auto.
Qed.

(** ** Reports with a missing field *)

Lemma stored_values_null p lat lon time :
  lat = Py.PNone \/ lon = Py.PNone \/ time = Py.PNone ->
  stored_values p lat lon time = None.
Proof.
  unfold stored_values.
  intros [-> | [-> | ->]];
    cbn [Asyncpg.numeric_encode Asyncpg.int8_encode];
    repeat case_match; try reflexivity; exfalso;
    repeat match goal with
           | H : Pg.coerce _ Pg.SNull = _ |- _ =>
               cbn in H; inversion H; clear H; subst
           | H : inr _ = inr _ |- _ => inversion H; clear H; subst
           end;
    cbn [sql_is_null orb] in *; rewrite ?orb_true_r in *; discriminate.
Qed.

(** C2, amended: a decoded JSON object in which [lat], [lon] or [time] is
    absent is not refused by the listener: the datagram is dispatched as a
    task and the insert is attempted with [None] for the absent key.  The
    attempt stores no row, since [latitude], [longitude] and
    [timestamp_value] are NOT NULL; the coroutine prints one error line and
    ends without raising, and the rows stored before stay as they are. *)
Theorem missing_field_is_dispatched_and_not_stored (w : world)
    (data : list byte) (addr : string * Z) (message : Py.str)
    (items : list (Py.str * Py.value)) :
  running w ->
  Utf8.decode data = inr message ->
  Json.loads message = inr (Py.PDict items) ->
  has_key items "lat" = false \/ has_key items "lon" = false \/
  has_key items "time" = false ->
  fst (datagram_received data addr w) = inr tt /\
  tasks (snd (datagram_received data addr w))
    = tasks w ++ [InsertLocationData message] /\
  exists w',
    insert_location_data message w = (inr tt, w') /\
    rows_of w' = rows_of w /\
    (exists l, stdout w' = stdout w ++ [l] /\ error_line l = true) /\
    ~ stored_with_nulls w message items.
Proof.
  intros Hrun Hdec Hjson Hmiss.
  rewrite (datagram_received_dispatches data addr w message Hdec).
  split; [reflexivity|]. split; [reflexivity|].
  destruct Hrun as ((p & Hp & _) & t & Ht & Hok).
  destruct (insert_location_data_spec message w p t Hp Ht Hok)
    as (w' & Hr & Hp' & _ & _ & _ & Hcase).
  rewrite Hjson in Hcase. unfold stored_report, report_of in Hcase.
  rewrite stored_values_null in Hcase
    by (destruct Hmiss as [H|[H|H]]; apply dict_get_absent in H; auto).
  destruct Hcase as [Hpg Hlog].
  assert (Hrows : rows_of w' = rows_of w).
  { unfold rows_of. destruct Hpg as [-> | ->]; [reflexivity|].
    rewrite Ht. reflexivity. }
  exists w'. repeat split; auto.
  intros (r & Happ & _). rewrite Hr in Happ. simpl in Happ.
  rewrite Hrows in Happ.
  apply (f_equal (@List.length _)) in Happ. rewrite length_app in Happ.
  simpl in Happ. lia.
Qed.

(** ** The latest report *)

Lemma get_latest_location_spec w p t :
  db_pool w = Some p ->
  Pg.location_data (pg w) = Some t ->
  get_latest_location w =
  (match hd_error (Pg.order_by_id_desc (Pg.tbl_rows t)) with
   | Some r => inr (Record_ (Pg.select_list (Some latest_columns) r))
   | None => inl (Py.HTTPException 404)
   end, w).
Proof.
  intros Hp Ht. unfold_m. rewrite Hp, (fetchrow_latest p _ t Ht).
  destruct w; simpl.
  destruct (hd_error (Pg.order_by_id_desc (Pg.tbl_rows t))); reflexivity.
Qed.

Lemma numeric_encode_number p v u sc :
  exact_decimal v = Some (u, sc) ->
  Asyncpg.numeric_encode p v = inr (Pg.SNumeric (Pg.Num u sc)).
Proof.
  destruct v as [ | |z|f| | | ]; simpl; try discriminate.
  - intros E; inversion E; reflexivity.
  - destruct f as [s| | |s m e]; simpl; try discriminate.
    + intros E; inversion E; reflexivity.
    + destruct (0 <=? e); intros E; inversion E; reflexivity.
Qed.

Lemma coerce_decimal_some p s u sc v :
  Pg.coerce (Pg.TDecimal p s) (Pg.SNumeric (Pg.Num u sc)) = inr v ->
  v = Pg.SNumeric (Pg.Num (Pg.rescale u sc s) s).
Proof.
  cbn [Pg.coerce].
  destruct (Z.abs (Pg.rescale u sc s) <? 10 ^ p); intros E; inversion E.
  reflexivity.
Qed.

Lemma stored_values_number p lat lon z la lo ts ulat slat ulon slon :
  exact_decimal lat = Some (ulat, slat) ->
  exact_decimal lon = Some (ulon, slon) ->
  stored_values p lat lon (Py.PInt z) = Some (la, lo, ts) ->
  la = Pg.SNumeric (Pg.Num (Pg.rescale ulat slat 8) 8) /\
  lo = Pg.SNumeric (Pg.Num (Pg.rescale ulon slon 8) 8) /\
  ts = Pg.SInt z.
Proof.
  intros Hlat Hlon. unfold stored_values.
  rewrite (numeric_encode_number p lat _ _ Hlat),
          (numeric_encode_number p lon _ _ Hlon).
  cbn [Asyncpg.int8_encode]. unfold Asyncpg.int8_of.
  destruct (Asyncpg.in_int64 z); [|discriminate].
  destruct (Pg.coerce (Pg.TDecimal 10 8) _) as [e|a] eqn:Ea; [discriminate|].
  destruct (Pg.coerce (Pg.TDecimal 11 8) _) as [e|b] eqn:Eb; [discriminate|].
  apply coerce_decimal_some in Ea, Eb. subst a b.
  cbn [sql_is_null orb]. intros E; inversion E; auto.
Qed.

(** A value with at most [s] fractional digits is stored as it is. *)
Lemma rescale_exact u sc s :
  0 <= sc <= s -> u * 10 ^ s = Pg.rescale u sc s * 10 ^ sc.
Proof.
  intros H. unfold Pg.rescale.
  destruct (Z.leb_spec sc s); [|lia].
  rewrite <- Z.mul_assoc, <- Z.pow_add_r by lia.
  f_equal. f_equal. lia.
Qed.

(** What an insert leaves behind when it did store a row. *)
Lemma inserted_row message w p t items r :
  db_pool w = Some p ->
  Pg.location_data (pg w) = Some t ->
  table_ok t ->
  Json.loads message = inr (Py.PDict items) ->
  rows_of (snd (insert_location_data message w)) = rows_of w ++ [r] ->
  exists la lo ts t',
    stored_report p items = Some (la, lo, ts) /\
    r = location_row (Pg.tbl_seq t + 1) la lo ts (Pg.clock (pg w)) /\
    Pg.location_data (pg (snd (insert_location_data message w))) = Some t' /\
    table_ok t' /\ Pg.tbl_rows t' = Pg.tbl_rows t ++ [r] /\
    db_pool (snd (insert_location_data message w)) = Some p.
Proof.
  intros Hp Ht Hok Hjson Hrows.
  destruct (insert_location_data_spec message w p t Hp Ht Hok)
    as (w' & Hr & Hp' & _ & _ & _ & Hcase).
  rewrite Hr in *. simpl snd in *. rewrite Hjson in Hcase.
  unfold rows_of in Hrows. rewrite Ht in Hrows.
  destruct (stored_report p items) as [[[la lo] ts]|].
  - destruct Hcase as [Hpg _]. rewrite Hpg in *.
    destruct (table_ok_store (pg w) t la lo ts (Pg.clock (pg w)) Hok)
      as (t' & E1 & E2 & E3).
    rewrite E1 in Hrows. rewrite E3 in Hrows.
    apply app_inj_tail in Hrows. destruct Hrows as [_ <-].
    exists la, lo, ts, t'. rewrite Hp', Hp. auto 10.
  - exfalso. destruct Hcase as [[Hpg|Hpg] _]; rewrite Hpg in Hrows.
    + rewrite Ht in Hrows.
      apply (f_equal (@List.length _)) in Hrows.
      rewrite length_app in Hrows. simpl in Hrows. lia.
    + simpl in Hrows.
      apply (f_equal (@List.length _)) in Hrows.
      rewrite length_app in Hrows. simpl in Hrows. lia.
Qed.

Lemma latest_after_store w p t r rows :
  db_pool w = Some p ->
  Pg.location_data (pg w) = Some t ->
  table_ok t ->
  Pg.tbl_rows t = rows ++ [r] ->
  fst (get_latest_location w)
  = inr (Record_ (Pg.select_list (Some latest_columns) r)).
Proof.
  intros Hp Ht (_ & _ & Hinc) Hrows.
  rewrite (get_latest_location_spec w p t Hp Ht).
  rewrite (order_by_id_desc_rev _ Hinc), Hrows, rev_unit. reflexivity.
Qed.

(** C3, amended: for a report with numeric [lat] and [lon] and an integer
    [time] that is inserted, the stored row has nulls in the four reserved
    columns whatever else the payload holds, and the latest query that
    follows answers 200 with exactly four fields: [latitude] and
    [longitude] as stored, that is rounded to 8 fractional digits (and so
    equal to the ingested value when it has no more digits than that),
    [timestamp_value] equal to [time], and [created_at]; the reserved
    columns are not part of the answer. *)
Theorem latest_after_insert (w : world) (message : Py.str)
    (items : list (Py.str * Py.value)) (r : Pg.row)
    (ulat slat ulon slon z : Z) :
  running w ->
  Json.loads message = inr (Py.PDict items) ->
  exact_decimal (Py.dict_get items (Py.lit "lat")) = Some (ulat, slat) ->
  exact_decimal (Py.dict_get items (Py.lit "lon")) = Some (ulon, slon) ->
  Py.dict_get items (Py.lit "time") = Py.PInt z ->
  rows_of (snd (insert_location_data message w)) = rows_of w ++ [r] ->
  let la := Pg.SNumeric (Pg.Num (Pg.rescale ulat slat 8) 8) in
  let lo := Pg.SNumeric (Pg.Num (Pg.rescale ulon slon 8) 8) in
  Pg.field r "accuracy" = Some Pg.SNull /\
  Pg.field r "altitude" = Some Pg.SNull /\
  Pg.field r "speed" = Some Pg.SNull /\
  Pg.field r "provider" = Some Pg.SNull /\
  Pg.field r "latitude" = Some la /\
  Pg.field r "longitude" = Some lo /\
  Pg.field r "timestamp_value" = Some (Pg.SInt z) /\
  fst (get_latest_location (snd (insert_location_data message w)))
    = inr (Record_ [ ("latitude"%string, la); ("longitude"%string, lo);
                     ("timestamp_value"%string, Pg.SInt z);
                     ("created_at"%string,
                      Pg.STimestamp (Pg.clock (pg w))) ]) /\
  (0 <= slat <= 8 -> same_number (ulat, slat) la) /\
  (0 <= slon <= 8 -> same_number (ulon, slon) lo).
Proof.
  intros ((p & Hp & _) & t & Ht & Hok) Hjson Hlat Hlon Htime Hrows la lo.
  destruct (inserted_row message w p t items r Hp Ht Hok Hjson Hrows)
    as (la' & lo' & ts & t' & Hst & Hr & Ht' & Hok' & Hrows' & Hp').
  unfold stored_report, report_of in Hst. rewrite Htime in Hst.
  destruct (stored_values_number _ _ _ _ _ _ _ _ _ _ _ Hlat Hlon Hst)
    as (-> & -> & ->).
  rewrite (latest_after_store _ p t' _ (Pg.tbl_rows t) Hp' Ht' Hok' Hrows').
  subst r la lo. repeat split; try reflexivity.
  - intros H. unfold same_number. cbn [fst snd]. apply rescale_exact, H.
  - intros H. unfold same_number. cbn [fst snd]. apply rescale_exact, H.
Qed.

(** C6: the latest query answers 503 without a pool and 404 on an empty
    relation; after one insert into an empty relation it answers 200 with
    the [latitude], [longitude], [timestamp_value] and [created_at] of the
    row that insert stored. *)
Theorem get_latest_location_answers (w : world) :
  (db_pool w = None ->
   fst (get_latest_location w) = inl (Py.HTTPException 503) /\
   status_code (fst (get_latest_location w)) = 503) /\
  (forall p t,
     db_pool w = Some p -> Pg.location_data (pg w) = Some t ->
     Pg.tbl_rows t = [] ->
     fst (get_latest_location w) = inl (Py.HTTPException 404) /\
     status_code (fst (get_latest_location w)) = 404) /\
  (forall message r,
     running w -> rows_of w = [] ->
     rows_of (snd (insert_location_data message w)) = [r] ->
     exists la lo ts ca,
       Pg.field r "latitude" = Some la /\
       Pg.field r "longitude" = Some lo /\
       Pg.field r "timestamp_value" = Some ts /\
       Pg.field r "created_at" = Some ca /\
       fst (get_latest_location (snd (insert_location_data message w)))
         = inr (Record_ [ ("latitude"%string, la); ("longitude"%string, lo);
                          ("timestamp_value"%string, ts);
                          ("created_at"%string, ca) ]) /\
       status_code
         (fst (get_latest_location (snd (insert_location_data message w))))
         = 200).
Proof.
  split; [|split].
  - intros Hp. unfold_m. rewrite Hp. simpl. auto.
  - intros p t Hp Ht Hrows.
    rewrite (get_latest_location_spec w p t Hp Ht), Hrows. simpl. auto.
  - intros message r ((p & Hp & _) & t & Ht & Hok) Hempty Hrows.
    assert (Hrows' : rows_of (snd (insert_location_data message w))
                     = rows_of w ++ [r]) by (rewrite Hempty; exact Hrows).
    destruct (insert_location_data_spec message w p t Hp Ht Hok)
      as (w' & Hrun & _ & _ & _ & _ & Hcase).
    destruct (Json.loads message) as [e|v] eqn:Hjson.
    { exfalso. destruct Hcase as [Hpg _]. rewrite Hrun in Hrows. simpl in Hrows.
      unfold rows_of in Hrows, Hempty. rewrite Hpg, Ht in Hrows.
      rewrite Ht in Hempty. congruence. }
    destruct v;
      try (exfalso; destruct Hcase as [Hpg _]; rewrite Hrun in Hrows;
           simpl in Hrows; unfold rows_of in Hrows, Hempty;
           rewrite Hpg, Ht in Hrows; rewrite Ht in Hempty; congruence).
    destruct (inserted_row message w p t items r Hp Ht Hok Hjson Hrows')
      as (la & lo & ts & t' & Hst & Hr & Ht' & Hok' & Ht'rows & Hp').
    rewrite (latest_after_store _ p t' r (Pg.tbl_rows t) Hp' Ht' Hok' Ht'rows).
    subst r. simpl. eexists _, _, _, _. repeat split.
Qed.

(** C9: two decoded objects that agree on [lat], [lon] and [time] are
    stored alike, whatever other keys they hold: in two services with the
    same pool, either neither report is stored, or both are, in rows that
    agree on every column but [id] and [created_at]. *)
Theorem other_keys_have_no_effect (w1 w2 : world)
    (m1 m2 : Py.str) (items1 items2 : list (Py.str * Py.value)) :
  running w1 -> running w2 ->
  db_pool w1 = db_pool w2 ->
  Json.loads m1 = inr (Py.PDict items1) ->
  Json.loads m2 = inr (Py.PDict items2) ->
  report_of items1 = report_of items2 ->
  let w1' := snd (insert_location_data m1 w1) in
  let w2' := snd (insert_location_data m2 w2) in
  (rows_of w1' = rows_of w1 /\ rows_of w2' = rows_of w2) \/
  (exists r1 r2,
     rows_of w1' = rows_of w1 ++ [r1] /\
     rows_of w2' = rows_of w2 ++ [r2] /\
     forall col, col <> "id"%string -> col <> "created_at"%string ->
                 Pg.field r1 col = Pg.field r2 col).
Proof.
  intros ((p1 & Hp1 & _) & t1 & Ht1 & Hok1) ((p2 & Hp2 & _) & t2 & Ht2 & Hok2)
         Hpool Hj1 Hj2 Hrep w1' w2'.
  assert (p1 = p2) by congruence. subst p2.
  destruct (insert_location_data_spec m1 w1 p1 t1 Hp1 Ht1 Hok1)
    as (v1 & Hr1 & _ & _ & _ & _ & Hc1).
  destruct (insert_location_data_spec m2 w2 p1 t2 Hp2 Ht2 Hok2)
    as (v2 & Hr2 & _ & _ & _ & _ & Hc2).
  subst w1' w2'. rewrite Hr1, Hr2. simpl snd.
  rewrite Hj1 in Hc1. rewrite Hj2 in Hc2.
  unfold stored_report in Hc1, Hc2. rewrite <- Hrep in Hc2.
  destruct (report_of items1) as [[lat lon] time].
  unfold rows_of. rewrite Ht1, Ht2.
  destruct (stored_values p1 lat lon time) as [[[la lo] ts]|].
  - right. destruct Hc1 as [-> _]. destruct Hc2 as [-> _]. simpl.
    eexists _, _. split; [reflexivity|]. split; [reflexivity|].
    intros col Hid Hca. unfold location_row. cbn [Pg.field].
    destruct (String.eqb_spec "id" col); [congruence|].
    repeat (destruct (String.eqb _ col); [reflexivity|]).
    destruct (String.eqb_spec "created_at" col); [congruence|reflexivity].
  - left. destruct Hc1 as [[-> | ->] _]; destruct Hc2 as [[-> | ->] _];
      simpl; rewrite ?Ht1, ?Ht2; auto.
Qed.

(** ** Well-formed reports are stored *)

Lemma div_round_half_away_abs a b :
  0 < b ->
  Z.abs (Pg.div_round_half_away a b)
  = (if 2 * (Z.abs a mod b) >=? b then Z.abs a / b + 1 else Z.abs a / b).
Proof.
  intros Hb. unfold Pg.div_round_half_away.
  assert (0 <= Z.abs a / b) by (apply Z.div_pos; lia).
  destruct (2 * (Z.abs a mod b) >=? b); destruct (a <? 0); lia.
Qed.

Lemma div_round_half_away_bound a b B :
  0 < b -> 0 <= B -> Z.abs a <= B * b ->
  Z.abs (Pg.div_round_half_away a b) <= B.
Proof.
  intros Hb HB Ha. rewrite div_round_half_away_abs by assumption.
  pose proof (Z.div_mod (Z.abs a) b ltac:(lia)) as Hdm.
  pose proof (Z.mod_pos_bound (Z.abs a) b Hb) as Hm.
  assert (Hq : Z.abs a / b <= B).
  { apply Z.div_le_upper_bound; [assumption|]. lia. }
  destruct (Z.geb_spec (2 * (Z.abs a mod b)) b) as [Hge|Hlt]; [|assumption].
  destruct (Z.eq_dec (Z.abs a / b) B) as [E|N]; [|lia].
  exfalso. rewrite E in Hdm. nia.
Qed.

Lemma rescale_bound u sc B :
  0 <= sc -> 0 <= B -> Z.abs u <= B * 10 ^ sc ->
  Z.abs (Pg.rescale u sc 8) <= B * 10 ^ 8.
Proof.
  intros Hsc HB Hu. unfold Pg.rescale.
  destruct (Z.leb_spec sc 8) as [Hle|Hgt].
  - rewrite Z.abs_mul, (Z.abs_eq (10 ^ (8 - sc))) by (apply Z.pow_nonneg; lia).
    replace (10 ^ 8) with (10 ^ sc * 10 ^ (8 - sc))
      by (rewrite <- Z.pow_add_r by lia; f_equal; lia).
    rewrite Z.mul_assoc.
    apply Z.mul_le_mono_nonneg_r; [apply Z.pow_nonneg; lia | assumption].
  - apply div_round_half_away_bound.
    + apply Z.pow_pos_nonneg; lia.
    + apply Z.mul_nonneg_nonneg; [assumption|apply Z.pow_nonneg; lia].
    + replace (B * 10 ^ 8 * 10 ^ (sc - 8)) with (B * 10 ^ sc); [assumption|].
      rewrite <- Z.mul_assoc, <- Z.pow_add_r by lia. do 2 f_equal. lia.
Qed.

(** The exact decimal of a number within [bound]. *)
Lemma number_within_decimal bound v :
  0 <= bound ->
  number_within bound v = true ->
  exists u sc, exact_decimal v = Some (u, sc) /\ 0 <= sc /\
               Z.abs u <= bound * 10 ^ sc.
Proof.
  intros Hb. destruct v as [ | |z|f| | | ]; simpl; try discriminate.
  - intros H. apply Z.leb_le in H. exists z, 0. simpl. repeat split; lia.
  - destruct f as [s| | |s m e]; try discriminate.
    + intros _. exists 0, 0. simpl. repeat split; lia.
    + destruct (Z.leb_spec 0 e) as [He|He]; intros H; apply Z.leb_le in H.
      * eexists _, 0. split; [reflexivity|]. split; [lia|].
        rewrite Z.pow_0_r, Z.mul_1_r.
        assert (0 < 2 ^ e) by (apply Z.pow_pos_nonneg; lia).
        destruct s; rewrite Z.abs_mul, (Z.abs_eq (2 ^ e)) by lia; simpl Z.abs;
          assumption.
      * eexists _, (- e). split; [reflexivity|]. split; [lia|].
        assert (H5 : 0 < 5 ^ (- e)) by (apply Z.pow_pos_nonneg; lia).
        replace (10 ^ (- e)) with (2 ^ (- e) * 5 ^ (- e))
          by (rewrite <- Z.pow_mul_l; reflexivity).
        rewrite Z.mul_assoc.
        destruct s; rewrite Z.abs_mul, (Z.abs_eq (5 ^ (- e))) by lia;
          simpl Z.abs; apply Z.mul_le_mono_nonneg_r; lia.
Qed.

Lemma coerce_within p u sc bound :
  0 <= sc -> 0 <= bound -> Z.abs u <= bound * 10 ^ sc ->
  bound * 10 ^ 8 < 10 ^ p ->
  Pg.coerce (Pg.TDecimal p 8) (Pg.SNumeric (Pg.Num u sc))
  = inr (Pg.SNumeric (Pg.Num (Pg.rescale u sc 8) 8)).
Proof.
  intros Hsc Hb Hu Hp. cbn [Pg.coerce].
  pose proof (rescale_bound u sc bound Hsc Hb Hu).
  destruct (Z.ltb_spec (Z.abs (Pg.rescale u sc 8)) (10 ^ p)); [reflexivity|lia].
Qed.

Lemma well_formed_report_stored p items :
  well_formed_report items = true ->
  exists la lo ts, stored_report p items = Some (la, lo, ts).
Proof.
  unfold well_formed_report. rewrite !andb_true_iff. intros [[Hlat Hlon] Ht].
  apply number_within_decimal in Hlat; [|lia].
  apply number_within_decimal in Hlon; [|lia].
  destruct Hlat as (u1 & s1 & E1 & Hs1 & Hu1).
  destruct Hlon as (u2 & s2 & E2 & Hs2 & Hu2).
  unfold stored_report, report_of, stored_values.
  rewrite (numeric_encode_number p _ _ _ E1), (numeric_encode_number p _ _ _ E2).
  destruct (Py.dict_get items (Py.lit "time")) as [ | |z| | | | ];
    try discriminate.
  cbn [is_int64] in Ht. cbn [Asyncpg.int8_encode]. unfold Asyncpg.int8_of.
  rewrite Ht.
  rewrite (coerce_within 10 u1 s1 90) by (try assumption; lia).
  rewrite (coerce_within 11 u2 s2 180) by (try assumption; lia).
  cbn [sql_is_null orb]. eauto.
Qed.

(** ** Interleaved inserts *)

Lemma set_nth_length {A} i (x : A) l :
  List.length (set_nth i x l) = List.length l.
Proof.
  revert i; induction l as [|y l IH]; intros [|i]; simpl; auto.
Qed.

Lemma set_nth_Forall {A} (P : A -> Prop) i x l :
  Forall P l -> P x -> Forall P (set_nth i x l).
Proof.
  intros Hl Hx. revert i; induction Hl as [|y l Hy Hl IH]; intros [|i]; simpl;
    constructor; auto.
Qed.

Lemma nth_error_Forall {A} (P : A -> Prop) i x l :
  Forall P l -> nth_error l i = Some x -> P x.
Proof.
  intros Hl. revert i; induction Hl as [|y l Hy Hl IH]; intros [|i]; simpl;
    try discriminate.
  - intros E; inversion E; subst; assumption.
  - apply IH.
Qed.

Lemma count_set_nth (f : coroutine -> bool) i c x l :
  nth_error l i = Some c ->
  (List.length (filter f (set_nth i x l)) + (if f c then 1 else 0)
   = List.length (filter f l) + (if f x then 1 else 0))%nat.
Proof.
  revert i; induction l as [|y l IH]; intros [|i]; simpl; try discriminate.
  - intros E; inversion E; subst.
    destruct (f c); destruct (f x); simpl; lia.
  - intros E. specialize (IH i E).
    destruct (f y); simpl; lia.
Qed.

Lemma count_done_set_nth i c x l :
  nth_error l i = Some c -> is_done c = false ->
  count_done (set_nth i x l)
  = ((if is_done x then 1 else 0) + count_done l)%nat.
Proof.
  intros E Hc. pose proof (count_set_nth is_done i c x l E) as H.
  rewrite Hc in H. unfold count_done. lia.
Qed.

Lemma count_holding_set_nth i c x l :
  nth_error l i = Some c ->
  (count_holding (set_nth i x l) + (if is_holding c then 1 else 0)
   = count_holding l + (if is_holding x then 1 else 0))%nat.
Proof. apply count_set_nth. Qed.

Lemma count_done_app l1 l2 :
  count_done (l1 ++ l2) = (count_done l1 + count_done l2)%nat.
Proof. unfold count_done. rewrite filter_app, length_app. reflexivity. Qed.

Lemma well_formed_message_inv m :
  well_formed_message m = true ->
  exists items, Json.loads m = inr (Py.PDict items) /\
                well_formed_report items = true.
Proof.
  unfold well_formed_message.
  destruct (Json.loads m) as [e|v]; [discriminate|].
  destruct v; try discriminate. eauto.
Qed.

Lemma well_formed_datagram_inv d :
  well_formed_datagram d = true ->
  exists m, Utf8.decode (fst d) = inr m /\ well_formed_message m = true.
Proof.
  unfold well_formed_datagram.
  destruct (Utf8.decode (fst d)) as [e|m]; [discriminate|]. eauto.
Qed.

Lemma deliver_decoded d w m :
  Utf8.decode (fst d) = inr m ->
  deliver d w =
  (inr tt, mk_world (db_pool w) (pg w) (connect w)
             (stdout w ++ [UdpReceived (snd d) m])
             (tasks w ++ [InsertLocationData m])).
Proof.
  intros H. unfold deliver, try_except.
  rewrite (datagram_received_dispatches _ _ _ _ H). reflexivity.
Qed.

Lemma get_all_locations_world limit w p t :
  db_pool w = Some p -> Pg.location_data (pg w) = Some t ->
  snd (get_all_locations limit w) = w.
Proof.
  intros Hp Ht. destruct limit as [l|].
  - rewrite (get_all_locations_running w p t l Hp Ht). reflexivity.
  - change (get_all_locations None w) with (get_all_locations (Some 100) w).
    rewrite (get_all_locations_running w p t 100 Hp Ht). reflexivity.
Qed.

(** Split conjunctions, leaving defined predicates folded. *)
Ltac splits := repeat match goal with |- _ /\ _ => split end.

Lemma exec_schedule_inv p rows0 ev s :
  arrival_ok ev = true ->
  schedule_inv p rows0 s ->
  schedule_inv p rows0 (exec ev s) /\
  List.length (coroutines (exec ev s))
  = ((if is_arrival ev then 1 else 0) + List.length (coroutines s))%nat.
Proof.
  intros Hev (Hp & Htasks & (t & new & Ht & Hok & Hrows & Hlen) & Hcs & Huse).
  unfold schedule_inv.
  destruct ev as [d|i|dt| | |limit]; simpl in Hev |- *.
  - (* a datagram arrives *)
    destruct (well_formed_datagram_inv d Hev) as (m & Hdec & Hwf).
    rewrite (deliver_decoded d _ m Hdec). simpl. rewrite Htasks. simpl.
    split; [|rewrite length_app; simpl; lia].
    splits; auto.
    + exists t, new. cbn [sys_world coroutines pg clear_tasks].
      rewrite count_done_app.
      splits; auto.
      change (count_done [Created m]) with 0%nat. lia.
    + apply Forall_app; split; [assumption|]. repeat constructor. exact Hwf.
    + unfold count_holding. rewrite filter_app, length_app. simpl.
      unfold count_holding in Huse. lia.
  - (* a coroutine moves *)
    destruct (nth_error (coroutines s) i) as [c|] eqn:Hi;
      [|split; [splits; eauto 12|reflexivity]].
    pose proof (nth_error_Forall _ _ _ _ Hcs Hi) as Hc.
    destruct c as [m|m p' lat lon time|]; simpl in Hc.
    + destruct (well_formed_message_inv m Hc) as (items & Hj & Hwf).
      destruct (insert_enter_spec m (sys_world s))
        as (r & w' & He & _ & _ & _ & _ & Hcase).
      rewrite He. rewrite Hp, Hj in Hcase. destruct Hcase as [-> ->].
      destruct (in_use s <? Asyncpg.max_size p)%nat;
        [|split; [splits; eauto 12|reflexivity]].
      simpl. split; [|apply set_nth_length].
      splits; auto.
      * exists t, new. splits; auto.
        rewrite (count_done_set_nth i _ _ _ Hi) by reflexivity. simpl. exact Hlen.
      * apply set_nth_Forall; [assumption|]. simpl. split; [reflexivity|].
        destruct (well_formed_report_stored p items Hwf) as (la & lo & ts & E).
        eexists. exact E.
      * pose proof (count_holding_set_nth i _
                      (Holding m p (Py.dict_get items (Py.lit "lat"))
                         (Py.dict_get items (Py.lit "lon"))
                         (Py.dict_get items (Py.lit "time"))) _ Hi) as Hn.
        simpl in Hn. lia.
    + destruct Hc as [-> [[[la lo] ts] Hst]].
      destruct (insert_resume_spec m p lat lon time (sys_world s) t Ht Hok)
        as (w' & Hr & Hp' & _ & Htasks' & _ & Hcase).
      rewrite Hr. simpl. rewrite Hst in Hcase. destruct Hcase as [Hpg _].
      split; [|apply set_nth_length].
      splits; try congruence.
      * destruct (table_ok_store (pg (sys_world s)) t la lo ts
                    (Pg.clock (pg (sys_world s))) Hok) as (t' & E1 & E2 & E3).
        exists t', (new ++ [location_row (Pg.tbl_seq t + 1) la lo ts
                              (Pg.clock (pg (sys_world s)))]).
        rewrite Hpg. splits; auto.
        -- rewrite E3, Hrows, app_assoc. reflexivity.
        -- rewrite (count_done_set_nth i _ _ _ Hi) by reflexivity.
           rewrite length_app. simpl. lia.
      * apply set_nth_Forall; simpl; auto.
      * pose proof (count_holding_set_nth i _ Done _ Hi) as Hn.
        simpl in Hn. lia.
    + split; [splits; eauto 12|reflexivity].
  - (* time passes *)
    split; [|reflexivity]. splits; auto. exists t, new. simpl.
    rewrite Ht. auto.
  - (* the relation is created again *)
    rewrite Hp. split; [|reflexivity]. unfold_m. simpl.
    unfold Pg.create_table_if_not_exists. rewrite Ht.
    splits; simpl; auto. exists t, new. auto.
  - (* a latest query *)
    rewrite (get_latest_location_spec _ p t Hp Ht). simpl.
    split; [|reflexivity]. splits; eauto 12.
  - (* a recent query *)
    rewrite (get_all_locations_world limit _ p t Hp Ht).
    split; [|reflexivity]. splits; eauto 12.
Qed.

Lemma deliver_pg d w : pg (snd (deliver d w)) = pg w.
Proof. run_m. Qed.

(** No event updates or deletes a stored row, and the service keeps
    running: whatever the datagram, the coroutine or the request. *)
Lemma exec_running ev s :
  running (sys_world s) ->
  running (sys_world (exec ev s)) /\
  exists new,
    rows_of (sys_world (exec ev s)) = rows_of (sys_world s) ++ new.
Proof.
  intros Hrun.
  assert (Keep : forall w', db_pool w' = db_pool (sys_world s) ->
                            pg w' = pg (sys_world s) ->
                            running w' /\
                            exists new, rows_of w' = rows_of (sys_world s) ++ new).
  { intros w' E1 E2. unfold running, rows_of. rewrite E1, E2. split; [exact Hrun|].
    exists []. symmetry; apply app_nil_r. }
  pose proof Hrun as ((p & Hp & Hsz) & t & Ht & Hok).
  destruct ev as [d|i|dt| | |limit]; simpl.
  - apply Keep; [apply deliver_db_pool | apply deliver_pg].
  - destruct (nth_error (coroutines s) i) as [c|]; [|apply Keep; reflexivity].
    destruct c as [m|m p' lat lon time|]; [| |apply Keep; reflexivity].
    + destruct (insert_enter_spec m (sys_world s))
        as (r & w' & He & E1 & E2 & _).
      rewrite He.
      destruct r as [[p' [[lat lon] time]]|]; [|apply Keep; assumption].
      destruct (in_use s <? Asyncpg.max_size p')%nat;
        apply Keep; auto.
    + destruct (insert_resume_spec m p' lat lon time (sys_world s) t Ht Hok)
        as (w' & Hr & Hp' & _ & _ & _ & Hcase).
      rewrite Hr. simpl.
      destruct (stored_values p' lat lon time) as [[[la lo] ts]|].
      * destruct Hcase as [Hpg _].
        destruct (table_ok_store (pg (sys_world s)) t la lo ts
                    (Pg.clock (pg (sys_world s))) Hok) as (t' & E1 & E2 & E3).
        unfold running, rows_of. rewrite Hp', Hpg, E1, Ht, E3.
        split; [split; eauto|eauto].
      * destruct Hcase as [[Hpg|Hpg] _]; [apply Keep; assumption|].
        destruct (table_ok_bump (pg (sys_world s)) t Hok) as (t' & E1 & E2 & E3).
        unfold running, rows_of. rewrite Hp', Hpg, E1, Ht, E3.
        split; [split; eauto|]. exists []. symmetry; apply app_nil_r.
  - unfold running, rows_of. simpl. rewrite Ht.
    split; [split; eauto|]. exists []. symmetry; apply app_nil_r.
  - rewrite Hp. apply Keep; simpl; [congruence|].
    unfold Pg.create_table_if_not_exists. rewrite Ht. reflexivity.
  - rewrite (get_latest_location_spec _ p t Hp Ht). apply Keep; reflexivity.
  - rewrite (get_all_locations_world limit _ p t Hp Ht). apply Keep; reflexivity.
Qed.

Lemma run_schedule_app sch1 sch2 s :
  run_schedule (sch1 ++ sch2) s = run_schedule sch2 (run_schedule sch1 s).
Proof. apply fold_left_app. Qed.

Lemma run_schedule_cons ev sch s :
  run_schedule (ev :: sch) s = run_schedule sch (exec ev s).
Proof. reflexivity. Qed.

Lemma run_schedule_running sch s :
  running (sys_world s) ->
  running (sys_world (run_schedule sch s)) /\
  exists new,
    rows_of (sys_world (run_schedule sch s)) = rows_of (sys_world s) ++ new.
Proof.
  revert s; induction sch as [|ev sch IH]; intros s Hrun.
  - split; [assumption|]. exists []. symmetry; apply app_nil_r.
  - rewrite run_schedule_cons.
    destruct (exec_running ev s Hrun) as (Hrun1 & new1 & E1).
    destruct (IH _ Hrun1) as (Hrun2 & new2 & E2).
    split; [assumption|]. exists (new1 ++ new2).
    rewrite E2, E1, app_assoc. reflexivity.
Qed.

Lemma run_schedule_inv p rows0 sch s :
  forallb arrival_ok sch = true ->
  schedule_inv p rows0 s ->
  schedule_inv p rows0 (run_schedule sch s) /\
  List.length (coroutines (run_schedule sch s))
  = (count_arrivals sch + List.length (coroutines s))%nat.
Proof.
  revert s; induction sch as [|ev sch IH]; intros s Hok Hinv.
  - auto.
  - rewrite run_schedule_cons.
    simpl in Hok. apply andb_true_iff in Hok. destruct Hok as [Hev Hsch].
    destruct (exec_schedule_inv p rows0 ev s Hev Hinv) as (Hinv1 & Hlen1).
    destruct (IH _ Hsch Hinv1) as (Hinv2 & Hlen2).
    split; [assumption|]. rewrite Hlen2, Hlen1.
    unfold count_arrivals. simpl. destruct (is_arrival ev); simpl; lia.
Qed.

(** *** Every schedule can be run to its end *)

Lemma find_coroutine (f : coroutine -> bool) cs :
  (0 < List.length (filter f cs))%nat ->
  exists i c, nth_error cs i = Some c /\ f c = true.
Proof.
  induction cs as [|c cs IH]; simpl; [lia|].
  destruct (f c) eqn:E.
  - intros _. exists 0%nat, c. auto.
  - intros H. destruct (IH H) as (i & c' & Hi & Hc). exists (S i), c'. auto.
Qed.

Lemma count_partition cs :
  (List.length (filter is_created cs) + count_holding cs + count_done cs
   = List.length cs)%nat.
Proof.
  unfold count_holding, count_done.
  induction cs as [|c cs IH]; simpl; [reflexivity|].
  destruct c; simpl; lia.
Qed.

Lemma all_done_count s :
  all_done s = true <-> count_done (coroutines s) = List.length (coroutines s).
Proof.
  unfold all_done, count_done.
  induction (coroutines s) as [|c cs IH]; simpl; [tauto|].
  destruct (is_done c); simpl.
  - rewrite IH. lia.
  - split; [discriminate|]. intros H.
    pose proof (filter_length_le is_done cs). lia.
Qed.

Lemma schedule_completes p rows0 n s :
  (0 < Asyncpg.max_size p)%nat ->
  schedule_inv p rows0 s ->
  (2 * List.length (filter is_created (coroutines s))
   + count_holding (coroutines s) <= n)%nat ->
  exists sch,
    forallb arrival_ok sch = true /\ count_arrivals sch = 0%nat /\
    all_done (run_schedule sch s) = true.
Proof.
  intros Hsz. revert s. induction n as [|n IH]; intros s Hinv Hn.
  - exists []. repeat split. apply all_done_count. simpl.
    pose proof (count_partition (coroutines s)). lia.
  - destruct (Nat.eq_dec (count_holding (coroutines s)) 0) as [Hh|Hh].
    + destruct (Nat.eq_dec (List.length (filter is_created (coroutines s))) 0)
        as [Hc|Hc].
      * exists []. repeat split. apply all_done_count. simpl.
        pose proof (count_partition (coroutines s)). lia.
      * destruct (find_coroutine is_created (coroutines s) ltac:(lia))
          as (i & c & Hi & Hci).
        destruct c as [m| |]; try discriminate.
        destruct (exec_schedule_inv p rows0 (Run i) s eq_refl Hinv)
          as (Hinv1 & _).
        pose proof Hinv as (Hp & _ & _ & Hcs & Huse).
        pose proof (nth_error_Forall _ _ _ _ Hcs Hi) as Hwf. simpl in Hwf.
        destruct (well_formed_message_inv m Hwf) as (items & Hj & _).
        destruct (insert_enter_spec m (sys_world s))
          as (r & w' & He & _ & _ & _ & _ & Hcase).
        rewrite Hp, Hj in Hcase. destruct Hcase as [-> ->].
        assert (Hfree : (in_use s <? Asyncpg.max_size p)%nat = true)
          by (apply Nat.ltb_lt; lia).
        assert (Hex : exec (Run i) s
                      = mk_system (sys_world s) (S (in_use s))
                          (set_nth i
                             (Holding m p (Py.dict_get items (Py.lit "lat"))
                                (Py.dict_get items (Py.lit "lon"))
                                (Py.dict_get items (Py.lit "time")))
                             (coroutines s))).
        { simpl. rewrite Hi, He, Hfree. reflexivity. }
        destruct (IH (exec (Run i) s) Hinv1) as (sch & H1 & H2 & H3).
        { rewrite Hex. simpl.
          pose proof (count_set_nth is_created i _
                        (Holding m p (Py.dict_get items (Py.lit "lat"))
                           (Py.dict_get items (Py.lit "lon"))
                           (Py.dict_get items (Py.lit "time"))) _ Hi) as C1.
          pose proof (count_holding_set_nth i _
                        (Holding m p (Py.dict_get items (Py.lit "lat"))
                           (Py.dict_get items (Py.lit "lon"))
                           (Py.dict_get items (Py.lit "time"))) _ Hi) as C2.
          simpl in C1, C2. lia. }
        exists (Run i :: sch). rewrite run_schedule_cons. auto.
    + destruct (find_coroutine is_holding (coroutines s))
        as (i & c & Hi & Hci); [unfold count_holding in Hh; lia|].
      destruct c as [|m p' lat lon time|]; try discriminate.
      destruct (exec_schedule_inv p rows0 (Run i) s eq_refl Hinv)
        as (Hinv1 & _).
      destruct (IH (exec (Run i) s) Hinv1) as (sch & H1 & H2 & H3).
      { simpl. rewrite Hi. simpl.
        pose proof (count_set_nth is_created i _ Done _ Hi) as C1.
        pose proof (count_holding_set_nth i _ Done _ Hi) as C2.
        simpl in C1, C2. lia. }
      exists (Run i :: sch). rewrite run_schedule_cons. auto.
Qed.

Lemma sorted_app_inv l1 l2 :
  StronglySorted Z.lt (l1 ++ l2) ->
  StronglySorted Z.lt l2 /\
  Forall (fun x => Forall (fun y => y < x) l1) l2.
Proof.
  induction l1 as [|a l1 IH]; simpl; intros H.
  - split; [assumption|]. apply Forall_forall; intros; constructor.
  - inversion H as [|? ? Hs Ha]; subst. destruct (IH Hs) as [H2 Hall].
    split; [assumption|].
    apply Forall_app in Ha. destruct Ha as [_ Ha].
    rewrite Forall_forall in *. intros x Hx.
    constructor; [apply Ha, Hx | apply Hall, Hx].
Qed.

Lemma sorted_NoDup l : StronglySorted Z.lt l -> NoDup l.
Proof.
  induction 1 as [|x l Hs IH Hx]; constructor; [|assumption].
  intros Hin. rewrite Forall_forall in Hx. specialize (Hx x Hin). lia.
Qed.

Lemma running_rows_sorted w :
  running w -> StronglySorted Z.lt (map Pg.row_id (rows_of w)).
Proof.
  intros (_ & t & Ht & _ & _ & Hinc). unfold rows_of. rewrite Ht.
  apply increasing_sorted. assumption.
Qed.

(** C4: in a running service, whatever the schedule of datagrams,
    coroutine steps, clock ticks and requests, (1) the rows stored before
    are still there, unchanged and in place, and the identifiers of all
    rows are distinct and strictly increasing in insertion order; and when
    the schedule delivers K well-formed datagrams, (2) it can always be
    run to its end, and (3) however its coroutines were interleaved, once
    they are all over there are exactly K new rows, with K distinct
    identifiers, strictly increasing and above every earlier one. *)
Theorem concurrent_inserts (w : world) (sch : list event) :
  running w ->
  let s := run_schedule sch (mk_system w 0 []) in
  ((exists new, rows_of (sys_world s) = rows_of w ++ new) /\
   StronglySorted Z.lt (map Pg.row_id (rows_of (sys_world s))) /\
   NoDup (map Pg.row_id (rows_of (sys_world s)))) /\
  (tasks w = [] -> forallb arrival_ok sch = true ->
   (exists rest,
      forallb arrival_ok rest = true /\ count_arrivals rest = 0%nat /\
      all_done (run_schedule (sch ++ rest) (mk_system w 0 [])) = true) /\
   (all_done s = true ->
    exists new,
      rows_of (sys_world s) = rows_of w ++ new /\
      List.length new = count_arrivals sch /\
      StronglySorted Z.lt (map Pg.row_id new) /\
      NoDup (map Pg.row_id new) /\
      Forall (fun id => Forall (fun old => old < id)
                               (map Pg.row_id (rows_of w)))
             (map Pg.row_id new))).
Proof.
  intros Hrun s.
  destruct (run_schedule_running sch (mk_system w 0 []) Hrun)
    as (Hrun' & new0 & Hnew0).
  fold s in Hrun', Hnew0. simpl in Hnew0.
  pose proof (running_rows_sorted _ Hrun') as Hsorted.
  split.
  { split; [eauto|]. split; [assumption|]. apply sorted_NoDup; assumption. }
  intros Htasks Hok.
  pose proof Hrun as ((p & Hp & Hsz) & t & Ht & Htok).
  assert (Hinv0 : schedule_inv p (rows_of w) (mk_system w 0 [])).
  { unfold schedule_inv, rows_of. simpl. rewrite Ht. splits; auto.
    exists t, []. splits; auto. symmetry; apply app_nil_r. }
  destruct (run_schedule_inv p (rows_of w) sch _ Hok Hinv0) as (Hinv & Hlen).
  fold s in Hinv, Hlen. simpl in Hlen.
  split.
  - destruct (schedule_completes p (rows_of w) _ s Hsz Hinv (le_n _))
      as (rest & H1 & H2 & H3).
    exists rest. rewrite run_schedule_app. auto.
  - intros Hdone. apply all_done_count in Hdone.
    destruct Hinv as (_ & _ & (t' & new & Ht' & _ & Hrows & Hcount) & _).
    assert (Hrows' : rows_of (sys_world s) = rows_of w ++ new).
    { unfold rows_of at 1. rewrite Ht'. exact Hrows. }
    exists new. rewrite Hrows', map_app in Hsorted.
    destruct (sorted_app_inv _ _ Hsorted) as [Hs Hall].
    splits; auto.
    + lia.
    + apply sorted_NoDup; assumption.
Qed.

(** ** The claims on concrete runs *)

Lemma example_world_1_running : running example_world_1.
Proof.
  split.
  - exists example_pool. split; [reflexivity|]. simpl. lia.
  - eexists. split; [vm_compute; reflexivity|]. repeat split.
Qed.

(** The example of the specification: the report is stored and the
    latest query returns it. *)
Example ingest_example :
  fst (get_latest_location
         (snd (receive
                 [json_datagram
                    "{'lat': 40.7128, 'lon': -74.0060, 'time': 1700000000}"]
                 example_world)))
  = inr (Record_ [ ("latitude", Pg.SNumeric (Pg.Num 4071280000 8));
                   ("longitude", Pg.SNumeric (Pg.Num (-7400600000) 8));
                   ("timestamp_value", Pg.SInt 1700000000);
                   ("created_at", Pg.STimestamp 0) ]%string).
Proof. vm_compute. reflexivity. Qed.

(** The other example: after [not json] there is no row and the next
    valid message is still processed. *)
Example not_json_example :
  rows_of (snd (receive [json_datagram "not json"] example_world)) = [] /\
  rows_of (snd (receive [json_datagram "not json";
                         json_datagram "{'lat': 1, 'lon': 2, 'time': 3}"]
                        example_world))
  = rows_of example_world_1.
Proof. split; vm_compute; reflexivity. Qed.

(** Under the selector event loop the listener also survives the
    exception of C1: the loop reports it and reads on. *)
Example invalid_utf8_then_valid :
  rows_of (snd (receive [([xff], example_addr);
                         json_datagram "{'lat': 1, 'lon': 2, 'time': 3}"]
                        example_world))
  = rows_of example_world_1 /\
  stdout (snd (deliver ([xff], example_addr) example_world))
  = stdout example_world ++ [CallbackException Py.UnicodeDecodeError].
Proof. split; vm_compute; reflexivity. Qed.

(** C2 fails as stated: the report [{"lat": 1, "lon": 2}] has no [time];
    it is dispatched, and no row is stored for it. *)
Lemma missing_time_counterexample :
  Json.loads (json_message "{'lat': 1, 'lon': 2}")
    = inr (Py.PDict [(Py.lit "lat", Py.PInt 1); (Py.lit "lon", Py.PInt 2)]) /\
  has_key [(Py.lit "lat", Py.PInt 1); (Py.lit "lon", Py.PInt 2)] "time"
    = false /\
  rows_of (snd (insert_location_data (json_message "{'lat': 1, 'lon': 2}")
                                     example_world)) = [] /\
  ~ stored_with_nulls example_world (json_message "{'lat': 1, 'lon': 2}")
      [(Py.lit "lat", Py.PInt 1); (Py.lit "lon", Py.PInt 2)].
Proof.
  split; [vm_compute; reflexivity|]. split; [vm_compute; reflexivity|].
  split; [vm_compute; reflexivity|].
  intros (r & H & _). vm_compute in H. discriminate.
Qed.

(** C3 fails as stated: the report [{"lat": 0.001953125, "lon": 2,
    "time": 3}] is inserted; the latest query then returns four fields,
    none of them a reserved column, and a latitude of [0.00195313]. *)
Lemma rounded_latitude_counterexample :
  fst (get_latest_location
         (snd (insert_location_data
                 (json_message "{'lat': 0.001953125, 'lon': 2, 'time': 3}")
                 example_world)))
  = inr (Record_ [ ("latitude", Pg.SNumeric (Pg.Num 195313 8));
                   ("longitude", Pg.SNumeric (Pg.Num 200000000 8));
                   ("timestamp_value", Pg.SInt 3);
                   ("created_at", Pg.STimestamp 0) ]%string) /\
  exact_decimal (Py.PFloat (S754_finite false 4503599627370496 (-61)))
  = Some (1953125 * 10 ^ 52, 61) /\
  ~ same_number (1953125 * 10 ^ 52, 61) (Pg.SNumeric (Pg.Num 195313 8)) /\
  ~ latest_as_claimed example_world
      (json_message "{'lat': 0.001953125, 'lon': 2, 'time': 3}")
      [ (Py.lit "lat", Py.PFloat (S754_finite false 4503599627370496 (-61)));
        (Py.lit "lon", Py.PInt 2); (Py.lit "time", Py.PInt 3) ].
Proof.
  split; [vm_compute; reflexivity|]. split; [vm_compute; reflexivity|].
  split; [vm_compute; discriminate|].
  intros (r & nlat & nlon & z & la & lo & H & _ & _ & _ & _ & _ & _ & _ & _
          & Hacc & _).
  vm_compute in H. inversion H; subst r. vm_compute in Hacc. discriminate.
Qed.

(** C5 fails as stated: the limit [2^63] is a positive integer, and the
    "recent" query of a running service with one row raises instead of
    returning a row. *)
Lemma limit_beyond_bigint_counterexample :
  0 < 2 ^ 63 /\
  rows_of example_world_1 <> [] /\
  fst (get_all_locations (Some (2 ^ 63)) example_world_1) = inl Py.DataError /\
  ~ recent_as_claimed example_world_1 (2 ^ 63).
Proof.
  split; [reflexivity|]. split; [vm_compute; discriminate|].
  split; [vm_compute; reflexivity|].
  intros (rs & H & _). vm_compute in H. discriminate.
Qed.

(** ** The theorems at concrete inputs *)

(** C7 at the unreachable server: after a datagram, its coroutine and a
    tick, both endpoints answer 503. *)
Lemma degraded_start_witness :
  connect unreachable_world = inl Py.ConnectionFailure /\
  status_code
    (fst (get_latest_location
            (sys_world
               (run_schedule
                  [Arrive (json_datagram "{'lat': 1, 'lon': 2, 'time': 3}");
                   Run 0; Tick 5]
                  (mk_system (snd (lifespan_startup unreachable_world))
                             0 []))))) = 503 /\
  status_code
    (fst (get_all_locations (Some 5)
            (sys_world
               (run_schedule
                  [Arrive (json_datagram "{'lat': 1, 'lon': 2, 'time': 3}");
                   Run 0; Tick 5]
                  (mk_system (snd (lifespan_startup unreachable_world))
                             0 []))))) = 503.
Proof.
  split; [reflexivity|].
  pose proof (degraded_start_answers_503 unreachable_world
                Py.ConnectionFailure
                [Arrive (json_datagram "{'lat': 1, 'lon': 2, 'time': 3}");
                 Run 0; Tick 5]
                (Some 5) eq_refl) as H.
  cbv zeta in H. destruct H as (_ & _ & _ & _ & _ & H1 & H2).
  split; assumption.
Defined.

(** C10 at the limits 0 and -1 on the service with one row. *)
Lemma forwards_limit_witness :
  db_pool example_world_1 = Some example_pool /\
  fst (get_all_locations (Some 0) example_world_1) = inr (Records []) /\
  fst (get_all_locations (Some (-1)) example_world_1)
  = inl Py.InvalidRowCountInLimitClauseError.
Proof.
  split; [vm_compute; reflexivity|].
  destruct (get_all_locations_forwards_limit example_world_1 example_pool
              (Pg.mk_table Pg.location_data_columns
                           (rows_of example_world_1) 1)
              (-1) ltac:(vm_compute; reflexivity)
              ltac:(vm_compute; reflexivity))
    as (_ & _ & H0 & Hneg & _).
  split; [exact H0|].
  apply Hneg; [lia | vm_compute; discriminate].
Defined.

(** C5, amended, at limit 1 on the service with one row. *)
Lemma recent_witness :
  running example_world_1 /\ 0 < 1 <= Asyncpg.int64_max /\
  recent_as_claimed example_world_1 1.
Proof.
  split; [exact example_world_1_running|].
  split; [vm_compute; split; [reflexivity | discriminate]|].
  destruct (get_all_locations_recent example_world_1 1
              example_world_1_running
              ltac:(vm_compute; split; [reflexivity | discriminate]))
    as [H _].
  exact H.
Defined.

(** C2, amended, at the report without [time]. *)
Lemma missing_field_witness :
  has_key [(Py.lit "lat", Py.PInt 1); (Py.lit "lon", Py.PInt 2)] "time"
    = false /\
  tasks (snd (datagram_received
                (Utf8.encode_ascii (quoted "{'lat': 1, 'lon': 2}"))
                example_addr example_world))
    = tasks example_world
      ++ [InsertLocationData (json_message "{'lat': 1, 'lon': 2}")] /\
  exists w',
    insert_location_data (json_message "{'lat': 1, 'lon': 2}") example_world
      = (inr tt, w') /\
    rows_of w' = rows_of example_world.
Proof.
  split; [reflexivity|].
  destruct (missing_field_is_dispatched_and_not_stored example_world
              (Utf8.encode_ascii (quoted "{'lat': 1, 'lon': 2}"))
              example_addr (json_message "{'lat': 1, 'lon': 2}")
              [(Py.lit "lat", Py.PInt 1); (Py.lit "lon", Py.PInt 2)]
              example_world_running
              ltac:(vm_compute; reflexivity) ltac:(vm_compute; reflexivity)
              (or_intror (or_intror eq_refl)))
    as (_ & Htasks & w' & Hrun & Hrows & _).
  split; [exact Htasks|]. exists w'. split; assumption.
Defined.

(** C3, amended, at the report of the specification. *)
Lemma latest_after_insert_witness :
  fst (get_latest_location
         (snd (insert_location_data
                 (json_message
                    "{'lat': 40.7128, 'lon': -74.0060, 'time': 1700000000}")
                 example_world)))
  = inr (Record_
           [ ("latitude"%string,
              Pg.SNumeric
                (Pg.Num (Pg.rescale (5729817215912798 * 5 ^ 47) 47 8) 8));
             ("longitude"%string,
              Pg.SNumeric
                (Pg.Num (Pg.rescale (-5207709281612202 * 5 ^ 46) 46 8) 8));
             ("timestamp_value"%string, Pg.SInt 1700000000);
             ("created_at"%string,
              Pg.STimestamp (Pg.clock (pg example_world))) ]).
Proof.
  pose proof
    (latest_after_insert example_world
       (json_message "{'lat': 40.7128, 'lon': -74.0060, 'time': 1700000000}")
       [ (Py.lit "lat", Py.PFloat (S754_finite false 5729817215912798 (-47)));
         (Py.lit "lon", Py.PFloat (S754_finite true 5207709281612202 (-46)));
         (Py.lit "time", Py.PInt 1700000000) ]
       (location_row 1 (Pg.SNumeric (Pg.Num 4071280000 8))
          (Pg.SNumeric (Pg.Num (-7400600000) 8))
          (Pg.SInt 1700000000) 0)
       (5729817215912798 * 5 ^ 47) 47
       (-5207709281612202 * 5 ^ 46) 46 1700000000
       example_world_running
       ltac:(vm_compute; reflexivity) ltac:(vm_compute; reflexivity)
       ltac:(vm_compute; reflexivity) ltac:(vm_compute; reflexivity)
       ltac:(vm_compute; reflexivity)) as H.
  cbv zeta in H. destruct H as (_ & _ & _ & _ & _ & _ & _ & H & _).
  exact H.
Defined.

(** C9 at two reports that differ in their other keys only. *)
Lemma other_keys_witness :
  report_of [ (Py.lit "lat", Py.PInt 1); (Py.lit "lon", Py.PInt 2);
              (Py.lit "time", Py.PInt 3) ]
  = report_of [ (Py.lit "speed", Py.PInt 9); (Py.lit "lat", Py.PInt 1);
                (Py.lit "lon", Py.PInt 2); (Py.lit "time", Py.PInt 3);
                (Py.lit "provider", Py.PStr (Py.lit "gps")) ] /\
  ((rows_of (snd (insert_location_data
                    (json_message "{'lat': 1, 'lon': 2, 'time': 3}")
                    example_world)) = rows_of example_world /\
    rows_of (snd (insert_location_data
                    (json_message
                       "{'speed': 9, 'lat': 1, 'lon': 2, 'time': 3, 'provider': 'gps'}")
                    example_world_1)) = rows_of example_world_1) \/
   exists r1 r2,
     rows_of (snd (insert_location_data
                     (json_message "{'lat': 1, 'lon': 2, 'time': 3}")
                     example_world)) = rows_of example_world ++ [r1] /\
     rows_of (snd (insert_location_data
                     (json_message
                        "{'speed': 9, 'lat': 1, 'lon': 2, 'time': 3, 'provider': 'gps'}")
                     example_world_1)) = rows_of example_world_1 ++ [r2] /\
     forall col, col <> "id"%string -> col <> "created_at"%string ->
                 Pg.field r1 col = Pg.field r2 col).
Proof.
  split; [vm_compute; reflexivity|].
  exact (other_keys_have_no_effect example_world example_world_1
           (json_message "{'lat': 1, 'lon': 2, 'time': 3}")
           (json_message
              "{'speed': 9, 'lat': 1, 'lon': 2, 'time': 3, 'provider': 'gps'}")
           [ (Py.lit "lat", Py.PInt 1); (Py.lit "lon", Py.PInt 2);
             (Py.lit "time", Py.PInt 3) ]
           [ (Py.lit "speed", Py.PInt 9); (Py.lit "lat", Py.PInt 1);
             (Py.lit "lon", Py.PInt 2); (Py.lit "time", Py.PInt 3);
             (Py.lit "provider", Py.PStr (Py.lit "gps")) ]
           example_world_running example_world_1_running
           ltac:(vm_compute; reflexivity)
           ltac:(vm_compute; reflexivity) ltac:(vm_compute; reflexivity)
           ltac:(vm_compute; reflexivity)).
Defined.

(** C4 at that interleaving: it is complete, and left two new rows. *)
Lemma concurrent_inserts_witness :
  all_done (run_schedule example_schedule (mk_system example_world_1 0 []))
    = true /\
  exists new,
    rows_of (sys_world (run_schedule example_schedule
                          (mk_system example_world_1 0 [])))
      = rows_of example_world_1 ++ new /\
    List.length new = 2%nat /\
    StronglySorted Z.lt (map Pg.row_id new).
Proof.
  split; [vm_compute; reflexivity|].
  destruct (concurrent_inserts example_world_1 example_schedule
              example_world_1_running) as [_ H].
  destruct (H ltac:(vm_compute; reflexivity) ltac:(vm_compute; reflexivity))
    as [_ H3].
  destruct (H3 ltac:(vm_compute; reflexivity))
    as (new & Hrows & Hlen & Hsorted & _).
  exists new. split; [exact Hrows|]. split; [exact Hlen | exact Hsorted].
Defined.

(** C6 on the empty relation and after one insert into it. *)
Lemma latest_answers_witness :
  status_code (fst (get_latest_location unreachable_world)) = 503 /\
  status_code (fst (get_latest_location example_world)) = 404 /\
  status_code (fst (get_latest_location example_world_1)) = 200.
Proof.
  destruct (get_latest_location_answers unreachable_world) as (H503 & _ & _).
  destruct (get_latest_location_answers example_world) as (_ & H404 & H200).
  split; [apply H503; reflexivity|].
  split; [apply (H404 example_pool (Pg.mk_table Pg.location_data_columns [] 0));
          reflexivity|].
  vm_compute. reflexivity.
Defined.

(** * Further properties of the program *)

(** ** The coroutine of a report *)

(** X1: [insert_location_data] never raises: whatever the message and
    whatever the state of the pool and of the server, it returns, prints
    exactly one line and leaves the global [db_pool] and the created
    tasks as they are. *)
Theorem insert_location_data_never_raises (message : Py.str) (w : world) :
  fst (insert_location_data message w) = inr tt /\
  db_pool (snd (insert_location_data message w)) = db_pool w /\
  connect (snd (insert_location_data message w)) = connect w /\
  tasks (snd (insert_location_data message w)) = tasks w /\
  exists l, stdout (snd (insert_location_data message w)) = stdout w ++ [l].
Proof.
  unfold_m. simpl.
  repeat (case_match; simpl); solve_spec.
Qed.

(** ** The queries *)

Transparent Asyncpg.fetchrow.

Lemma fetch_select_keeps_server p st args s :
  match st with Asyncpg.InsertReturningId _ => False | _ => True end ->
  fst (Asyncpg.fetch p st args s) = s.
Proof.
  intros Hst. unfold Asyncpg.fetch.
  destruct (Asyncpg.param_types st s); [reflexivity|].
  destruct (Asyncpg.encode_args p l args); [reflexivity|].
  destruct st; [contradiction| |]; reflexivity.
Qed.

Lemma fetchrow_select_keeps_server p st args s :
  match st with Asyncpg.InsertReturningId _ => False | _ => True end ->
  fst (Asyncpg.fetchrow p st args s) = s.
Proof.
  intros Hst. unfold Asyncpg.fetchrow.
  pose proof (fetch_select_keeps_server p st args s Hst) as H.
  destruct (Asyncpg.fetch p st args s) as [s' [e|rows]]; exact H.
Qed.

Opaque Asyncpg.fetchrow.

Lemma get_latest_location_keeps_world w : snd (get_latest_location w) = w.
Proof.
  unfold_m. destruct (db_pool w) as [p|] eqn:Hp; [|reflexivity].
  pose proof (fetchrow_select_keeps_server p latest_query [] (pg w) I) as H.
  destruct (Asyncpg.fetchrow p latest_query [] (pg w)) as [s' r].
  simpl in H. subst s'. destruct w; simpl.
  destruct r as [e|[r|]]; reflexivity.
Qed.

Lemma get_all_locations_keeps_world limit w :
  snd (get_all_locations limit w) = w.
Proof.
  unfold_m. destruct (db_pool w) as [p|] eqn:Hp; [|reflexivity].
  match goal with
  | |- context [Asyncpg.fetch p all_query ?a (pg w)] =>
      pose proof (fetch_select_keeps_server p all_query a (pg w) I) as H;
      destruct (Asyncpg.fetch p all_query a (pg w)) as [s' r]
  end.
  simpl in H. subst s'. destruct w; simpl.
  destruct r as [e|rs]; reflexivity.
Qed.

(** X3: both query endpoints are read-only: whatever the state, with or
    without a pool or a relation, and whatever the limit, they leave the
    world exactly as it was: no row, no sequence value, no global and no
    line of output changes. *)
Theorem queries_are_read_only (w : world) (limit : option Z) :
  snd (get_latest_location w) = w /\
  snd (get_all_locations limit w) = w.
Proof.
  split; [apply get_latest_location_keeps_world
         | apply get_all_locations_keeps_world].
Qed.

(** *** ORDER BY id DESC on any relation *)

Lemma insert_desc_perm r l : Permutation (Pg.insert_desc r l) (r :: l).
Proof.
  induction l as [|r0 l IH]; simpl; [reflexivity|].
  destruct (Pg.row_id r0 <? Pg.row_id r); [reflexivity|].
  rewrite IH. apply perm_swap.
Qed.

Lemma order_by_id_desc_perm rows :
  Permutation (Pg.order_by_id_desc rows) rows.
Proof.
  induction rows as [|r rows IH]; simpl; [reflexivity|].
  rewrite insert_desc_perm. constructor. exact IH.
Qed.

Lemma insert_desc_sorted r l :
  StronglySorted (fun a b => Pg.row_id b <= Pg.row_id a) l ->
  StronglySorted (fun a b => Pg.row_id b <= Pg.row_id a) (Pg.insert_desc r l).
Proof.
  induction 1 as [|r0 l Hs IH H0]; simpl.
  - constructor; constructor.
  - destruct (Z.ltb_spec (Pg.row_id r0) (Pg.row_id r)) as [Hlt|Hge].
    + constructor; [constructor; assumption|].
      constructor; [lia|].
      eapply Forall_impl; [|exact H0]. simpl. intros; lia.
    + constructor; [exact IH|].
      eapply Permutation_Forall; [symmetry; apply insert_desc_perm|].
      constructor; assumption.
Qed.

Lemma order_by_id_desc_sorted rows :
  StronglySorted (fun a b => Pg.row_id b <= Pg.row_id a)
                 (Pg.order_by_id_desc rows).
Proof.
  induction rows as [|r rows IH]; simpl; [constructor|].
  apply insert_desc_sorted, IH.
Qed.

Lemma order_by_id_desc_head rows r rest :
  Pg.order_by_id_desc rows = r :: rest ->
  In r rows /\ forall r', In r' rows -> Pg.row_id r' <= Pg.row_id r.
Proof.
  intros E.
  pose proof (order_by_id_desc_perm rows) as Hp.
  pose proof (order_by_id_desc_sorted rows) as Hs.
  rewrite E in Hp, Hs. split.
  - eapply Permutation_in; [exact Hp|]. left; reflexivity.
  - intros r' Hr'. apply (Permutation_in _ (Permutation_sym Hp)) in Hr'.
    inversion Hs as [|? ? _ Hall]; subst.
    destruct Hr' as [<-|Hin]; [lia|].
    rewrite Forall_forall in Hall. apply Hall, Hin.
Qed.

(** X4: whatever rows the relation holds and in whatever order they were
    stored, the latest query answers 404 exactly when there is no row, and
    otherwise returns the four fields of a stored row whose identifier is
    the greatest of all. *)
Theorem latest_is_greatest_id (w : world) (p : Asyncpg.pool) (t : Pg.table) :
  db_pool w = Some p ->
  Pg.location_data (pg w) = Some t ->
  match fst (get_latest_location w) with
  | inr (Record_ rec) =>
      exists r, In r (Pg.tbl_rows t) /\
                rec = Pg.select_list (Some latest_columns) r /\
                forall r', In r' (Pg.tbl_rows t) -> Pg.row_id r' <= Pg.row_id r
  | inr (Records _) => False
  | inl e => e = Py.HTTPException 404 /\ Pg.tbl_rows t = []
  end.
Proof.
  intros Hp Ht. rewrite (get_latest_location_spec w p t Hp Ht). simpl.
  destruct (Pg.order_by_id_desc (Pg.tbl_rows t)) as [|r rest] eqn:E; simpl.
  - split; [reflexivity|].
    pose proof (order_by_id_desc_perm (Pg.tbl_rows t)) as Hperm.
    rewrite E in Hperm. apply Permutation_nil in Hperm. exact Hperm.
  - destruct (order_by_id_desc_head _ _ _ E) as [Hin Hmax].
    exists r. auto.
Qed.

(** X5: the pages of the "recent" query are consistent: for limits
    [0 <= L <= L'] within the bigint range, the answer for [L] is the first
    [L] records of the answer for [L'], whose records are stored rows in
    descending order of [id]. *)
Theorem recent_pages_are_prefixes (w : world) (p : Asyncpg.pool)
    (t : Pg.table) (L L' : Z) :
  db_pool w = Some p ->
  Pg.location_data (pg w) = Some t ->
  0 <= L <= L' -> L' <= Asyncpg.int64_max ->
  exists rs rs',
    fst (get_all_locations (Some L) w) = inr (Records rs) /\
    fst (get_all_locations (Some L') w) = inr (Records rs') /\
    rs = firstn (Z.to_nat L) rs' /\
    StronglySorted (fun a b => Pg.row_id b <= Pg.row_id a) rs' /\
    (forall r, In r rs' -> In r (Pg.tbl_rows t)).
Proof.
  intros Hp Ht HL HL'.
  rewrite (get_all_locations_running w p t L Hp Ht), (fetch_all p L _ t Ht).
  rewrite (get_all_locations_running w p t L' Hp Ht), (fetch_all p L' _ t Ht).
  assert (Hin : forall z, 0 <= z <= L' -> Asyncpg.in_int64 z = true).
  { intros z Hz.
    unfold Asyncpg.in_int64, Asyncpg.int64_min, Asyncpg.int64_max in *.
    apply andb_true_iff; split; apply Z.leb_le; lia. }
  rewrite (Hin L), (Hin L') by lia.
  destruct (Z.ltb_spec L 0); [lia|]. destruct (Z.ltb_spec L' 0); [lia|].
  simpl fst. eexists _, _. split; [reflexivity|]. split; [reflexivity|].
  split; [|split].
  - rewrite firstn_firstn. f_equal. lia.
  - apply sorted_firstn, order_by_id_desc_sorted.
  - intros r Hr. apply in_firstn in Hr.
    eapply Permutation_in; [apply order_by_id_desc_perm|exact Hr].
Qed.

(** X6: the two endpoints agree: the latest query returns the four
    fields of the first record of the "recent" query with limit 1, and
    answers 404 exactly when that query returns no record. *)
Theorem latest_agrees_with_recent (w : world) (p : Asyncpg.pool)
    (t : Pg.table) :
  db_pool w = Some p ->
  Pg.location_data (pg w) = Some t ->
  exists rs,
    fst (get_all_locations (Some 1) w) = inr (Records rs) /\
    (List.length rs <= 1)%nat /\
    fst (get_latest_location w)
    = match rs with
      | r :: _ => inr (Record_ (Pg.select_list (Some latest_columns) r))
      | [] => inl (Py.HTTPException 404)
      end.
Proof.
  intros Hp Ht.
  rewrite (get_all_locations_running w p t 1 Hp Ht), (fetch_all p 1 _ t Ht).
  rewrite (get_latest_location_spec w p t Hp Ht).
  change (Asyncpg.in_int64 1) with true. change (1 <? 0) with false.
  change (Z.to_nat 1) with 1%nat. simpl fst.
  eexists. split; [reflexivity|].
  destruct (Pg.order_by_id_desc (Pg.tbl_rows t)) as [|r rest]; simpl; auto.
Qed.

(** ** Start-up *)

(** X7: when the pool can be built, [lifespan] reaches its [yield] with
    the service running: [db_pool] is the new pool, the relation exists
    (created when it was absent), the rows of an earlier run are all still
    there, and the UDP server task has been created. *)
Theorem lifespan_startup_runs (w : world) (p : Asyncpg.pool) :
  connect w = inr p ->
  (0 < Asyncpg.max_size p)%nat ->
  match Pg.location_data (pg w) with
  | Some t => table_ok t
  | None => True
  end ->
  fst (lifespan_startup w) = inr tt /\
  running (snd (lifespan_startup w)) /\
  db_pool (snd (lifespan_startup w)) = Some p /\
  rows_of (snd (lifespan_startup w)) = rows_of w /\
  tasks (snd (lifespan_startup w)) = tasks w ++ [RunUdpServer] /\
  stdout (snd (lifespan_startup w)) = stdout w ++ [PoolCreated; TableVerified].
Proof.
  intros Hc Hsz Ht. unfold_m. rewrite Hc. simpl.
  unfold running, rows_of, Pg.create_table_if_not_exists. simpl.
  rewrite <- app_assoc. simpl.
  destruct (Pg.location_data (pg w)) as [t|] eqn:E; simpl; rewrite ?E.
  - splits; eauto.
  - splits; eauto.
    eexists. split; [reflexivity|]. repeat split.
Qed.

(** ** What an insert stores and reports *)

Lemma stored_values_not_null p lat lon time la lo ts :
  stored_values p lat lon time = Some (la, lo, ts) ->
  sql_is_null la = false /\ sql_is_null lo = false /\ sql_is_null ts = false.
Proof.
  unfold stored_values.
  destruct (Asyncpg.numeric_encode p lat); [discriminate|].
  destruct (Asyncpg.numeric_encode p lon); [discriminate|].
  destruct (Asyncpg.int8_encode p time); [discriminate|].
  destruct (Pg.coerce (Pg.TDecimal 10 8) _); [discriminate|].
  destruct (Pg.coerce (Pg.TDecimal 11 8) _); [discriminate|].
  destruct (sql_is_null s2) eqn:E1; [discriminate|].
  destruct (sql_is_null s3) eqn:E2; [discriminate|].
  destruct (sql_is_null s1) eqn:E3; [discriminate|].
  simpl. intros E; inversion E; subst. auto.
Qed.

Lemma location_row_is_report id la lo ts now :
  sql_is_null la = false -> sql_is_null lo = false ->
  sql_is_null ts = false ->
  report_row (location_row id la lo ts now) = true.
Proof.
  intros H1 H2 H3. unfold report_row, column_has_value, column_is_null.
  simpl. destruct la, lo, ts; simpl in *; try discriminate; reflexivity.
Qed.

(** The outcome of one insert on a running service, with or without a
    JSON object in the message. *)
Lemma insert_location_data_outcome message w :
  running w ->
  exists w',
    insert_location_data message w = (inr tt, w') /\
    running w' /\
    (rows_of w' = rows_of w \/
     exists p t la lo ts items,
       db_pool w = Some p /\ Pg.location_data (pg w) = Some t /\
       Json.loads message = inr (Py.PDict items) /\
       stored_report p items = Some (la, lo, ts) /\
       rows_of w' = rows_of w ++
                    [location_row (Pg.tbl_seq t + 1) la lo ts
                                  (Pg.clock (pg w))] /\
       stdout w' = stdout w ++ [Inserted (Pg.SInt (Pg.tbl_seq t + 1))]).
Proof.
  intros Hrun.
  destruct (insert_location_data_running message w Hrun) as [Hrun' _].
  destruct Hrun as ((p & Hp & Hsz) & t & Ht & Hok).
  destruct (insert_location_data_spec message w p t Hp Ht Hok)
    as (w' & Hr & _ & _ & _ & _ & Hcase).
  rewrite Hr in Hrun'. simpl in Hrun'.
  exists w'. split; [exact Hr|]. split; [exact Hrun'|].
  assert (Same : pg w' = pg w -> rows_of w' = rows_of w)
    by (unfold rows_of; intros ->; reflexivity).
  assert (Bump : pg w' = bump (pg w) t -> rows_of w' = rows_of w)
    by (unfold rows_of; intros ->; rewrite Ht; reflexivity).
  destruct (Json.loads message) as [e|v] eqn:Hj;
    [left; apply Same; tauto|].
  destruct v; try (left; apply Same; tauto).
  destruct (stored_report p items) as [[[la lo] ts]|] eqn:Hst.
  - right. destruct Hcase as [Hpg Hout].
    exists p, t, la, lo, ts, items. splits; auto.
    unfold rows_of. rewrite Hpg, Ht. reflexivity.
  - left. destruct Hcase as [[Hpg|Hpg] _]; auto.
Qed.

(** X9: when an insert stores a row, the identifier it prints is the
    identifier of that row, it is greater than every identifier stored
    before, and the row carries the server's clock as [created_at]. *)
Theorem inserted_id_is_reported (message : Py.str) (w : world) (r : Pg.row) :
  running w ->
  rows_of (snd (insert_location_data message w)) = rows_of w ++ [r] ->
  stdout (snd (insert_location_data message w))
    = stdout w ++ [Inserted (Pg.SInt (Pg.row_id r))] /\
  Pg.field r "id" = Some (Pg.SInt (Pg.row_id r)) /\
  Forall (fun old => Pg.row_id old < Pg.row_id r) (rows_of w) /\
  Pg.field r "created_at" = Some (Pg.STimestamp (Pg.clock (pg w))).
Proof.
  intros Hrun Hrows.
  destruct (insert_location_data_outcome message w Hrun)
    as (w' & Hr & Hrun' & Hcase).
  rewrite Hr in *. simpl snd in *.
  destruct Hcase as [Hsame | (p & t & la & lo & ts & items & Hp & Ht & _ & _
                               & Hnew & Hout)].
  - exfalso. rewrite Hsame in Hrows.
    apply (f_equal (@List.length _)) in Hrows.
    rewrite length_app in Hrows. simpl in Hrows. lia.
  - rewrite Hnew in Hrows. apply app_inv_head in Hrows.
    inversion Hrows; subst r. splits; auto.
    destruct Hrun as (_ & t0 & Ht0 & _ & Hid & _).
    assert (t0 = t) by congruence. subst t0.
    unfold rows_of. rewrite Ht.
    change (Pg.row_id (location_row (Pg.tbl_seq t + 1) la lo ts
                                    (Pg.clock (pg w))))
      with (Pg.tbl_seq t + 1).
    pose proof (ids_below _ _ Hid) as Hb.
    rewrite Forall_map in Hb. exact Hb.
Qed.

(** ** Reports beyond the bounds of the columns *)

Lemma rescale_lower u sc B :
  0 <= sc -> 0 <= B -> B * 10 ^ sc <= Z.abs u ->
  B * 10 ^ 8 <= Z.abs (Pg.rescale u sc 8).
Proof.
  intros Hsc HB Hu. unfold Pg.rescale.
  destruct (Z.leb_spec sc 8) as [Hle|Hgt].
  - rewrite Z.abs_mul, (Z.abs_eq (10 ^ (8 - sc))) by (apply Z.pow_nonneg; lia).
    replace (10 ^ 8) with (10 ^ sc * 10 ^ (8 - sc))
      by (rewrite <- Z.pow_add_r by lia; f_equal; lia).
    rewrite Z.mul_assoc.
    apply Z.mul_le_mono_nonneg_r; [apply Z.pow_nonneg; lia | assumption].
  - assert (Hd : 0 < 10 ^ (sc - 8)) by (apply Z.pow_pos_nonneg; lia).
    rewrite div_round_half_away_abs by assumption.
    assert (Hq : B * 10 ^ 8 <= Z.abs u / 10 ^ (sc - 8)).
    { apply Z.div_le_lower_bound; [assumption|].
      replace (10 ^ (sc - 8) * (B * 10 ^ 8)) with (B * 10 ^ sc); [assumption|].
      rewrite (Z.mul_comm (10 ^ (sc - 8))), <- Z.mul_assoc, <- Z.pow_add_r by lia.
      do 2 f_equal. lia. }
    destruct (2 * (Z.abs u mod 10 ^ (sc - 8)) >=? 10 ^ (sc - 8)); lia.
Qed.

Lemma number_at_least_decimal bound v :
  0 <= bound ->
  number_at_least bound v = true ->
  exists u sc, exact_decimal v = Some (u, sc) /\ 0 <= sc /\
               bound * 10 ^ sc <= Z.abs u.
Proof.
  intros Hb. destruct v as [ | |z|f| | | ]; simpl; try discriminate.
  - intros H. apply Z.leb_le in H. exists z, 0. simpl. repeat split; lia.
  - destruct f as [s| | |s m e]; try discriminate.
    destruct (Z.leb_spec 0 e) as [He|He]; intros H; apply Z.leb_le in H.
    + eexists _, 0. split; [reflexivity|]. split; [lia|].
      rewrite Z.pow_0_r, Z.mul_1_r.
      assert (0 < 2 ^ e) by (apply Z.pow_pos_nonneg; lia).
      destruct s; rewrite Z.abs_mul, (Z.abs_eq (2 ^ e)) by lia; simpl Z.abs;
        assumption.
    + eexists _, (- e). split; [reflexivity|]. split; [lia|].
      assert (H5 : 0 < 5 ^ (- e)) by (apply Z.pow_pos_nonneg; lia).
      replace (10 ^ (- e)) with (2 ^ (- e) * 5 ^ (- e))
        by (rewrite <- Z.pow_mul_l; reflexivity).
      rewrite Z.mul_assoc.
      destruct s; rewrite Z.abs_mul, (Z.abs_eq (5 ^ (- e))) by lia;
        simpl Z.abs; apply Z.mul_le_mono_nonneg_r; lia.
Qed.

Lemma coerce_overflow p u sc bound :
  0 <= sc -> 0 <= bound -> bound * 10 ^ sc <= Z.abs u ->
  10 ^ p <= bound * 10 ^ 8 ->
  Pg.coerce (Pg.TDecimal p 8) (Pg.SNumeric (Pg.Num u sc))
  = inl Py.NumericValueOutOfRangeError.
Proof.
  intros Hsc Hb Hu Hp. cbn [Pg.coerce].
  pose proof (rescale_lower u sc bound Hsc Hb Hu).
  destruct (Z.ltb_spec (Z.abs (Pg.rescale u sc 8)) (10 ^ p)); [lia|reflexivity].
Qed.

Lemma stored_values_out_of_range p lat lon time :
  number_at_least 100 lat = true \/ number_at_least 1000 lon = true \/
  beyond_int64 time = true ->
  stored_values p lat lon time = None.
Proof.
  unfold stored_values. intros [H|[H|H]].
  - apply number_at_least_decimal in H; [|lia].
    destruct H as (u & sc & E & Hsc & Hu).
    rewrite (numeric_encode_number p lat _ _ E).
    rewrite (coerce_overflow 10 u sc 100) by (try assumption; lia).
    destruct (Asyncpg.numeric_encode p lon); [reflexivity|].
    destruct (Asyncpg.int8_encode p time); reflexivity.
  - apply number_at_least_decimal in H; [|lia].
    destruct H as (u & sc & E & Hsc & Hu).
    rewrite (numeric_encode_number p lon _ _ E).
    rewrite (coerce_overflow 11 u sc 1000) by (try assumption; lia).
    destruct (Asyncpg.numeric_encode p lat); [reflexivity|].
    destruct (Asyncpg.int8_encode p time); [reflexivity|].
    destruct (Pg.coerce (Pg.TDecimal 10 8) s); reflexivity.
  - destruct time as [ | |z| | | | ]; try discriminate.
    cbn [beyond_int64] in H. apply negb_true_iff in H.
    cbn [Asyncpg.int8_encode]. unfold Asyncpg.int8_of. rewrite H.
    destruct (Asyncpg.numeric_encode p lat); [reflexivity|].
    destruct (Asyncpg.numeric_encode p lon); reflexivity.
Qed.

(** X10: a report whose latitude is 100 or more in absolute value, whose
    longitude is 1000 or more, or whose integer time does not fit 64 bits
    is never stored: the columns DECIMAL(10,8), DECIMAL(11,8) and BIGINT
    cannot hold it.  The coroutine prints one error line and ends without
    raising, and the rows stored before stay as they are. *)
Theorem out_of_range_report_is_dropped (w : world) (message : Py.str)
    (items : list (Py.str * Py.value)) :
  running w ->
  Json.loads message = inr (Py.PDict items) ->
  number_at_least 100 (Py.dict_get items (Py.lit "lat")) = true \/
  number_at_least 1000 (Py.dict_get items (Py.lit "lon")) = true \/
  beyond_int64 (Py.dict_get items (Py.lit "time")) = true ->
  fst (insert_location_data message w) = inr tt /\
  rows_of (snd (insert_location_data message w)) = rows_of w /\
  exists l, stdout (snd (insert_location_data message w)) = stdout w ++ [l] /\
            error_line l = true.
Proof.
  intros ((p & Hp & _) & t & Ht & Hok) Hj Hout.
  destruct (insert_location_data_spec message w p t Hp Ht Hok)
    as (w' & Hr & _ & _ & _ & _ & Hcase).
  rewrite Hr. simpl. rewrite Hj in Hcase.
  unfold stored_report, report_of in Hcase.
  rewrite (stored_values_out_of_range p _ _ _ Hout) in Hcase.
  destruct Hcase as [Hpg Hlog]. splits; auto.
  unfold rows_of. destruct Hpg as [-> | ->]; [reflexivity|].
  rewrite Ht. reflexivity.
Qed.

(** ** Invariants of the relation over schedules *)

(** One event stores at most one row, and only a row of a report. *)
Lemma exec_rows_cases ev s :
  running (sys_world s) ->
  rows_of (sys_world (exec ev s)) = rows_of (sys_world s) \/
  exists id la lo ts now,
    sql_is_null la = false /\ sql_is_null lo = false /\
    sql_is_null ts = false /\
    rows_of (sys_world (exec ev s))
    = rows_of (sys_world s) ++ [location_row id la lo ts now].
Proof.
  intros Hrun.
  assert (Keep : forall w', pg w' = pg (sys_world s) ->
                            rows_of w' = rows_of (sys_world s))
    by (intros w' E; unfold rows_of; rewrite E; reflexivity).
  pose proof Hrun as ((p & Hp & Hsz) & t & Ht & Hok).
  destruct ev as [d|i|dt| | |limit]; simpl.
  - left. apply Keep, deliver_pg.
  - destruct (nth_error (coroutines s) i) as [c|]; [|left; reflexivity].
    destruct c as [m|m p' lat lon time|]; [| |left; reflexivity].
    + destruct (insert_enter_spec m (sys_world s))
        as (r & w' & He & E1 & E2 & _).
      rewrite He. left.
      destruct r as [[p' [[lat lon] time]]|]; [|apply Keep; assumption].
      destruct (in_use s <? Asyncpg.max_size p')%nat; apply Keep; auto.
    + destruct (insert_resume_spec m p' lat lon time (sys_world s) t Ht Hok)
        as (w' & Hr & Hp' & _ & _ & _ & Hcase).
      rewrite Hr. simpl.
      destruct (stored_values p' lat lon time) as [[[la lo] ts]|] eqn:Hst.
      * right. destruct Hcase as [Hpg _].
        destruct (stored_values_not_null _ _ _ _ _ _ _ Hst) as (N1 & N2 & N3).
        exists (Pg.tbl_seq t + 1), la, lo, ts, (Pg.clock (pg (sys_world s))).
        splits; auto. unfold rows_of. rewrite Hpg, Ht. reflexivity.
      * left. destruct Hcase as [[Hpg|Hpg] _]; [apply Keep; assumption|].
        unfold rows_of. rewrite Hpg, Ht. reflexivity.
  - left. unfold rows_of. simpl. reflexivity.
  - rewrite Hp. left. apply Keep. simpl.
    unfold Pg.create_table_if_not_exists. rewrite Ht. reflexivity.
  - left. rewrite get_latest_location_keeps_world. reflexivity.
  - left. rewrite get_all_locations_keeps_world. reflexivity.
Qed.

(** X8: every row the service ever stores is the row of a report: from a
    running service whose rows are such (an empty relation, say), after
    any schedule of datagrams, well-formed or not, coroutine steps, ticks
    and requests, each row has values in [id], [latitude], [longitude],
    [timestamp_value] and [created_at] and nulls in [accuracy],
    [altitude], [speed] and [provider]. *)
Theorem every_stored_row_is_a_report (w : world) (sch : list event) :
  running w ->
  forallb report_row (rows_of w) = true ->
  forallb report_row
    (rows_of (sys_world (run_schedule sch (mk_system w 0 [])))) = true.
Proof.
  intros Hrun Hrows.
  change w with (sys_world (mk_system w 0 [])) in Hrun, Hrows.
  revert Hrun Hrows. generalize (mk_system w 0 []). clear w.
  induction sch as [|ev sch IH]; intros s Hrun Hrows; [exact Hrows|].
  rewrite run_schedule_cons.
  destruct (exec_running ev s Hrun) as [Hrun1 _].
  apply IH; [exact Hrun1|].
  destruct (exec_rows_cases ev s Hrun)
    as [E | (id & la & lo & ts & now & N1 & N2 & N3 & E)]; rewrite E.
  - exact Hrows.
  - rewrite forallb_app, Hrows. simpl.
    rewrite (location_row_is_report id la lo ts now N1 N2 N3). reflexivity.
Qed.

(** *** Degraded mode *)

Lemma exec_degraded ev s :
  db_pool (sys_world s) = None ->
  forallb (fun c => negb (is_holding c)) (coroutines s) = true ->
  Pg.location_data (pg (sys_world (exec ev s)))
    = Pg.location_data (pg (sys_world s)) /\
  forallb (fun c => negb (is_holding c)) (coroutines (exec ev s)) = true /\
  in_use (exec ev s) = in_use s.
Proof.
  intros Hp Hcs.
  destruct ev as [d|i|dt| | |limit]; simpl.
  - rewrite deliver_pg. splits; auto.
    rewrite forallb_app, Hcs. simpl.
    induction (tasks (snd (deliver d (sys_world s)))) as [|t ts IH];
      [reflexivity|].
    simpl. rewrite forallb_app, IH. destruct t; reflexivity.
  - destruct (nth_error (coroutines s) i) as [c|] eqn:Hi; [|auto].
    destruct c as [m|m p' lat lon time|]; [| |auto].
    + destruct (insert_enter_spec m (sys_world s))
        as (r & w' & He & _ & E2 & _ & _ & Hcase).
      rewrite He. rewrite Hp in Hcase. destruct Hcase as [-> _].
      simpl. rewrite E2. splits; auto.
      clear - Hcs. revert i.
      induction (coroutines s) as [|c cs IH]; intros [|i]; simpl in *; auto;
        apply andb_true_iff in Hcs; destruct Hcs as [H1 H2];
        rewrite ?H1, ?IH; auto.
    + exfalso. rewrite forallb_forall in Hcs.
      apply nth_error_In in Hi. specialize (Hcs _ Hi). discriminate.
  - auto.
  - rewrite Hp. auto.
  - rewrite get_latest_location_keeps_world. auto.
  - rewrite get_all_locations_keeps_world. auto.
Qed.

(** X2: without a pool the ingestion path never reaches the database:
    after any schedule of datagrams, coroutine steps, ticks and requests
    the relation is what it was, no connection is in use, and [db_pool] is
    still [None]. *)
Theorem degraded_ingest_leaves_store_untouched (w : world)
    (sch : list event) :
  db_pool w = None ->
  Pg.location_data (pg (sys_world (run_schedule sch (mk_system w 0 []))))
    = Pg.location_data (pg w) /\
  in_use (run_schedule sch (mk_system w 0 [])) = 0%nat /\
  db_pool (sys_world (run_schedule sch (mk_system w 0 []))) = None.
Proof.
  intros Hp.
  assert (G : forall s,
             db_pool (sys_world s) = None ->
             forallb (fun c => negb (is_holding c)) (coroutines s) = true ->
             Pg.location_data (pg (sys_world (run_schedule sch s)))
               = Pg.location_data (pg (sys_world s)) /\
             in_use (run_schedule sch s) = in_use s).
  { induction sch as [|ev sch IH]; intros s Hs Hcs; [auto|].
    rewrite run_schedule_cons.
    destruct (exec_degraded ev s Hs Hcs) as (E1 & E2 & E3).
    destruct (IH (exec ev s)) as [F1 F2]; auto.
    - rewrite exec_db_pool. exact Hs.
    - rewrite F1, F2, E1, E3. auto. }
  destruct (G (mk_system w 0 []) Hp eq_refl) as [G1 G2].
  splits; auto. rewrite run_schedule_db_pool. exact Hp.
Qed.

(** ** Datagrams handled one after the other *)

(** One well-formed datagram, received and run to the end. *)
Lemma receive_one d w p :
  running w -> db_pool w = Some p -> tasks w = [] ->
  well_formed_datagram d = true ->
  exists w' r,
    (deliver d ;;; run_pending) w = (inr tt, w') /\
    running w' /\ db_pool w' = Some p /\ tasks w' = [] /\
    rows_of w' = rows_of w ++ [r] /\
    ingested r = expected p d.
Proof.
  intros Hrun Hp Htasks Hwf.
  destruct (well_formed_datagram_inv d Hwf) as (m & Hdec & Hm).
  destruct (well_formed_message_inv m Hm) as (items & Hj & Hrep).
  destruct (well_formed_report_stored p items Hrep) as (la & lo & ts & Hst).
  unfold bind. rewrite (deliver_decoded d w m Hdec), Htasks.
  unfold run_pending. cbn [tasks app run_tasks run_task db_pool pg connect
                           stdout].
  unfold bind.
  set (w1 := mk_world (db_pool w) (pg w) (connect w)
               (stdout w ++ [UdpReceived (snd d) m]) []).
  destruct Hrun as ((p0 & Hp0 & Hsz) & t & Ht & Hok).
  assert (p0 = p) by congruence. subst p0.
  destruct (insert_location_data_spec m w1 p t Hp Ht Hok)
    as (w2 & Hr & Hp2 & _ & Ht2 & _ & Hcase).
  rewrite Hr. rewrite Hj, Hst in Hcase. destruct Hcase as [Hpg _].
  destruct (table_ok_store (pg w) t la lo ts (Pg.clock (pg w)) Hok)
    as (t' & E1 & E2 & E3).
  exists w2, (location_row (Pg.tbl_seq t + 1) la lo ts (Pg.clock (pg w))).
  simpl in Hpg, Hp2, Ht2.
  splits; auto.
  - split; [exists p; split; [congruence|assumption]|].
    exists t'. rewrite Hpg. auto.
  - congruence.
  - unfold rows_of. rewrite Hpg, E1, Ht. exact E3.
  - unfold expected. rewrite Hdec, Hj, Hst. reflexivity.
Qed.

(** X12: when every coroutine runs to its end before the next datagram
    is read, well-formed reports are stored in their order of arrival:
    [receive] returns, and the new rows are, one per datagram and in the
    same order, the coerced [lat], [lon] and [time] of each report. *)
Theorem sequential_receive_keeps_arrival_order (w : world)
    (p : Asyncpg.pool) (ds : list datagram) :
  running w -> db_pool w = Some p -> tasks w = [] ->
  forallb well_formed_datagram ds = true ->
  fst (receive ds w) = inr tt /\
  exists new,
    rows_of (snd (receive ds w)) = rows_of w ++ new /\
    map ingested new = map (expected p) ds.
Proof.
  revert w. induction ds as [|d ds IH]; intros w Hrun Hp Htasks Hwf.
  - split; [reflexivity|]. exists []. split; [|reflexivity].
    symmetry; apply app_nil_r.
  - simpl in Hwf. apply andb_true_iff in Hwf. destruct Hwf as [Hd Hds].
    destruct (receive_one d w p Hrun Hp Htasks Hd)
      as (w' & r & Hone & Hrun' & Hp' & Ht' & Hrows & Hing).
    destruct (IH w' Hrun' Hp' Ht' Hds) as (Hfst & new & Hnew & Hmap).
    assert (Hstep : receive (d :: ds) w = receive ds w').
    { change (receive (d :: ds) w)
        with ((deliver d ;;; (run_pending ;;; receive ds)) w).
      unfold bind in Hone |- *.
      destruct (deliver d w) as [[e|[]] w1]; [discriminate|].
      destruct (run_pending w1) as [[e|[]] w2]; [discriminate|].
      inversion Hone; subst. reflexivity. }
    rewrite Hstep. split; [exact Hfst|].
    exists (r :: new). rewrite Hnew, Hrows, <- app_assoc. split; [reflexivity|].
    simpl. rewrite Hing, Hmap. reflexivity.
Qed.

(** ** A malformed datagram does not disturb the ones that follow *)

(** Nothing the program does depends on what it printed before. *)
Lemma insert_location_data_same m w1 w2 :
  same_but_stdout w1 w2 ->
  fst (insert_location_data m w1) = fst (insert_location_data m w2) /\
  same_but_stdout (snd (insert_location_data m w1))
                  (snd (insert_location_data m w2)).
Proof.
  destruct w1, w2. unfold same_but_stdout. simpl.
  intros (-> & -> & -> & ->).
  unfold_m. simpl. repeat (case_match; simpl); auto.
Qed.

Lemma run_task_same t w1 w2 :
  same_but_stdout w1 w2 ->
  fst (run_task t w1) = fst (run_task t w2) /\
  same_but_stdout (snd (run_task t w1)) (snd (run_task t w2)).
Proof.
  destruct t; [|apply insert_location_data_same].
  destruct w1, w2. unfold same_but_stdout. simpl.
  intros (-> & -> & -> & ->). auto.
Qed.

Lemma run_tasks_same ts w1 w2 :
  same_but_stdout w1 w2 ->
  fst (run_tasks ts w1) = fst (run_tasks ts w2) /\
  same_but_stdout (snd (run_tasks ts w1)) (snd (run_tasks ts w2)).
Proof.
  revert w1 w2. induction ts as [|t ts IH]; intros w1 w2 H; [auto|].
  cbn [run_tasks]. unfold bind.
  destruct (run_task_same t w1 w2 H) as [E1 E2].
  destruct (run_task t w1) as [[e1|[]] v1];
    destruct (run_task t w2) as [[e2|[]] v2]; simpl in E1, E2;
    try discriminate; auto.
Qed.

Lemma deliver_same d w1 w2 :
  same_but_stdout w1 w2 ->
  fst (deliver d w1) = fst (deliver d w2) /\
  same_but_stdout (snd (deliver d w1)) (snd (deliver d w2)).
Proof.
  destruct w1, w2. unfold same_but_stdout. simpl.
  intros (-> & -> & -> & ->).
  unfold_m. simpl. repeat (case_match; simpl); auto.
Qed.

Lemma run_pending_same w1 w2 :
  same_but_stdout w1 w2 ->
  fst (run_pending w1) = fst (run_pending w2) /\
  same_but_stdout (snd (run_pending w1)) (snd (run_pending w2)).
Proof.
  intros H. unfold run_pending.
  destruct H as (H1 & H2 & H3 & H4). rewrite H4.
  apply run_tasks_same. unfold same_but_stdout. simpl. auto.
Qed.

Lemma receive_same ds w1 w2 :
  same_but_stdout w1 w2 ->
  fst (receive ds w1) = fst (receive ds w2) /\
  same_but_stdout (snd (receive ds w1)) (snd (receive ds w2)).
Proof.
  revert w1 w2. induction ds as [|d ds IH]; intros w1 w2 H; [auto|].
  cbn [receive]. unfold bind.
  destruct (deliver_same d w1 w2 H) as [E1 E2].
  destruct (deliver d w1) as [[e1|[]] v1];
    destruct (deliver d w2) as [[e2|[]] v2]; simpl in E1, E2;
    try discriminate; auto.
  destruct (run_pending_same v1 v2 E2) as [F1 F2].
  destruct (run_pending v1) as [[e1|[]] u1];
    destruct (run_pending v2) as [[e2|[]] u2]; simpl in F1, F2;
    try discriminate; auto.
Qed.

Lemma insert_malformed_any m w :
  match Json.loads m with inr (Py.PDict _) => False | _ => True end ->
  exists l,
    insert_location_data m w
    = (inr tt, mk_world (db_pool w) (pg w) (connect w) (stdout w ++ [l])
                        (tasks w)).
Proof.
  intros Hbad. destruct w as [dp s c out ts]. unfold_m. simpl.
  destruct dp; [|eexists; reflexivity].
  destruct (Json.loads m) as [e|v]; simpl.
  - destruct e; eexists; reflexivity.
  - destruct v; try contradiction; eexists; reflexivity.
Qed.

(** X11: a datagram whose text is not JSON, or is JSON but not an
    object, is skipped without trace in the database: whatever the state
    of the pool and of the relation, the datagrams that follow it are
    handled exactly as if it had never arrived: same result, same server,
    same global, same pending tasks. *)
Theorem malformed_datagram_is_skipped (w : world) (d : datagram)
    (ds : list datagram) (m : Py.str) :
  tasks w = [] ->
  Utf8.decode (fst d) = inr m ->
  match Json.loads m with inr (Py.PDict _) => False | _ => True end ->
  fst (receive (d :: ds) w) = fst (receive ds w) /\
  same_but_stdout (snd (receive (d :: ds) w)) (snd (receive ds w)).
Proof.
  intros Htasks Hdec Hbad.
  destruct (insert_malformed_any m
              (mk_world (db_pool w) (pg w) (connect w)
                        (stdout w ++ [UdpReceived (snd d) m]) []) Hbad)
    as (l & Hins).
  assert (Hstep : receive (d :: ds) w
                  = receive ds (mk_world (db_pool w) (pg w) (connect w)
                                  ((stdout w ++ [UdpReceived (snd d) m])
                                   ++ [l]) [])).
  { cbn [receive]. unfold bind.
    rewrite (deliver_decoded d w m Hdec), Htasks.
    unfold run_pending.
    cbn [tasks app run_tasks run_task db_pool pg connect stdout].
    unfold bind. rewrite Hins. reflexivity. }
  rewrite Hstep. apply receive_same.
  unfold same_but_stdout. simpl. auto.
Qed.

(** ** The further properties at concrete inputs *)

Lemma latest_is_greatest_id_witness :
  match fst (get_latest_location shuffled_world) with
  | inr (Record_ rec) =>
      exists r, In r (Pg.tbl_rows shuffled_table) /\
                rec = Pg.select_list (Some latest_columns) r /\
                forall r', In r' (Pg.tbl_rows shuffled_table) ->
                           Pg.row_id r' <= Pg.row_id r
  | inr (Records _) => False
  | inl e => e = Py.HTTPException 404 /\ Pg.tbl_rows shuffled_table = []
  end.
Proof.
  exact (latest_is_greatest_id shuffled_world example_pool shuffled_table
           eq_refl eq_refl).
Defined.

Lemma recent_pages_witness :
  exists rs rs',
    fst (get_all_locations (Some 1) shuffled_world) = inr (Records rs) /\
    fst (get_all_locations (Some 2) shuffled_world) = inr (Records rs') /\
    rs = firstn (Z.to_nat 1) rs' /\
    StronglySorted (fun a b => Pg.row_id b <= Pg.row_id a) rs' /\
    (forall r, In r rs' -> In r (Pg.tbl_rows shuffled_table)).
Proof.
  exact (recent_pages_are_prefixes shuffled_world example_pool shuffled_table
           1 2 eq_refl eq_refl ltac:(lia) ltac:(vm_compute; discriminate)).
Defined.

Lemma latest_agrees_witness :
  exists rs,
    fst (get_all_locations (Some 1) shuffled_world) = inr (Records rs) /\
    (List.length rs <= 1)%nat /\
    fst (get_latest_location shuffled_world)
    = match rs with
      | r :: _ => inr (Record_ (Pg.select_list (Some latest_columns) r))
      | [] => inl (Py.HTTPException 404)
      end.
Proof.
  exact (latest_agrees_with_recent shuffled_world example_pool shuffled_table
           eq_refl eq_refl).
Defined.

Lemma lifespan_startup_witness :
  fst (lifespan_startup fresh_world) = inr tt /\
  running (snd (lifespan_startup fresh_world)) /\
  db_pool (snd (lifespan_startup fresh_world)) = Some example_pool /\
  rows_of (snd (lifespan_startup fresh_world)) = rows_of fresh_world /\
  tasks (snd (lifespan_startup fresh_world))
    = tasks fresh_world ++ [RunUdpServer] /\
  stdout (snd (lifespan_startup fresh_world))
    = stdout fresh_world ++ [PoolCreated; TableVerified].
Proof.
  exact (lifespan_startup_runs fresh_world example_pool eq_refl
           ltac:(simpl; lia) I).
Defined.

Lemma inserted_id_witness :
  stdout (snd (insert_location_data
                 (json_message "{'lat': 1, 'lon': 2, 'time': 3}")
                 example_world_1))
    = stdout example_world_1
      ++ [Inserted
            (Pg.SInt
               (Pg.row_id
                  (location_row 2 (Pg.SNumeric (Pg.Num 100000000 8))
                     (Pg.SNumeric (Pg.Num 200000000 8)) (Pg.SInt 3) 0)))] /\
  Forall (fun old =>
            Pg.row_id old
            < Pg.row_id
                (location_row 2 (Pg.SNumeric (Pg.Num 100000000 8))
                   (Pg.SNumeric (Pg.Num 200000000 8)) (Pg.SInt 3) 0))
         (rows_of example_world_1).
Proof.
  destruct (inserted_id_is_reported
              (json_message "{'lat': 1, 'lon': 2, 'time': 3}")
              example_world_1
              (location_row 2 (Pg.SNumeric (Pg.Num 100000000 8))
                 (Pg.SNumeric (Pg.Num 200000000 8)) (Pg.SInt 3) 0)
              example_world_1_running ltac:(vm_compute; reflexivity))
    as (H1 & _ & H2 & _).
  split; [exact H1 | exact H2].
Defined.

Lemma out_of_range_witness :
  fst (insert_location_data
         (json_message "{'lat': 100, 'lon': 2, 'time': 3}") example_world_1)
    = inr tt /\
  rows_of (snd (insert_location_data
                  (json_message "{'lat': 100, 'lon': 2, 'time': 3}")
                  example_world_1)) = rows_of example_world_1.
Proof.
  destruct (out_of_range_report_is_dropped example_world_1
              (json_message "{'lat': 100, 'lon': 2, 'time': 3}")
              [ (Py.lit "lat", Py.PInt 100); (Py.lit "lon", Py.PInt 2);
                (Py.lit "time", Py.PInt 3) ]
              example_world_1_running ltac:(vm_compute; reflexivity)
              ltac:(left; vm_compute; reflexivity))
    as (H1 & H2 & _).
  split; [exact H1 | exact H2].
Defined.

Lemma every_stored_row_witness :
  forallb report_row
    (rows_of (sys_world (run_schedule example_schedule
                           (mk_system example_world_1 0 [])))) = true.
Proof.
  exact (every_stored_row_is_a_report example_world_1 example_schedule
           example_world_1_running ltac:(vm_compute; reflexivity)).
Defined.

Lemma degraded_ingest_witness :
  Pg.location_data
    (pg (sys_world (run_schedule example_schedule
                      (mk_system unreachable_world 0 []))))
    = Pg.location_data (pg unreachable_world) /\
  in_use (run_schedule example_schedule (mk_system unreachable_world 0 []))
    = 0%nat /\
  db_pool (sys_world (run_schedule example_schedule
                        (mk_system unreachable_world 0 []))) = None.
Proof.
  exact (degraded_ingest_leaves_store_untouched unreachable_world
           example_schedule eq_refl).
Defined.

Lemma sequential_receive_witness :
  fst (receive [ json_datagram "{'lat': 1, 'lon': 2, 'time': 3}";
                 json_datagram "{'lat': -45.5, 'lon': 170.25, 'time': 4}" ]
               example_world_1) = inr tt /\
  exists new,
    rows_of (snd (receive
                    [ json_datagram "{'lat': 1, 'lon': 2, 'time': 3}";
                      json_datagram
                        "{'lat': -45.5, 'lon': 170.25, 'time': 4}" ]
                    example_world_1)) = rows_of example_world_1 ++ new /\
    map ingested new
    = map (expected example_pool)
          [ json_datagram "{'lat': 1, 'lon': 2, 'time': 3}";
            json_datagram "{'lat': -45.5, 'lon': 170.25, 'time': 4}" ].
Proof.
  exact (sequential_receive_keeps_arrival_order example_world_1 example_pool
           [ json_datagram "{'lat': 1, 'lon': 2, 'time': 3}";
             json_datagram "{'lat': -45.5, 'lon': 170.25, 'time': 4}" ]
           example_world_1_running ltac:(vm_compute; reflexivity)
           ltac:(vm_compute; reflexivity) ltac:(vm_compute; reflexivity)).
Defined.

Lemma malformed_datagram_witness :
  fst (receive [ json_datagram "[1, 2]";
                 json_datagram "{'lat': 1, 'lon': 2, 'time': 3}" ]
               example_world_1)
  = fst (receive [ json_datagram "{'lat': 1, 'lon': 2, 'time': 3}" ]
                 example_world_1) /\
  same_but_stdout
    (snd (receive [ json_datagram "[1, 2]";
                    json_datagram "{'lat': 1, 'lon': 2, 'time': 3}" ]
                  example_world_1))
    (snd (receive [ json_datagram "{'lat': 1, 'lon': 2, 'time': 3}" ]
                  example_world_1)).
Proof.
  exact (malformed_datagram_is_skipped example_world_1
           (json_datagram "[1, 2]")
           [ json_datagram "{'lat': 1, 'lon': 2, 'time': 3}" ]
           (json_message "[1, 2]")
           ltac:(vm_compute; reflexivity) ltac:(vm_compute; reflexivity)
           ltac:(vm_compute; exact I)).
Defined.
